(** * Earthquake future predictor: the statistical core of [final_app.py]

    A shallow embedding of [EarthquakeFuturePredictor] (catalog merge,
    region filter, recent-activity summary, pattern analyzer and forecast
    generator) together with the properties its specification states.

    Modelling conventions.
    - A Python/numpy float is an exact rational ([Q]); every number that the
      program stores is kept in lowest terms ([fl]), so that two stored
      numbers are equal exactly when they denote the same value.  [NaN] and
      infinities are not represented: catalog fields are assumed present.
      Sums, means and standard deviations are therefore exact, where
      binary floating point rounds each operation: the computed mean of
      equal values can differ from them in the last bit, a standard
      deviation that is exactly zero here can come out as a tiny positive
      number, and a sum can depend on the order of its terms.  The
      statements below are chosen not to hinge on that last bit; in
      particular they claim equal results only for computations over the
      same sequence of values.
    - [numpy.sqrt] is the square root truncated at twelve decimals
      ([np_sqrt]).
    - An instant ([datetime], [Timestamp]) is an integer count of
      microseconds since 1970-01-01T00:00:00 on the proleptic Gregorian
      calendar; a [timedelta] is an integer number of microseconds.  Range
      overflow of [datetime] is outside the model.
    - [datetime.now()] is an explicit argument [now]; the readings taken
      during one call are identified.
    - The random source is an explicit argument ([Rng]).
    - A function that may return [None] or raise returns an [outcome]. *)

From Stdlib Require Import ZArith QArith Qround Qabs Qminmax Lia Lqa String.
From stdpp Require Import base decidable list sorting strings.

Local Open Scope Z_scope.

(** ** Outcomes of a call *)

Inductive exn : Set := KeyError | ValueError.

Inductive outcome (A : Type) : Type :=
| Returned (a : A)
| ReturnedNone
| Raised (e : exn).

Arguments Returned {A} a.
Arguments ReturnedNone {A}.
Arguments Raised {A} e.

#[global] Instance outcome_bind : MBind outcome := fun A B k m =>
  match m with
  | Returned a => k a
  | ReturnedNone => ReturnedNone
  | Raised e => Raised e
  end.

#[global] Instance outcome_ret : MRet outcome := @Returned.

(** ** Floats as rationals *)

Module Num.

Definition fl (x : Q) : Q := Qred x.

#[global] Instance Qle_dec : RelDecision Qle.
Proof.
  intros x y. destruct (Qlt_le_dec y x) as [H | H].
  - right. apply Qlt_not_le. exact H.
  - left. exact H.
Defined.

#[global] Instance Qlt_dec : RelDecision Qlt.
Proof.
  intros x y. destruct (Qlt_le_dec x y) as [H | H].
  - left. exact H.
  - right. apply Qle_not_lt. exact H.
Defined.

Definition Qleb (x y : Q) : bool := bool_decide (x <= y)%Q.
Definition Qltb (x y : Q) : bool := bool_decide (x < y)%Q.

(** Python's [max(a, b)] and [min(a, b)] on numbers. *)
Definition py_max (a b : Q) : Q := if Qltb a b then b else a.
Definition py_min (a b : Q) : Q := if Qltb b a then b else a.

(** [round(x)]: nearest integer, ties to the even one. *)
Definition round_half_even (x : Q) : Z :=
  let f := Qfloor x in
  match (x - inject_Z f ?= 1 # 2)%Q with
  | Lt => f
  | Gt => f + 1
  | Eq => if Z.even f then f else f + 1
  end.

(** [round(x, nd)]. *)
Definition py_round (x : Q) (nd : nat) : Q :=
  fl (inject_Z (round_half_even (x * inject_Z (10 ^ Z.of_nat nd)))
      / inject_Z (10 ^ Z.of_nat nd)).

(** [int(x)]: truncation toward zero. *)
Definition py_int (x : Q) : Z :=
  if Qltb x 0 then - Qfloor (- x) else Qfloor x.

Definition sqrt_scale : Z := 10 ^ 12.

Definition np_sqrt (x : Q) : Q :=
  fl (inject_Z (Z.sqrt (Qfloor (x * inject_Z (sqrt_scale * sqrt_scale))))
      / inject_Z sqrt_scale).

Definition sumQ (l : list Q) : Q := foldr Qplus 0%Q l.

Definition lenQ {A} (l : list A) : Q := inject_Z (Z.of_nat (length l)).

(** [Series.mean()]. *)
Definition pd_mean (l : list Q) : Q := fl (sumQ l / lenQ l).

(** [Series.std()]: sample standard deviation ([ddof = 1]).  With fewer
    than two values pandas yields [NaN]; the value [0] returned here is
    never consulted by a run that returns an analysis. *)
Definition pd_var (l : list Q) : Q :=
  let m := pd_mean l in
  fl (sumQ (map (fun x => (x - m) * (x - m))%Q l)
      / inject_Z (Z.of_nat (length l) - 1)).

Definition pd_std (l : list Q) : Q := np_sqrt (pd_var l).

(** [Series.max()] and [Series.min()] ([None] on an empty series). *)
Definition omax (x : Q) (acc : option Q) : option Q :=
  Some (match acc with None => fl x | Some m => fl (py_max x m) end).
Definition omin (x : Q) (acc : option Q) : option Q :=
  Some (match acc with None => fl x | Some m => fl (py_min x m) end).

Definition pd_max (l : list Q) : Q := default 0%Q (foldr omax None l).
Definition pd_min (l : list Q) : Q := default 0%Q (foldr omin None l).

(** [Series.quantile(q)] with linear interpolation, on integer data. *)
Definition pd_quantile (q : Q) (l : list Z) : Q :=
  let s := merge_sort Z.le l in
  let h := (inject_Z (Z.of_nat (length l) - 1) * q)%Q in
  let lo := Qfloor h in
  let a := nth (Z.to_nat lo) s 0 in
  let b := nth (Z.to_nat (lo + 1)) s a in
  fl (inject_Z a + (h - inject_Z lo) * inject_Z (b - a)).

(** [Series.median()]. *)
Definition pd_median (l : list Z) : Q :=
  let s := merge_sort Z.le l in
  let n := length l in
  if Nat.even n
  then fl ((inject_Z (nth (n / 2 - 1) s 0) + inject_Z (nth (n / 2) s 0)) / 2)
  else fl (inject_Z (nth (n / 2) s 0)).

End Num.
Export Num.

(** ** Instants, durations and the civil calendar *)

Module Calendar.

Definition us_per_day : Z := 86400000000.

(** [timedelta(days=x)]: rounded to the microsecond, ties to even. *)
Definition timedelta_days (x : Q) : Z :=
  round_half_even (x * inject_Z us_per_day).

(** [(a - b).days]: whole days of a difference, rounded toward minus
    infinity. *)
Definition days_between (a b : Z) : Z := (a - b) / us_per_day.

Definition days_from_civil (y m d : Z) : Z :=
  let y' := if m <=? 2 then y - 1 else y in
  let era := y' / 400 in
  let yoe := y' - era * 400 in
  let doy := (153 * (if 2 <? m then m - 3 else m + 9) + 2) / 5 + d - 1 in
  let doe := yoe * 365 + yoe / 4 - yoe / 100 + doy in
  era * 146097 + doe - 719468.

Definition civil_from_days (z : Z) : Z * Z * Z :=
  let z' := z + 719468 in
  let era := z' / 146097 in
  let doe := z' - era * 146097 in
  let yoe := (doe - doe / 1460 + doe / 36524 - doe / 146096) / 365 in
  let doy := doe - (365 * yoe + yoe / 4 - yoe / 100) in
  let mp := (5 * doy + 2) / 153 in
  let d := doy - (153 * mp + 2) / 5 + 1 in
  let m := if mp <? 10 then mp + 3 else mp - 9 in
  (yoe + era * 400 + (if m <=? 2 then 1 else 0), m, d).

Definition dt_year (t : Z) : Z := fst (fst (civil_from_days (t / us_per_day))).
Definition dt_month (t : Z) : Z := snd (fst (civil_from_days (t / us_per_day))).
Definition dt_day (t : Z) : Z := snd (civil_from_days (t / us_per_day)).

(** [datetime(y, m, d, hh, mm, ss)]. *)
Definition datetime (y m d hh mm ss : Z) : Z :=
  days_from_civil y m d * us_per_day + ((hh * 60 + mm) * 60 + ss) * 1000000.

(** [t.replace(year=y, month=m, day=15)]: the time of day is kept; a month
    outside 1..12 raises [ValueError]. *)
Definition replace_ym15 (t y m : Z) : outcome Z :=
  if (1 <=? m) && (m <=? 12)
  then Returned (days_from_civil y m 15 * us_per_day + t mod us_per_day)
  else Raised ValueError.

End Calendar.
Export Calendar.

(** ** Catalog rows and the region registry *)

(** One row of the catalog [DataFrame]; [year] and [month] are the derived
    columns that [load_data] and [_fetch_recent_earthquakes] fill in. *)
Record Event : Type := {
  time : Z;
  latitude : Q;
  longitude : Q;
  depth : Q;
  magnitude : Q;
  place : string;
  zone : string;
  year : Z;
  month : Z
}.

(** Two rows hold the same values ([drop_duplicates] compares every
    column). *)
Definition same_row (a b : Event) : Prop :=
  time a = time b /\ (latitude a == latitude b)%Q
  /\ (longitude a == longitude b)%Q /\ (depth a == depth b)%Q
  /\ (magnitude a == magnitude b)%Q /\ place a = place b
  /\ zone a = zone b /\ year a = year b /\ month a = month b.

#[global] Instance Qeq_dec' : RelDecision Qeq := Qeq_dec.

#[global] Instance same_row_dec : RelDecision same_row.
Proof. intros a b. unfold same_row. apply _. Defined.

(** The key of the specification's data model. *)
Definition same_key (a b : Event) : Prop :=
  time a = time b /\ (latitude a == latitude b)%Q
  /\ (longitude a == longitude b)%Q /\ (magnitude a == magnitude b)%Q.

#[global] Instance same_key_dec : RelDecision same_key.
Proof. intros a b. unfold same_key. apply _. Defined.

Record Region : Type := {
  lat_range : Q * Q;
  lon_range : Q * Q;
  name : string
}.

Definition region (la0 la1 lo0 lo1 : Z) (n : string) : Region :=
  {| lat_range := (inject_Z la0, inject_Z la1);
     lon_range := (inject_Z lo0, inject_Z lo1);
     name := n |}.

Definition COUNTRY_COORDS : list (string * Region) :=
  [ ("India", region 8 37 68 97 "India");
    ("Russia", region 41 82 19 180 "Russia");
    ("Japan", region 24 46 123 146 "Japan");
    ("Indonesia", region (-11) 6 95 141 "Indonesia");
    ("Chile", region (-56) (-17) (-76) (-66) "Chile");
    ("Turkey", region 36 42 26 45 "Turkey");
    ("Iran", region 25 40 44 63 "Iran");
    ("Philippines", region 4 21 116 127 "Philippines");
    ("Mexico", region 14 33 (-118) (-86) "Mexico");
    ("Greece", region 34 42 19 30 "Greece");
    ("Italy", region 36 47 6 19 "Italy");
    ("Peru", region (-18) 0 (-81) (-68) "Peru");
    ("USA-California", region 32 42 (-125) (-114) "California, USA");
    ("New Zealand", region (-47) (-34) 166 179 "New Zealand");
    ("Pakistan", region 24 37 61 77 "Pakistan");
    ("Afghanistan", region 29 39 60 75 "Afghanistan") ]%string.

Fixpoint lookup_country (c : string) (l : list (string * Region)) : option Region :=
  match l with
  | [] => None
  | (k, r) :: l' => if decide (c = k) then Some r else lookup_country c l'
  end.

(** ** Sorting rows by time, dropping duplicate rows *)

Definition time_le (a b : Event) : Prop := time a <= time b.

#[global] Instance time_le_dec : RelDecision time_le.
Proof. intros a b. unfold time_le. apply _. Defined.

(** [df.sort_values('time')].  The order among rows tied in time is the
    sort routine's own and is not specified by pandas; nothing below
    depends on it beyond the times themselves. *)
Definition sort_values_time (l : list Event) : list Event :=
  merge_sort time_le l.

(** [df.drop_duplicates()]: the first of several equal rows is kept. *)
Fixpoint drop_duplicates (l : list Event) : list Event :=
  match l with
  | [] => []
  | e :: r => e :: filter (fun x => ~ same_row e x) (drop_duplicates r)
  end.

(** [df['time'].max()], [None] standing for [NaT]. *)
Definition time_max (l : list Event) : option Z :=
  foldr (fun e acc => Some (match acc with
                            | None => time e
                            | Some m => Z.max (time e) m
                            end)) None l.

(** [df.iloc[-1]]. *)
Definition iloc_last {A} (l : list A) : option A := last l.

(** ** [_determine_earthquake_zone] *)

Definition _determine_earthquake_zone (lat lon : Q) : string :=
  if Qleb (-60) lat && Qleb lat 70
     && ((Qleb 110 lon && Qleb lon 180) || (Qleb (-180) lon && Qleb lon (-100)))
  then "pacific_ring_zone"
  else if Qleb 20 lat && Qleb lat 50 && (Qleb (-10) lon && Qleb lon 160)
  then "mediterranean_himalayan_zone"
  else if Qleb (-40) lon && Qleb lon (-10) && (Qleb (-60) lat && Qleb lat 70)
  then "atlantic_ridge_zone"
  else "global_zone".

(** ** [_fetch_recent_earthquakes] and [load_data] *)

(** One feature of the live feed, in its wire schema. *)
Record Feature : Type := {
  f_time_ms : Z;
  f_lon : Q;
  f_lat : Q;
  f_depth : option Q;
  f_mag : Q;
  f_place : option string
}.

Definition record_of_feature (eq : Feature) : Event :=
  let eq_time := f_time_ms eq * 1000 in
  {| time := eq_time;
     latitude := f_lat eq;
     longitude := f_lon eq;
     depth := default 10.0%Q (f_depth eq);
     magnitude := f_mag eq;
     place := default "Unknown location"%string (f_place eq);
     zone := _determine_earthquake_zone (f_lat eq) (f_lon eq);
     year := dt_year eq_time;
     month := dt_month eq_time |}.

(** The feed's answer is [response]: [None] when the request fails.  The
    result is the [DataFrame] handed back, or [None]. *)
Definition _fetch_recent_earthquakes (last_date : option Z)
    (response : option (list Feature)) : option (list Event) :=
  match last_date, response with
  | Some last, Some earthquakes =>
      match earthquakes with
      | [] => None
      | _ =>
          let recent_df := map record_of_feature earthquakes in
          Some (filter (fun r => last < time r) recent_df)
      end
  | _, _ => None
  end.

Definition set_year_month (e : Event) : Event :=
  {| time := time e; latitude := latitude e; longitude := longitude e;
     depth := depth e; magnitude := magnitude e; place := place e;
     zone := zone e; year := dt_year (time e); month := dt_month (time e) |}.

(** [csv] is the content of the catalog file, [None] when it is missing;
    the result is [self.data] after a successful load. *)
Definition load_data (csv : option (list Event))
    (response : option (list Feature)) : option (list Event) :=
  match csv with
  | None => None
  | Some rows =>
      let data := map set_year_month rows in
      let latest_historical := time_max data in
      match _fetch_recent_earthquakes latest_historical response with
      | Some recent_data =>
          if (0 <? length recent_data)%nat
          then Some (drop_duplicates (sort_values_time (data ++ recent_data)))
          else Some data
      | None => Some data
      end
  end.

(** ** [filter_country_data] *)

Definition in_box (coords : Region) (e : Event) : Prop :=
  (fst (lat_range coords) <= latitude e)%Q
  /\ (latitude e <= snd (lat_range coords))%Q
  /\ (fst (lon_range coords) <= longitude e)%Q
  /\ (longitude e <= snd (lon_range coords))%Q.

#[global] Instance in_box_dec coords e : Decision (in_box coords e).
Proof. unfold in_box. apply _. Defined.

Definition filter_country_data (data : list Event) (country : string) : list Event :=
  match lookup_country country COUNTRY_COORDS with
  | None => []
  | Some coords => sort_values_time (filter (in_box coords) data)
  end.

(** ** [get_recent_earthquake_summary] *)

Record Summary : Type := {
  total_recent : nat;
  significant_recent : nat;
  latest_earthquake : option Event;
  latest_significant : option Event;
  days_since_latest : option Z;
  days_since_significant : option Z
}.

Definition is_significant (e : Event) : Prop := (4.0 <= magnitude e)%Q.
Definition is_major (e : Event) : Prop := (5.0 <= magnitude e)%Q.

#[global] Instance is_significant_dec e : Decision (is_significant e).
Proof. unfold is_significant. apply _. Defined.
#[global] Instance is_major_dec e : Decision (is_major e).
Proof. unfold is_major. apply _. Defined.

Definition get_recent_earthquake_summary (data : list Event) (country : string)
    (now : Z) : option Summary :=
  let country_data := filter_country_data data country in
  match country_data with
  | [] => None
  | _ =>
      let current_date := now in
      let one_year_ago := current_date - 365 * us_per_day in
      let recent_earthquakes := filter (fun e => one_year_ago <= time e) country_data in
      let recent_significant := filter is_significant recent_earthquakes in
      match iloc_last recent_earthquakes with
      | None =>
          Some {| total_recent := 0; significant_recent := 0;
                  latest_earthquake := None; latest_significant := None;
                  days_since_latest := None; days_since_significant := None |}
      | Some latest =>
          let age e := days_between current_date (time e) in
          let latest_sig :=
            match iloc_last recent_significant with
            | Some s => Some s
            | None => iloc_last (filter is_significant country_data)
            end in
          Some {| total_recent := length recent_earthquakes;
                  significant_recent := length recent_significant;
                  latest_earthquake := Some latest;
                  latest_significant := latest_sig;
                  days_since_latest := Some (age latest);
                  days_since_significant := age <$> latest_sig |}
      end
  end.

(** ** The pattern analyzer *)

Inductive Season : Set := winter | spring | summer | autumn.

#[global] Instance Season_eq_dec : EqDecision Season.
Proof. solve_decision. Defined.

Record ConsistencyMetrics : Type := {
  temporal_consistency : Q;
  magnitude_consistency : Q;
  depth_consistency : Q;
  seasonal_consistency : Q
}.

Record PatternAnalysis : Type := {
  total_earthquakes : nat;
  major_earthquakes : nat;
  avg_interval_days : Q;
  median_interval_days : Q;
  std_interval_days : Q;
  avg_interval_years : Q;
  peak_months : list Z;
  peak_season : Season;
  seasonal_confidence : Q;
  monthly_distribution : list (Z * Z);
  seasonal_distribution : list (Season * Z);
  avg_magnitude : Q;
  max_magnitude : Q;
  min_magnitude : Q;
  magnitude_std : Q;
  magnitude_trend : Q;
  avg_depth : Q;
  depth_std : Q;
  shallow_count : nat;
  deep_count : nat;
  recent_frequency : Q;
  recent_frequency_5yr : Q;
  last_major_earthquake : option Z;
  time_intervals : list Z;
  consistency_metrics : ConsistencyMetrics;
  data_quality_score : Z
}.

Definition time_min (l : list Event) : option Z :=
  foldr (fun e acc => Some (match acc with
                            | None => time e
                            | Some m => Z.min (time e) m
                            end)) None l.

(** [_assess_data_quality]. *)
Definition _assess_data_quality (earthquake_data : list Event) (now : Z) : Z :=
  let mags := map magnitude earthquake_data in
  let s1 :=
    match time_max earthquake_data, time_min earthquake_data with
    | Some mx, Some mn =>
        let time_span := (inject_Z (days_between mx mn) / 365.25)%Q in
        if Qleb 50 time_span then 25
        else if Qleb 20 time_span then 20
        else if Qleb 10 time_span then 15
        else 10
    | _, _ => 0
    end in
  let event_count := Z.of_nat (length earthquake_data) in
  let s2 :=
    if 100 <=? event_count then 25
    else if 50 <=? event_count then 20
    else if 20 <=? event_count then 15
    else 10 in
  let s3 :=
    match time_max earthquake_data with
    | Some latest_date =>
        let days_since_latest := days_between now latest_date in
        if days_since_latest <=? 365 then 25
        else if days_since_latest <=? 1825 then 20
        else if days_since_latest <=? 3650 then 15
        else 5
    | None => 0
    end in
  let s4 :=
    match earthquake_data with
    | [] => 0
    | _ =>
        let mag_range := (pd_max mags - pd_min mags)%Q in
        if Qleb 3.0 mag_range then 25
        else if Qleb 2.0 mag_range then 20
        else if Qleb 1.0 mag_range then 15
        else 10
    end in
  Z.min 100 (s1 + s2 + s3 + s4).

(** [series.diff().dt.days.dropna()] on a column of instants. *)
Fixpoint diff_days (l : list Z) : list Z :=
  match l with
  | a :: (b :: _) as r => days_between b a :: diff_days r
  | _ => []
  end.

Definition within (lo hi : Q) (d : Z) : Prop :=
  (lo <= inject_Z d)%Q /\ (inject_Z d <= hi)%Q.

#[global] Instance within_dec lo hi d : Decision (within lo hi d).
Proof. unfold within. apply _. Defined.

(** Lines 295-303: the interquartile filter. *)
Definition iqr_lower (time_diffs : list Z) : Q :=
  let Q1 := pd_quantile 0.25 time_diffs in
  let Q3 := pd_quantile 0.75 time_diffs in
  let IQR := (Q3 - Q1)%Q in
  py_max 30 (Q1 - 1.5 * IQR).

Definition iqr_upper (time_diffs : list Z) : Q :=
  let Q1 := pd_quantile 0.25 time_diffs in
  let Q3 := pd_quantile 0.75 time_diffs in
  let IQR := (Q3 - Q1)%Q in
  py_min 7300 (Q3 + 1.5 * IQR).

Definition iqr_filter (time_diffs : list Z) : list Z :=
  filter (within (iqr_lower time_diffs) (iqr_upper time_diffs)) time_diffs.

Definition fixed_filter (time_diffs : list Z) : list Z :=
  filter (within 30 3650) time_diffs.

(** Lines 293-309: [time_diffs_filtered]. *)
Definition filter_time_diffs (time_diffs : list Z) : list Z :=
  if (3 <? length time_diffs)%nat
  then
    let time_diffs_filtered := iqr_filter time_diffs in
    if Qltb (lenQ time_diffs_filtered) (py_max 3 (lenQ time_diffs * 0.5))
    then fixed_filter time_diffs
    else time_diffs_filtered
  else fixed_filter time_diffs.

(** [series.value_counts().sort_index()]: the distinct values in
    ascending order, each with its number of occurrences. *)
Definition value_counts_sorted (l : list Z) : list (Z * Z) :=
  map (fun k => (k, Z.of_nat (length (filter (fun x => x = k) l))))
      (remove_dups (merge_sort Z.le l)).

(** [series.nlargest(n)]: repeatedly the first entry of largest count. *)
Definition first_largest (l : list (Z * Z)) : option (Z * Z) :=
  foldr (fun x acc => match acc with
                      | None => Some x
                      | Some m => if snd m <=? snd x then Some x else Some m
                      end) None l.

Fixpoint nlargest (n : nat) (l : list (Z * Z)) : list (Z * Z) :=
  match n with
  | O => []
  | S n' =>
      match first_largest l with
      | None => []
      | Some m => m :: nlargest n' (filter (fun x => fst x <> fst m) l)
      end
  end.

(** [series[labels]]: selection by a list of labels raises [KeyError] as
    soon as one label is absent from the index. *)
Fixpoint getitem_labels (s : list (Z * Z)) (labels : list Z) : outcome (list Z) :=
  match labels with
  | [] => Returned []
  | k :: ks =>
      match list_find (fun x => fst x = k) s with
      | None => Raised KeyError
      | Some (_, x) => r ← getitem_labels s ks; Returned (snd x :: r)
      end
  end.

Definition sumZ (l : list Z) : Z := foldr Z.add 0 l.

(** [max(seasonal_analysis, key=seasonal_analysis.get)]: the first key of
    largest value, in insertion order. *)
Definition max_by_value (d : list (Season * Z)) : Season :=
  match d with
  | [] => winter
  | x :: r =>
      fst (fold_left (fun best y => if snd best <? snd y then y else best) r x)
  end.

(** [df.groupby('year')['magnitude'].mean()]: one mean per distinct year,
    in ascending order of the year. *)
Definition groupby_year_mean (l : list Event) : list Q :=
  map (fun y => pd_mean (map magnitude (filter (fun e => year e = y) l)))
      (remove_dups (merge_sort Z.le (map year l))).

(** [d[k]] for a key that the dictionary holds. *)
Definition dict_get (d : list (Season * Z)) (k : Season) : Z :=
  match list_find (fun x => fst x = k) d with
  | Some (_, x) => snd x
  | None => 0
  end.

Definition qz (n : Z) : Q := inject_Z n.
Definition qn (n : nat) : Q := inject_Z (Z.of_nat n).

Definition analyze_earthquake_patterns (country_data : list Event) (now : Z)
    : outcome PatternAnalysis :=
  if (length country_data <? 10)%nat then ReturnedNone else
  let significant := filter is_significant country_data in
  let major := filter is_major country_data in
  if (length significant <? 5)%nat then ReturnedNone else
  let data_quality_score := _assess_data_quality significant now in
  let significant := sort_values_time significant in
  let time_diffs := diff_days (map time significant) in
  let time_diffs_filtered := filter_time_diffs time_diffs in
  if (length time_diffs_filtered <? 3)%nat then ReturnedNone else
  let avg_interval := pd_mean (map qz time_diffs_filtered) in
  let median_interval := pd_median time_diffs_filtered in
  let std_interval := pd_std (map qz time_diffs_filtered) in
  let monthly_counts := value_counts_sorted (map month significant) in
  let counts := map (fun x => qz (snd x)) monthly_counts in
  let monthly_mean := pd_mean counts in
  let monthly_std := pd_std counts in
  let peak_threshold := (monthly_mean + monthly_std * 0.5)%Q in
  let peak_months :=
    if (length monthly_counts <? 2)%nat then []
    else map fst (filter (fun x => (peak_threshold <= qz (snd x))%Q) monthly_counts) in
  let peak_months :=
    match peak_months with
    | [] => map fst (nlargest 3 monthly_counts)
    | _ => peak_months
    end in
  w ← getitem_labels monthly_counts [12; 1; 2];
  sp ← getitem_labels monthly_counts [3; 4; 5];
  su ← getitem_labels monthly_counts [6; 7; 8];
  au ← getitem_labels monthly_counts [9; 10; 11];
  let seasonal_analysis :=
    [(winter, sumZ w); (spring, sumZ sp); (summer, sumZ su); (autumn, sumZ au)] in
  let peak_season := max_by_value seasonal_analysis in
  let peak_value := dict_get seasonal_analysis peak_season in
  let total_seasonal := sumZ (map snd seasonal_analysis) in
  let seasonal_confidence :=
    if 0 <? total_seasonal then fl (qz peak_value / qz total_seasonal) else 0.25%Q in
  let this_year := dt_year now in
  let recent_data_5yr := filter (fun e => this_year - 5 <= year e) significant in
  let recent_data_20yr := filter (fun e => this_year - 20 <= year e) significant in
  let recent_frequency :=
    if (0 <? length recent_data_20yr)%nat then fl (qn (length recent_data_20yr) / 20.0) else 0%Q in
  let recent_frequency_5yr :=
    if (0 <? length recent_data_5yr)%nat then fl (qn (length recent_data_5yr) / 5.0) else 0%Q in
  let mags := map magnitude significant in
  let avg_magnitude := pd_mean mags in
  let max_magnitude := pd_max mags in
  let min_magnitude := pd_min mags in
  let magnitude_std := pd_std mags in
  let recent_years := filter (fun e => this_year - 10 <= year e) significant in
  let magnitude_trend :=
    if (3 <=? length recent_years)%nat then pd_mean (groupby_year_mean recent_years)
    else avg_magnitude in
  let avg_depth := pd_mean (map depth significant) in
  let depth_std := pd_std (map depth significant) in
  let shallow_earthquakes := length (filter (fun e => (depth e < 70)%Q) significant) in
  let deep_earthquakes := length (filter (fun e => (70 <= depth e)%Q) significant) in
  let consistency_metrics :=
    {| temporal_consistency :=
         if Qltb 0 std_interval then fl (1 - std_interval / avg_interval) else 0.8%Q;
       magnitude_consistency :=
         if Qltb 0 magnitude_std then fl (1 - magnitude_std / avg_magnitude) else 0.8%Q;
       depth_consistency :=
         fl (qn (Nat.max shallow_earthquakes deep_earthquakes) / qn (length significant));
       seasonal_consistency := seasonal_confidence |} in
  Returned
    {| total_earthquakes := length significant;
       major_earthquakes := length major;
       avg_interval_days := avg_interval;
       median_interval_days := median_interval;
       std_interval_days := std_interval;
       avg_interval_years := fl (avg_interval / 365.25);
       peak_months := peak_months;
       peak_season := peak_season;
       seasonal_confidence := seasonal_confidence;
       monthly_distribution := monthly_counts;
       seasonal_distribution := seasonal_analysis;
       avg_magnitude := avg_magnitude;
       max_magnitude := max_magnitude;
       min_magnitude := min_magnitude;
       magnitude_std := magnitude_std;
       magnitude_trend := magnitude_trend;
       avg_depth := avg_depth;
       depth_std := depth_std;
       shallow_count := shallow_earthquakes;
       deep_count := deep_earthquakes;
       recent_frequency := recent_frequency;
       recent_frequency_5yr := recent_frequency_5yr;
       last_major_earthquake := time <$> iloc_last significant;
       time_intervals := time_diffs_filtered;
       consistency_metrics := consistency_metrics;
       data_quality_score := data_quality_score |}.

(** The analyzer's locals [significant] (after sorting) and
    [time_diffs_filtered], as functions of its input. *)
Definition significant_events (country_data : list Event) : list Event :=
  sort_values_time (filter is_significant country_data).

Definition surviving_intervals (country_data : list Event) : list Z :=
  filter_time_diffs (diff_days (map time (significant_events country_data))).

(** ** The forecast generator *)

(** The draws of the random source: a standard normal deviate and three
    uniform deviates of [[0, 1)]. *)
Record Rng : Type := {
  normal_z : Q;
  uniform_lat : Q;
  uniform_lon : Q;
  uniform_depth : Q
}.

(** [np.random.normal(loc, scale)] and [np.random.uniform(a, b)]. *)
Definition random_normal (z loc scale : Q) : Q := (loc + scale * z)%Q.
Definition random_uniform (u a b : Q) : Q := (a + (b - a) * u)%Q.

Record RiskLevel : Type := {
  level : string;
  description : string
}.

Record CertaintyFactors : Type := {
  data_points : nat;
  cf_major_earthquakes : nat;
  cf_data_quality_score : Z;
  pattern_consistency : Q;
  cf_magnitude_consistency : Q;
  cf_depth_consistency : Q;
  cf_seasonal_consistency : Q;
  recent_activity : Q;
  recent_activity_5yr : Q
}.

Record Forecast : Type := {
  predicted_date : Z;
  date_range : Z * Z;
  predicted_magnitude : Q;
  estimated_coordinates : Q * Q;
  estimated_depth : Q;
  confidence_percentage : Z;
  confidence_breakdown : list (string * Q);
  confidence_penalties : list (string * Q);
  peak_risk_months : list Z;
  fc_peak_season : Season;
  days_since_last : Z;
  expected_interval_years : Q;
  pattern_strength : string;
  risk_level : RiskLevel;
  certainty_factors : CertaintyFactors
}.

(** [_calculate_risk_level]. *)
Definition _calculate_risk_level (magnitude : Q) : RiskLevel :=
  if Qltb magnitude 4.5 then
    {| level := "Low"; description := "Light shaking, minimal damage" |}
  else if Qltb magnitude 5.5 then
    {| level := "Moderate"; description := "Moderate shaking, some damage" |}
  else if Qltb magnitude 6.5 then
    {| level := "High"; description := "Strong shaking, considerable damage" |}
  else if Qltb magnitude 7.5 then
    {| level := "Very High"; description := "Severe shaking, major damage" |}
  else
    {| level := "Extreme"; description := "Violent shaking, catastrophic damage" |}.

(** Lines 476-482. *)
Definition weighted_interval_of (analysis : PatternAnalysis) : Q :=
  let primary_interval := median_interval_days analysis in
  if Qltb 0 (recent_frequency analysis) then
    let recent_interval := (365.25 / recent_frequency analysis)%Q in
    fl (primary_interval * 0.6 + recent_interval * 0.4)
  else primary_interval.

(** Lines 485-503: the estimate, projected into the future. *)
Definition project_forward (last_earthquake : Z) (weighted_interval : Q) (now : Z) : Z :=
  let expected_date := last_earthquake + timedelta_days weighted_interval in
  let current_date := now in
  if expected_date <=? current_date then
    let days_overdue := days_between current_date expected_date in
    let cycles_overdue := (qz days_overdue / weighted_interval)%Q in
    let future_cycles := py_int cycles_overdue + 1 in
    let expected_date :=
      expected_date + timedelta_days (weighted_interval * qz future_cycles) in
    if days_between expected_date current_date <? 30
    then current_date + timedelta_days (30 + weighted_interval)
    else expected_date
  else expected_date.

(** Lines 505-521: snapping to the first peak month. *)
Definition snap_to_peak (expected_date : Z) (peak_months : list Z)
    (weighted_interval : Q) (now : Z) : outcome Z :=
  if negb (bool_decide (dt_month expected_date ∈ peak_months))
     && (0 <? length peak_months)%nat
  then
    let current_date := now in
    let target_month := hd 0 peak_months in
    current_year_date ← replace_ym15 current_date (dt_year current_date) target_month;
    next_year_date ← replace_ym15 current_date (dt_year current_date + 1) target_month;
    if (current_date <? current_year_date)
       && Qltb (qz (Z.abs (days_between current_year_date expected_date)))
               (weighted_interval * 0.5)
    then Returned current_year_date
    else if Qltb (qz (Z.abs (days_between next_year_date expected_date)))
                 (weighted_interval * 0.5)
    then Returned next_year_date
    else Returned expected_date
  else Returned expected_date.

(** Lines 523-537: the uncertainty window, shifted into the future.  The
    result is [(expected_date, (date_range_start, date_range_end))]. *)
Definition uncertainty_window (expected_date : Z) (analysis : PatternAnalysis)
    (weighted_interval : Q) (now : Z) : Z * (Z * Z) :=
  let avg_interval := avg_interval_days analysis in
  let std_interval := std_interval_days analysis in
  let uncertainty_factor :=
    if Qltb 0 std_interval then py_min 0.3 (std_interval / avg_interval) else 0.2%Q in
  let uncertainty_days := (weighted_interval * uncertainty_factor)%Q in
  let date_range_start := expected_date - timedelta_days uncertainty_days in
  let date_range_end := expected_date + timedelta_days uncertainty_days in
  let current_date := now in
  if date_range_start <=? current_date then
    let shift_days := days_between current_date date_range_start + 1 in
    let shift := shift_days * us_per_day in
    (expected_date + shift, (date_range_start + shift, date_range_end + shift))
  else (expected_date, (date_range_start, date_range_end)).

(** Lines 541-603: the five additive factors. *)
Definition confidence_factors_of (analysis : PatternAnalysis)
    (time_since_last : Z) : list (string * Q) :=
  let avg_interval := avg_interval_days analysis in
  let std_interval := std_interval_days analysis in
  let peak_months := peak_months analysis in
  let data_score := py_min 25 (qn (total_earthquakes analysis) / 50 * 25) in
  let regularity_score :=
    if Qltb 0 std_interval then
      let coefficient_of_variation := (std_interval / avg_interval)%Q in
      if Qltb coefficient_of_variation 0.2 then 25
      else if Qltb coefficient_of_variation 0.4 then 20
      else if Qltb coefficient_of_variation 0.6 then 15
      else 10
    else 15 in
  let recency_score :=
    if time_since_last <? 365 then 20
    else if time_since_last <? 1825 then 15
    else if time_since_last <? 3650 then 10
    else 5 in
  let seasonal_score :=
    if (0 <? length peak_months)%nat
       && (6 <? length (monthly_distribution analysis))%nat
    then
      let monthly_values := map snd (monthly_distribution analysis) in
      let max_monthly := qz (foldr Z.max 0 monthly_values) in
      let avg_monthly := (qz (sumZ monthly_values) / lenQ monthly_values)%Q in
      if Qltb (avg_monthly * 1.5) max_monthly then 15
      else if Qltb (avg_monthly * 1.2) max_monthly then 10
      else 5
    else 5 in
  let total_events := (shallow_count analysis + deep_count analysis)%nat in
  let geo_score :=
    if (0 <? total_events)%nat then
      let depth_consistency :=
        (qn (Nat.max (shallow_count analysis) (deep_count analysis)) / qn total_events)%Q in
      if Qltb 0.8 depth_consistency then 15
      else if Qltb 0.6 depth_consistency then 12
      else 8
    else 8 in
  [ ("data_volume", data_score); ("pattern_regularity", qz regularity_score);
    ("data_recency", qz recency_score); ("seasonal_pattern", qz seasonal_score);
    ("geographic_consistency", qz geo_score) ].

(** Lines 609-631: the three penalties. *)
Definition penalties_of (analysis : PatternAnalysis)
    (time_since_last : Z) : list (string * Q) :=
  let avg_interval := avg_interval_days analysis in
  let std_interval := std_interval_days analysis in
  let sparse_data :=
    if (total_earthquakes analysis <? 10)%nat then (-15)
    else if (total_earthquakes analysis <? 20)%nat then (-10)
    else 0 in
  let high_variability :=
    if Qltb 0 std_interval && Qltb 1.0 (std_interval / avg_interval) then (-10) else 0 in
  let outdated_data :=
    if 7300 <? time_since_last then (-15)
    else if 3650 <? time_since_last then (-8)
    else 0 in
  [ ("sparse_data", qz sparse_data); ("high_variability", qz high_variability);
    ("outdated_data", qz outdated_data) ].

(** Lines 633-638: the clamped confidence, before the final [round]. *)
Definition clamped_confidence (factors penalties : list (string * Q)) : Q :=
  let base_confidence := sumQ (map snd factors) in
  let confidence := (base_confidence + sumQ (map snd penalties))%Q in
  py_max 35 (py_min 85 confidence).

(** Lines 641-672: the magnitude after clamping, before [round(_, 1)]. *)
Definition clamped_magnitude (analysis : PatternAnalysis) (z : Q) : Q :=
  let base_magnitude := avg_magnitude analysis in
  let magnitude_std := magnitude_std analysis in
  let recent_trend := magnitude_trend analysis in
  let trend_weight :=
    if Qltb (recent_frequency analysis) (recent_frequency_5yr analysis)
    then 0.3%Q else 0.2%Q in
  let trend_adjusted_magnitude :=
    if Qltb 0.15 (Qabs (recent_trend - base_magnitude))
    then (base_magnitude * (1 - trend_weight) + recent_trend * trend_weight)%Q
    else base_magnitude in
  let variation_factor :=
    if Qltb magnitude_std 0.3 then 0.2%Q
    else if Qltb magnitude_std 0.6 then 0.35%Q
    else 0.5%Q in
  let predicted_magnitude :=
    (trend_adjusted_magnitude + random_normal z 0 variation_factor)%Q in
  let min_magnitude := py_max 4.0 (min_magnitude analysis) in
  let max_magnitude := py_min (max_magnitude analysis + 0.5) 9.5 in
  py_max min_magnitude (py_min predicted_magnitude max_magnitude).

Definition predict_next_earthquake (country : string)
    (analysis : option PatternAnalysis) (now : Z) (rng : Rng) : outcome Forecast :=
  match analysis with
  | None => ReturnedNone
  | Some analysis =>
  match last_major_earthquake analysis with
  | None => ReturnedNone
  | Some last_earthquake =>
      let weighted_interval := weighted_interval_of analysis in
      let expected_date := project_forward last_earthquake weighted_interval now in
      let peak_months := peak_months analysis in
      expected_date ← snap_to_peak expected_date peak_months weighted_interval now;
      let '(expected_date, (date_range_start, date_range_end)) :=
        uncertainty_window expected_date analysis weighted_interval now in
      let time_since_last := days_between now last_earthquake in
      let confidence_factors := confidence_factors_of analysis time_since_last in
      let penalties := penalties_of analysis time_since_last in
      let confidence := clamped_confidence confidence_factors penalties in
      let predicted_magnitude := py_round (clamped_magnitude analysis (normal_z rng)) 1 in
      match lookup_country country COUNTRY_COORDS with
      | None => Raised KeyError
      | Some coords =>
          let estimated_lat :=
            random_uniform (uniform_lat rng) (fst (lat_range coords)) (snd (lat_range coords)) in
          let estimated_lon :=
            random_uniform (uniform_lon rng) (fst (lon_range coords)) (snd (lon_range coords)) in
          let estimated_depth :=
            if (deep_count analysis <? shallow_count analysis)%nat
            then random_uniform (uniform_depth rng) 5 70
            else random_uniform (uniform_depth rng) 70 200 in
          let estimated_depth := py_round estimated_depth 1 in
          let cm := consistency_metrics analysis in
          Returned
            {| predicted_date := expected_date;
               date_range := (date_range_start, date_range_end);
               predicted_magnitude := predicted_magnitude;
               estimated_coordinates := (py_round estimated_lat 2, py_round estimated_lon 2);
               estimated_depth := estimated_depth;
               confidence_percentage := round_half_even confidence;
               confidence_breakdown := confidence_factors;
               confidence_penalties := penalties;
               peak_risk_months := peak_months;
               fc_peak_season := peak_season analysis;
               days_since_last := days_between now last_earthquake;
               expected_interval_years := py_round (weighted_interval / 365.25) 1;
               pattern_strength :=
                 if Qltb 0.7 (temporal_consistency cm) then "Strong"
                 else if Qltb 0.4 (temporal_consistency cm) then "Moderate"
                 else "Weak";
               risk_level := _calculate_risk_level predicted_magnitude;
               certainty_factors :=
                 {| data_points := total_earthquakes analysis;
                    cf_major_earthquakes := major_earthquakes analysis;
                    cf_data_quality_score := data_quality_score analysis;
                    pattern_consistency := py_round (temporal_consistency cm) 2;
                    cf_magnitude_consistency := py_round (magnitude_consistency cm) 2;
                    cf_depth_consistency := py_round (depth_consistency cm) 2;
                    cf_seasonal_consistency := py_round (seasonal_consistency cm) 2;
                    recent_activity := recent_frequency analysis;
                    recent_activity_5yr := recent_frequency_5yr analysis |} |}
      end
  end
  end.

(** ** Sample catalogs *)

Definition sample_row (t : Z) (lat lon dep mag : Q) : Event :=
  set_year_month
    {| time := t; latitude := lat; longitude := lon; depth := dep;
       magnitude := mag; place := "sample";
       zone := _determine_earthquake_zone lat lon; year := 0; month := 0 |}.

Definition india_row (t : Z) (mag : Q) : Event := sample_row t 20 80 10 mag.

(** Twelve events thirteen months apart, one in every calendar month. *)
Definition catalog_monthly : list Event :=
  map (fun k => india_row (datetime (2010 + k) (1 + k) 15 0 0 0) (4.53 + qz k * 0.2))
      (seqZ 0 12).

(** Twelve events of magnitude 5.0 at a constant 365-day spacing, all in
    June. *)
Definition catalog_june : list Event :=
  map (fun k => india_row (datetime 2010 6 15 0 0 0 + k * 365 * us_per_day) 5.0)
      (seqZ 0 12).

(** Nine events a month apart followed by three events eight years apart. *)
Definition catalog_irregular : list Event :=
  map (fun t => india_row t 5.0)
    [ datetime 2000 1 1 0 0 0; datetime 2000 2 1 0 0 0; datetime 2000 3 3 0 0 0;
      datetime 2000 4 3 0 0 0; datetime 2000 5 3 0 0 0; datetime 2000 6 3 0 0 0;
      datetime 2000 7 3 0 0 0; datetime 2000 8 3 0 0 0; datetime 2000 9 3 0 0 0;
      datetime 2008 10 15 0 0 0; datetime 2016 11 15 0 0 0;
      datetime 2024 12 15 0 0 0 ].

(** Ten events a week apart. *)
Definition catalog_weekly : list Event :=
  map (fun k => india_row (datetime 2020 1 1 0 0 0 + k * 7 * us_per_day) 5.0)
      (seqZ 0 10).

Definition sample_now : Z := datetime 2022 3 1 12 0 0.

Definition sample_rng (z : Q) : Rng :=
  {| normal_z := z; uniform_lat := 0.5; uniform_lon := 0.5; uniform_depth := 0.5 |}.

(** ** The specification's statements

    Where the specification words a rule differently from the code, the
    rule is written down here in the specification's words, next to the
    amended wording that the code satisfies. *)

(** The two ends of the magnitude clamp (lines 669-670). *)
Definition magnitude_floor (a : PatternAnalysis) : Q :=
  py_max 4.0%Q (min_magnitude a).
Definition magnitude_ceiling (a : PatternAnalysis) : Q :=
  py_min (max_magnitude a + 0.5)%Q 9.5%Q.

(** The returned magnitude lies within the clamp interval. *)
Definition magnitude_within_clamp_as_stated : Prop :=
  forall data t0 a country now rng f,
    analyze_earthquake_patterns data t0 = Returned a ->
    predict_next_earthquake country (Some a) now rng = Returned f ->
    (magnitude_floor a <= predicted_magnitude f <= magnitude_ceiling a)%Q.

(** The interquartile filter removes more than half of the intervals. *)
Definition removes_more_than_half (time_diffs : list Z) : Prop :=
  (length time_diffs < 2 * (length time_diffs - length (iqr_filter time_diffs)))%nat.

(** Fall back to the fixed bounds exactly when more than half is removed. *)
Definition filter_time_diffs_as_stated (time_diffs : list Z) : list Z :=
  if decide (removes_more_than_half time_diffs)
  then fixed_filter time_diffs
  else iqr_filter time_diffs.

(** Amended: fall back exactly when more than half is removed or fewer
    than three intervals are left. *)
Definition filter_time_diffs_amended (time_diffs : list Z) : list Z :=
  if decide (removes_more_than_half time_diffs
             \/ (length (iqr_filter time_diffs) < 3)%nat)
  then fixed_filter time_diffs
  else iqr_filter time_diffs.

(** The summarizer's [recent_earthquakes]: the rows of the trailing 365
    days. *)
Definition trailing_window (country_data : list Event) (now : Z) : list Event :=
  filter (fun e => now - 365 * us_per_day <= time e) country_data.

(** Whenever the window holds no significant event and the history holds
    one, the summary reports the latest significant event of the history
    and its age. *)
Definition summary_reports_history_as_stated : Prop :=
  forall data country now e,
    let country_data := filter_country_data data country in
    country_data <> [] ->
    filter is_significant (trailing_window country_data now) = [] ->
    iloc_last (filter is_significant country_data) = Some e ->
    exists s,
      get_recent_earthquake_summary data country now = Some s
      /\ latest_significant s = Some e
      /\ days_since_significant s = Some (days_between now (time e)).

(** The empty-state summary of a region without recent rows. *)
Definition empty_summary : Summary :=
  {| total_recent := 0; significant_recent := 0;
     latest_earthquake := None; latest_significant := None;
     days_since_latest := None; days_since_significant := None |}.

(** A region with a single significant event, two years old. *)
Definition catalog_stale : list Event :=
  [ india_row (datetime 2020 1 1 0 0 0) 5.0 ].

(** A region with an old significant event and a recent minor one. *)
Definition catalog_quiet : list Event :=
  [ india_row (datetime 2020 1 1 0 0 0) 5.0;
    india_row (datetime 2022 2 1 0 0 0) 3.5 ].




(** Two feed events, and a catalog file that lists them latest first. *)
Definition feature_early : Feature :=
  {| f_time_ms := datetime 2021 1 1 0 0 0 / 1000; f_lon := 80; f_lat := 20;
     f_depth := Some 10%Q; f_mag := 5.0; f_place := Some "early"%string |}.
Definition feature_late : Feature :=
  {| f_time_ms := datetime 2021 6 1 0 0 0 / 1000; f_lon := 80; f_lat := 20;
     f_depth := None; f_mag := 4.2; f_place := Some "late"%string |}.
Definition rows_latest_first : list Event :=
  [ record_of_feature feature_late; record_of_feature feature_early ].

(** Every consistency metric of a returned analysis lies within [0, 1],
    and the temporal and magnitude metrics are 0.8 when the corresponding
    standard deviation is zero. *)
Definition consistency_in_unit_interval_as_stated : Prop :=
  forall data now a,
    analyze_earthquake_patterns data now = Returned a ->
    let cm := consistency_metrics a in
    (0 <= temporal_consistency cm <= 1)%Q
    /\ (0 <= magnitude_consistency cm <= 1)%Q
    /\ (0 <= depth_consistency cm <= 1)%Q
    /\ (0 <= seasonal_consistency cm <= 1)%Q
    /\ ((std_interval_days a == 0)%Q -> (temporal_consistency cm == 0.8)%Q)
    /\ ((magnitude_std a == 0)%Q -> (magnitude_consistency cm == 0.8)%Q).

(** Two runs on the same events, in any order, return identical
    analyses. *)
Definition analyzer_pure_as_stated : Prop :=
  forall data data' now now',
    data ≡ₚ data' ->
    analyze_earthquake_patterns data now
    = analyze_earthquake_patterns data' now'.

Definition sample_later : Z := datetime 2060 3 1 12 0 0.

(** The three minimum-sample gates of the analyzer. *)
Definition passes_gates (country_data : list Event) : Prop :=
  (10 <= length country_data)%nat
  /\ (5 <= length (filter is_significant country_data))%nat
  /\ (3 <= length (surviving_intervals country_data))%nat.

(** The position of a risk level on the scale Low .. Extreme. *)
Definition risk_rank (r : RiskLevel) : nat :=
  if decide (level r = "Low"%string) then 0
  else if decide (level r = "Moderate"%string) then 1
  else if decide (level r = "High"%string) then 2
  else if decide (level r = "Very High"%string) then 3
  else 4.

(** The derived columns of a row agree with its time. *)
Definition derived_columns (e : Event) : Prop :=
  year e = dt_year (time e) /\ month e = dt_month (time e).

(** Two significant events at the same instant. *)
Definition catalog_tied : list Event :=
  [ india_row (datetime 2020 1 1 0 0 0) 5.0;
    india_row (datetime 2020 1 1 0 0 0) 6.0 ].

(** Twelve events of magnitude 5.0, thirteen months apart. *)
Definition catalog_steady : list Event :=
  map (fun k => india_row (datetime (2010 + k) (1 + k) 15 0 0 0) 5.0)
      (seqZ 0 12).

(** * Properties *)

Example round_ties : round_half_even (5 # 2) = 2 /\ round_half_even (7 # 2) = 4
                     /\ round_half_even (-(1 # 2)) = 0.
Proof. vm_compute. auto. Qed.

Example py_round_453 : (py_round 4.53 1 == 4.5)%Q.
Proof. reflexivity. Qed.

Example np_sqrt_2 : (np_sqrt 2 == 1.414213562373)%Q.
Proof. reflexivity. Qed.

Example quantile_example :
  let d := [10; 100; 100; 3000] in
  (pd_quantile 0.25 d == 77.5)%Q /\ (pd_quantile 0.75 d == 825)%Q
  /\ (pd_median d == 100)%Q /\ (pd_median [3; 1; 2]%Z == 2)%Q.
Proof. repeat split; reflexivity. Qed.

Example calendar_examples :
  days_from_civil 1970 1 1 = 0
  /\ civil_from_days 19737 = (2024, 1, 15)
  /\ civil_from_days (-1) = (1969, 12, 31)
  /\ dt_month (datetime 2024 2 29 23 59 59) = 2
  /\ civil_from_days (days_from_civil 1800 3 1 - 1) = (1800, 2, 28)
  /\ replace_ym15 (datetime 2024 2 29 10 0 0) 2025 6 = Returned (datetime 2025 6 15 10 0 0).
Proof. vm_compute. repeat split; reflexivity. Qed.

(** ** Rounding *)

Section Rounding.

Local Open Scope Q_scope.

Lemma fl_eq (x : Q) : fl x == x.
Proof. apply Qred_correct. Qed.

Lemma fl_complete (x y : Q) : x == y -> fl x = fl y.
Proof. apply Qred_complete. Qed.

Lemma Qltb_true (x y : Q) : Qltb x y = true <-> x < y.
Proof. unfold Qltb. apply bool_decide_eq_true. Qed.

Lemma Qltb_false (x y : Q) : Qltb x y = false <-> y <= x.
Proof.
  unfold Qltb. rewrite bool_decide_eq_false. split.
  - apply Qnot_lt_le.
  - apply Qle_not_lt.
Qed.

Lemma Qleb_true (x y : Q) : Qleb x y = true <-> x <= y.
Proof. unfold Qleb. apply bool_decide_eq_true. Qed.

Lemma py_max_spec (a b : Q) :
  (a < b /\ py_max a b = b) \/ (b <= a /\ py_max a b = a).
Proof.
  unfold py_max. destruct (Qltb a b) eqn:E.
  - left. split; [ now apply Qltb_true | reflexivity ].
  - right. split; [ now apply Qltb_false | reflexivity ].
Qed.

Lemma py_min_spec (a b : Q) :
  (b < a /\ py_min a b = b) \/ (a <= b /\ py_min a b = a).
Proof.
  unfold py_min. destruct (Qltb b a) eqn:E.
  - left. split; [ now apply Qltb_true | reflexivity ].
  - right. split; [ now apply Qltb_false | reflexivity ].
Qed.

Lemma round_half_even_lower (n : Z) (x : Q) :
  inject_Z n <= x -> (n <= round_half_even x)%Z.
Proof.
  intros H. unfold round_half_even.
  assert (Hf : (n <= Qfloor x)%Z).
  { rewrite <- (Qfloor_Z n). now apply Qfloor_resp_le. }
  destruct (x - inject_Z (Qfloor x) ?= 1 # 2); [ destruct (Z.even _) | | ]; lia.
Qed.

Lemma round_half_even_upper (n : Z) (x : Q) :
  x <= inject_Z n -> (round_half_even x <= n)%Z.
Proof.
  intros H. unfold round_half_even.
  assert (Hf : (Qfloor x <= n)%Z).
  { rewrite <- (Qfloor_Z n). now apply Qfloor_resp_le. }
  destruct (Z.eq_dec (Qfloor x) n) as [E | E].
  - destruct (Qcompare_spec (x - inject_Z (Qfloor x)) (1 # 2)) as [Hx | Hx | Hx];
      [ | lia | ]; rewrite E in Hx; lra.
  - destruct (x - inject_Z (Qfloor x) ?= 1 # 2); [ destruct (Z.even _) | | ]; lia.
Qed.

Lemma round_half_even_near (x : Q) :
  x - (1 # 2) <= inject_Z (round_half_even x) <= x + (1 # 2).
Proof.
  unfold round_half_even.
  pose proof (Qfloor_le x) as Hlo. pose proof (Qlt_floor x) as Hhi.
  rewrite inject_Z_plus in Hhi. change (inject_Z 1) with 1 in Hhi.
  destruct (Qcompare_spec (x - inject_Z (Qfloor x)) (1 # 2)) as [E | E | E].
  - destruct (Z.even _); rewrite ?inject_Z_plus; change (inject_Z 1) with 1;
      split; lra.
  - split; lra.
  - rewrite inject_Z_plus. change (inject_Z 1) with 1. split; lra.
Qed.

Lemma timedelta_days_nonneg (x : Q) : 0 <= x -> (0 <= timedelta_days x)%Z.
Proof.
  intros H. unfold timedelta_days. apply round_half_even_lower.
  change (inject_Z 0) with 0. apply Qmult_le_0_compat; [ exact H | ].
  unfold us_per_day. discriminate.
Qed.

End Rounding.

(** ** What a returned forecast is made of *)

Lemma predict_returned country analysis now rng f :
  predict_next_earthquake country analysis now rng = Returned f ->
  exists a last e1,
    analysis = Some a
    /\ last_major_earthquake a = Some last
    /\ snap_to_peak (project_forward last (weighted_interval_of a) now)
         (peak_months a) (weighted_interval_of a) now = Returned e1
    /\ (predicted_date f, date_range f)
       = uncertainty_window e1 a (weighted_interval_of a) now
    /\ confidence_percentage f
       = round_half_even
           (clamped_confidence (confidence_factors_of a (days_between now last))
              (penalties_of a (days_between now last)))
    /\ predicted_magnitude f = py_round (clamped_magnitude a (normal_z rng)) 1.
Proof.
  unfold predict_next_earthquake. intros H.
  destruct analysis as [a | ]; [ | discriminate ].
  destruct (last_major_earthquake a) as [last | ] eqn:Hlast; [ | discriminate ].
  unfold mbind, outcome_bind in H.
  destruct (snap_to_peak _ _ _ _) as [e1 | | ] eqn:Hsnap;
    [ | discriminate | discriminate ].
  destruct (uncertainty_window e1 a (weighted_interval_of a) now)
    as [e [s en]] eqn:Hwin.
  destruct (lookup_country country COUNTRY_COORDS); [ | discriminate ].
  injection H as <-. exists a, last, e1. simpl. auto 10.
Qed.

(** ** The confidence percentage (C4) *)

Lemma clamped_confidence_bounds factors penalties :
  (35 <= clamped_confidence factors penalties <= 85)%Q.
Proof.
  unfold clamped_confidence.
  set (c := (sumQ (map snd factors) + sumQ (map snd penalties))%Q).
  destruct (py_min_spec 85 c) as [[H1 ->] | [H1 ->]];
    [ destruct (py_max_spec 35 c) as [[H2 ->] | [H2 ->]]
    | destruct (py_max_spec 35 85) as [[H2 ->] | [H2 ->]] ]; lra.
Qed.

(** C4.  Whatever the analysis, the generation time and the random draws,
    the confidence percentage of a returned forecast, after the final
    [round], lies between 35 and 85 inclusive. *)
Theorem confidence_percentage_bounds country analysis now rng f :
  predict_next_earthquake country analysis now rng = Returned f ->
  35 <= confidence_percentage f <= 85.
Proof.
  intros H. apply predict_returned in H as (a & last & e1 & _ & _ & _ & _ & Hc & _).
  rewrite Hc.
  pose proof (clamped_confidence_bounds
                (confidence_factors_of a (days_between now last))
                (penalties_of a (days_between now last))) as [Hlo Hhi].
  split.
  - apply round_half_even_lower. exact Hlo.
  - apply round_half_even_upper. exact Hhi.
Qed.

(** ** The dates of a forecast (C1) *)

Lemma uncertainty_days_nonneg (a : PatternAnalysis) (wi : Q) :
  (0 <= avg_interval_days a)%Q -> (0 <= wi)%Q ->
  (0 <= wi * (if Qltb 0 (std_interval_days a)
              then py_min 0.3 (std_interval_days a / avg_interval_days a)
              else 0.2))%Q.
Proof.
  intros Havg Hwi. apply Qmult_le_0_compat; [ exact Hwi | ].
  destruct (Qltb 0 (std_interval_days a)) eqn:E; [ | discriminate ].
  apply Qltb_true in E.
  assert (Hq : (0 <= std_interval_days a / avg_interval_days a)%Q).
  { unfold Qdiv. apply Qmult_le_0_compat; [ lra | ].
    now apply Qinv_le_0_compat. }
  destruct (py_min_spec 0.3 (std_interval_days a / avg_interval_days a))
    as [[_ ->] | [_ ->]]; [ exact Hq | discriminate ].
Qed.

Lemma shift_past (now s : Z) :
  now < s + (days_between now s + 1) * us_per_day.
Proof.
  unfold days_between, us_per_day.
  pose proof (Z.mod_pos_bound (now - s) 86400000000 eq_refl) as Hm.
  pose proof (Z.div_mod (now - s) 86400000000) as Hd.
  lia.
Qed.

Lemma uncertainty_window_future e a wi now p s en :
  (0 <= avg_interval_days a)%Q -> (0 <= wi)%Q ->
  uncertainty_window e a wi now = (p, (s, en)) ->
  now < p /\ now < s /\ now < en.
Proof.
  intros Havg Hwi. unfold uncertainty_window.
  pose proof (timedelta_days_nonneg _ (uncertainty_days_nonneg a wi Havg Hwi)) as Htd.
  set (td := timedelta_days _) in *.
  destruct (e - td <=? now) eqn:E; intros [= <- <- <-].
  - pose proof (shift_past now (e - td)). lia.
  - apply Z.leb_gt in E. lia.
Qed.

(** ** What a returned analysis is made of *)

Ltac analyze_inv H :=
  unfold analyze_earthquake_patterns in H;
  destruct (length _ <? 10)%nat eqn:Hgate1 in H; [ discriminate H | ];
  destruct (length (filter is_significant _) <? 5)%nat eqn:Hgate2 in H;
    [ discriminate H | ];
  destruct (length (filter_time_diffs _) <? 3)%nat eqn:Hgate3 in H;
    [ discriminate H | ];
  unfold mbind, outcome_bind in H;
  destruct (getitem_labels _ [12; 1; 2]) as [w | | ] eqn:Hw in H;
    [ | discriminate H | discriminate H ];
  destruct (getitem_labels _ [3; 4; 5]) as [sp | | ] eqn:Hsp in H;
    [ | discriminate H | discriminate H ];
  destruct (getitem_labels _ [6; 7; 8]) as [su | | ] eqn:Hsu in H;
    [ | discriminate H | discriminate H ];
  destruct (getitem_labels _ [9; 10; 11]) as [au | | ] eqn:Hau in H;
    [ | discriminate H | discriminate H ];
  injection H as H; subst; cbn [
    total_earthquakes major_earthquakes avg_interval_days median_interval_days
    std_interval_days avg_interval_years peak_months peak_season
    seasonal_confidence monthly_distribution seasonal_distribution
    avg_magnitude max_magnitude min_magnitude magnitude_std magnitude_trend
    avg_depth depth_std shallow_count deep_count recent_frequency
    recent_frequency_5yr last_major_earthquake time_intervals
    consistency_metrics data_quality_score temporal_consistency
    magnitude_consistency depth_consistency seasonal_consistency ].

Lemma analyze_returned_gates data now a :
  analyze_earthquake_patterns data now = Returned a ->
  (10 <= length data)%nat
  /\ (5 <= length (filter is_significant data))%nat
  /\ (3 <= length (surviving_intervals data))%nat.
Proof.
  intros H. analyze_inv H.
  apply Nat.ltb_ge in Hgate1, Hgate2, Hgate3. auto.
Qed.

Lemma analyze_returned_intervals data now a :
  analyze_earthquake_patterns data now = Returned a ->
  avg_interval_days a = pd_mean (map qz (surviving_intervals data))
  /\ median_interval_days a = pd_median (surviving_intervals data)
  /\ std_interval_days a = pd_std (map qz (surviving_intervals data))
  /\ time_intervals a = surviving_intervals data.
Proof. intros H. analyze_inv H. auto. Qed.

Lemma analyze_returned_magnitudes data now a :
  analyze_earthquake_patterns data now = Returned a ->
  let mags := map magnitude (significant_events data) in
  avg_magnitude a = pd_mean mags /\ max_magnitude a = pd_max mags
  /\ min_magnitude a = pd_min mags /\ magnitude_std a = pd_std mags.
Proof. intros H. analyze_inv H. auto. Qed.

(** ** Surviving intervals are at least thirty days *)

Lemma filter_within_lower lo hi (l : list Z) :
  (30 <= lo)%Q -> Forall (fun d => 30 <= d) (filter (within lo hi) l).
Proof.
  intros Hlo. apply Forall_forall. intros d Hd.
  apply list_elem_of_filter in Hd as [[Hd _] _].
  apply (Qle_trans _ _ _ Hlo) in Hd.
  change 30%Q with (inject_Z 30) in Hd. now rewrite <- Zle_Qle in Hd.
Qed.

Lemma iqr_lower_ge30 (l : list Z) : (30 <= iqr_lower l)%Q.
Proof.
  unfold iqr_lower.
  destruct (py_max_spec 30
              (pd_quantile 0.25 l - 1.5 * (pd_quantile 0.75 l - pd_quantile 0.25 l)))
    as [[H ->] | [H ->]]; lra.
Qed.

Lemma filter_time_diffs_ge30 (l : list Z) :
  Forall (fun d => 30 <= d) (filter_time_diffs l).
Proof.
  unfold filter_time_diffs, iqr_filter, fixed_filter.
  destruct (3 <? length l)%nat; [ destruct (Qltb _ _) | ];
    apply filter_within_lower; auto using iqr_lower_ge30; lra.
Qed.

Lemma sumQ_nonneg (l : list Q) : Forall (fun x => 0 <= x)%Q l -> (0 <= sumQ l)%Q.
Proof.
  induction 1 as [ | x l Hx _ IH]; simpl; [ lra | ].
  change (0 <= x + sumQ l)%Q. lra.
Qed.

Lemma lenQ_nonneg {A} (l : list A) : (0 <= lenQ l)%Q.
Proof.
  unfold lenQ. change 0%Q with (inject_Z 0). rewrite <- Zle_Qle. lia.
Qed.

Lemma Qdiv_nonneg (x y : Q) : (0 <= x)%Q -> (0 <= y)%Q -> (0 <= x / y)%Q.
Proof.
  intros Hx Hy. unfold Qdiv. apply Qmult_le_0_compat; [ exact Hx | ].
  now apply Qinv_le_0_compat.
Qed.

Lemma pd_mean_nonneg (l : list Q) :
  Forall (fun x => 0 <= x)%Q l -> (0 <= pd_mean l)%Q.
Proof.
  intros H. unfold pd_mean. rewrite fl_eq.
  apply Qdiv_nonneg; [ now apply sumQ_nonneg | apply lenQ_nonneg ].
Qed.

Lemma Forall_qz_nonneg (l : list Z) :
  Forall (fun d => 30 <= d) l -> Forall (fun x => 0 <= x)%Q (map qz l).
Proof.
  intros H. apply List.Forall_map. eapply Forall_impl; [ exact H | ].
  intros d Hd. simpl in *. unfold qz. change 0%Q with (inject_Z 0).
  rewrite <- Zle_Qle. lia.
Qed.

Lemma nth_nonneg (l : list Z) (i : nat) :
  Forall (fun d => 0 <= d) l -> 0 <= nth i l 0.
Proof.
  intros H. revert i. induction H as [ | x l Hx _ IH]; intros [ | i]; simpl;
    auto; lia.
Qed.

Lemma pd_median_nonneg (l : list Z) :
  Forall (fun d => 30 <= d) l -> (0 <= pd_median l)%Q.
Proof.
  intros H. unfold pd_median.
  assert (Hs : Forall (fun d => 0 <= d) (merge_sort Z.le l)).
  { rewrite merge_sort_Permutation. eapply Forall_impl; [ exact H | ].
    simpl. intros. lia. }
  assert (Hn : forall i, (0 <= inject_Z (nth i (merge_sort Z.le l) 0%Z))%Q).
  { intros i. change 0%Q with (inject_Z 0). rewrite <- Zle_Qle.
    now apply nth_nonneg. }
  destruct (Nat.even (length l)); rewrite fl_eq.
  - pose proof (Hn (length l / 2 - 1)%nat). pose proof (Hn (length l / 2)%nat).
    apply Qdiv_nonneg; lra.
  - apply Hn.
Qed.

Lemma analyze_returned_nonneg data now a :
  analyze_earthquake_patterns data now = Returned a ->
  (0 <= avg_interval_days a)%Q /\ (0 <= median_interval_days a)%Q
  /\ (0 <= recent_frequency a)%Q.
Proof.
  intros H. pose proof H as H'.
  apply analyze_returned_intervals in H' as (-> & -> & _ & _).
  pose proof (filter_time_diffs_ge30
                (diff_days (map time (significant_events data)))) as Hge.
  fold (surviving_intervals data) in Hge.
  repeat split.
  - apply pd_mean_nonneg. now apply Forall_qz_nonneg.
  - now apply pd_median_nonneg.
  - analyze_inv H. destruct (0 <? length _)%nat; [ | lra ].
    rewrite fl_eq. apply Qdiv_nonneg; [ | lra ].
    unfold qn. change 0%Q with (inject_Z 0). rewrite <- Zle_Qle. lia.
Qed.

Lemma weighted_interval_nonneg (a : PatternAnalysis) :
  (0 <= median_interval_days a)%Q -> (0 <= recent_frequency a)%Q ->
  (0 <= weighted_interval_of a)%Q.
Proof.
  intros Hm Hf. unfold weighted_interval_of.
  destruct (Qltb 0 (recent_frequency a)); [ | exact Hm ].
  rewrite fl_eq.
  pose proof (Qdiv_nonneg 365.25 (recent_frequency a) ltac:(lra) Hf).
  pose proof (Qmult_le_0_compat _ 0.6 Hm ltac:(lra)).
  pose proof (Qmult_le_0_compat _ 0.4 H ltac:(lra)).
  lra.
Qed.

(** C1.  For every analysis the analyzer returns and every forecast made
    from it, at any generation time [now] and for any random draws, the
    predicted date and both ends of the date range are strictly after
    [now]. *)
Theorem forecast_dates_in_future data t0 a country now rng f :
  analyze_earthquake_patterns data t0 = Returned a ->
  predict_next_earthquake country (Some a) now rng = Returned f ->
  now < predicted_date f
  /\ now < fst (date_range f)
  /\ now < snd (date_range f).
Proof.
  intros Ha Hf.
  apply analyze_returned_nonneg in Ha as (Havg & Hmed & Hfreq).
  apply predict_returned in Hf as (a' & last & e1 & [= <-] & _ & _ & Hwin & _).
  destruct (date_range f) as [s en]. simpl.
  symmetry in Hwin.
  apply (uncertainty_window_future e1 a (weighted_interval_of a) now
           (predicted_date f) s en Havg);
    [ now apply weighted_interval_nonneg | exact Hwin ].
Qed.

Lemma forecast_dates_in_future_witness :
  match analyze_earthquake_patterns catalog_monthly sample_now with
  | Returned a =>
      match predict_next_earthquake "India" (Some a) sample_now (sample_rng 0) with
      | Returned f =>
          sample_now < predicted_date f
          /\ sample_now < fst (date_range f)
          /\ sample_now < snd (date_range f)
      | _ => False
      end
  | _ => False
  end.
Proof.
  destruct (analyze_earthquake_patterns catalog_monthly sample_now)
    as [a | | e] eqn:Ea; [ | vm_compute in Ea; discriminate Ea
                           | vm_compute in Ea; discriminate Ea ].
  destruct (predict_next_earthquake "India" (Some a) sample_now (sample_rng 0))
    as [f | | e] eqn:Ef.
  - exact (forecast_dates_in_future catalog_monthly sample_now a "India"
             sample_now (sample_rng 0) f Ea Ef).
  - vm_compute in Ea. injection Ea as <-. vm_compute in Ef. discriminate Ef.
  - vm_compute in Ea. injection Ea as <-. vm_compute in Ef. discriminate Ef.
Defined.

Lemma confidence_percentage_bounds_witness :
  match analyze_earthquake_patterns catalog_monthly sample_now with
  | Returned a =>
      match predict_next_earthquake "India" (Some a) sample_now (sample_rng 0) with
      | Returned f => 35 <= confidence_percentage f <= 85
      | _ => False
      end
  | _ => False
  end.
Proof.
  destruct (analyze_earthquake_patterns catalog_monthly sample_now)
    as [a | | e] eqn:Ea; [ | vm_compute in Ea; discriminate Ea
                           | vm_compute in Ea; discriminate Ea ].
  destruct (predict_next_earthquake "India" (Some a) sample_now (sample_rng 0))
    as [f | | e] eqn:Ef.
  - exact (confidence_percentage_bounds "India" (Some a) sample_now
             (sample_rng 0) f Ef).
  - vm_compute in Ea. injection Ea as <-. vm_compute in Ef. discriminate Ef.
  - vm_compute in Ea. injection Ea as <-. vm_compute in Ef. discriminate Ef.
Defined.

(** ** The minimum-sample gates (C2) *)

(** C2.  A region event set with fewer than 10 events, or with fewer than 5
    events of magnitude at least 4.0, or of which fewer than 3 inter-event
    intervals survive the outlier filter, makes the analyzer return [None];
    it returns no analysis and raises nothing. *)
Theorem insufficient_data_returns_none country_data now :
  (length country_data < 10
   \/ length (filter is_significant country_data) < 5
   \/ length (surviving_intervals country_data) < 3)%nat ->
  analyze_earthquake_patterns country_data now = ReturnedNone.
Proof.
  intros H. unfold analyze_earthquake_patterns.
  destruct (length country_data <? 10)%nat eqn:G1; [ reflexivity | ].
  destruct (length (filter is_significant country_data) <? 5)%nat eqn:G2;
    [ reflexivity | ].
  fold (significant_events country_data).
  fold (surviving_intervals country_data).
  destruct (length (surviving_intervals country_data) <? 3)%nat eqn:G3;
    [ reflexivity | ].
  apply Nat.ltb_ge in G1, G2, G3. lia.
Qed.

Lemma insufficient_data_returns_none_witness :
  (length catalog_weekly < 10
   \/ length (filter is_significant catalog_weekly) < 5
   \/ length (surviving_intervals catalog_weekly) < 3)%nat
  /\ analyze_earthquake_patterns catalog_weekly sample_now = ReturnedNone.
Proof.
  assert (H : (length catalog_weekly < 10
               \/ length (filter is_significant catalog_weekly) < 5
               \/ length (surviving_intervals catalog_weekly) < 3)%nat).
  { right. right. vm_compute. lia. }
  split; [ exact H | ].
  exact (insufficient_data_returns_none catalog_weekly sample_now H).
Defined.

(** ** Seasonal buckets of a sparse histogram (C5) *)

(** C5.  The twelve-event catalog of magnitude 5.0 at a constant 365-day
    spacing, all in June, passes the three minimum-sample gates, and the
    analyzer then raises [KeyError] on the winter bucket instead of
    returning an analysis. *)
Theorem seasonal_bucket_key_error :
  (10 <= length catalog_june)%nat
  /\ (5 <= length (filter is_significant catalog_june))%nat
  /\ (3 <= length (surviving_intervals catalog_june))%nat
  /\ map month (significant_events catalog_june) = repeat 6 12
  /\ analyze_earthquake_patterns catalog_june sample_now = Raised KeyError.
Proof. vm_compute. repeat split; lia. Qed.

(** ** Minimum and maximum of a column *)

Section MinMax.

Local Open Scope Q_scope.

Lemma foldr_omin_spec (l : list Q) :
  l <> [] ->
  exists m, foldr omin None l = Some m
            /\ Forall (fun x => m <= x) l /\ Exists (fun x => m == x) l.
Proof.
  induction l as [ | x l IH]; [ congruence | intros _ ].
  destruct l as [ | y l].
  - exists (fl x). simpl. unfold omin at 1. split; [ reflexivity | ].
    pose proof (fl_eq x) as Hfx.
    split; [ repeat constructor; lra | apply Exists_cons_hd; exact Hfx ].
  - destruct IH as (m & Hm & Hall & Hex); [ congruence | ].
    change (foldr omin None (x :: y :: l))
      with (omin x (foldr omin None (y :: l))).
    rewrite Hm. unfold omin. eexists. split; [ reflexivity | ].
    destruct (py_min_spec x m) as [[Hlt ->] | [Hle ->]].
    + pose proof (fl_eq m) as Hfm. split.
      * constructor; [ lra | ]. eapply Forall_impl; [ exact Hall | ].
        simpl. intros z Hz. lra.
      * apply Exists_cons_tl. eapply Exists_impl; [ exact Hex | ].
        simpl. intros z Hz. lra.
    + pose proof (fl_eq x) as Hfx. split.
      * constructor; [ lra | ]. eapply Forall_impl; [ exact Hall | ].
        simpl. intros z Hz. lra.
      * apply Exists_cons_hd. exact Hfx.
Qed.

Lemma foldr_omax_spec (l : list Q) :
  l <> [] ->
  exists m, foldr omax None l = Some m
            /\ Forall (fun x => x <= m) l /\ Exists (fun x => m == x) l.
Proof.
  induction l as [ | x l IH]; [ congruence | intros _ ].
  destruct l as [ | y l].
  - exists (fl x). simpl. unfold omax at 1. split; [ reflexivity | ].
    pose proof (fl_eq x) as Hfx.
    split; [ repeat constructor; lra | apply Exists_cons_hd; exact Hfx ].
  - destruct IH as (m & Hm & Hall & Hex); [ congruence | ].
    change (foldr omax None (x :: y :: l))
      with (omax x (foldr omax None (y :: l))).
    rewrite Hm. unfold omax. eexists. split; [ reflexivity | ].
    destruct (py_max_spec x m) as [[Hlt ->] | [Hle ->]].
    + pose proof (fl_eq m) as Hfm. split.
      * constructor; [ lra | ]. eapply Forall_impl; [ exact Hall | ].
        simpl. intros z Hz. lra.
      * apply Exists_cons_tl. eapply Exists_impl; [ exact Hex | ].
        simpl. intros z Hz. lra.
    + pose proof (fl_eq x) as Hfx. split.
      * constructor; [ lra | ]. eapply Forall_impl; [ exact Hall | ].
        simpl. intros z Hz. lra.
      * apply Exists_cons_hd. exact Hfx.
Qed.

Lemma pd_min_lower (c : Q) (l : list Q) :
  l <> [] -> Forall (fun x => c <= x) l -> c <= pd_min l.
Proof.
  intros Hne Hall. destruct (foldr_omin_spec l Hne) as (m & Hm & _ & Hex).
  unfold pd_min. rewrite Hm. simpl.
  apply Exists_exists in Hex as (x & Hx & Hmx).
  rewrite Forall_forall in Hall. specialize (Hall x Hx). lra.
Qed.

Lemma pd_min_le_max (l : list Q) : l <> [] -> pd_min l <= pd_max l.
Proof.
  intros Hne.
  destruct (foldr_omin_spec l Hne) as (m & Hm & Hall & _).
  destruct (foldr_omax_spec l Hne) as (M & HM & Hall' & _).
  unfold pd_min, pd_max. rewrite Hm, HM. simpl.
  destruct l as [ | x l]; [ congruence | ].
  inversion Hall; inversion Hall'; subst. lra.
Qed.

End MinMax.

Lemma significant_events_perm data :
  significant_events data ≡ₚ filter is_significant data.
Proof. apply merge_sort_Permutation. Qed.

Lemma significant_events_length data :
  length (significant_events data) = length (filter is_significant data).
Proof. apply Permutation_length, significant_events_perm. Qed.

Lemma significant_events_magnitude data :
  Forall (fun x => 4.0 <= x)%Q (map magnitude (significant_events data)).
Proof.
  apply List.Forall_map. rewrite significant_events_perm.
  apply Forall_forall. intros e He.
  apply list_elem_of_filter in He as [He _]. exact He.
Qed.

Lemma analyze_returned_magnitude_range data now a :
  analyze_earthquake_patterns data now = Returned a ->
  (4.0 <= min_magnitude a)%Q /\ (min_magnitude a <= max_magnitude a)%Q.
Proof.
  intros H. pose proof (analyze_returned_gates _ _ _ H) as (_ & G2 & _).
  apply analyze_returned_magnitudes in H as (_ & -> & -> & _).
  assert (Hne : map magnitude (significant_events data) <> []).
  { intros E. apply (f_equal length) in E.
    rewrite length_map, significant_events_length in E. simpl in E. lia. }
  split.
  - apply pd_min_lower; [ exact Hne | apply significant_events_magnitude ].
  - now apply pd_min_le_max.
Qed.

(** ** The predicted magnitude (C3) *)

Section Magnitude.

Local Open Scope Q_scope.

Lemma py_round_1_eq (x : Q) :
  py_round x 1 == inject_Z (round_half_even (x * 10)) / 10.
Proof. unfold py_round. rewrite fl_eq. reflexivity. Qed.

Lemma py_round_1_near (x : Q) : x - 0.05 <= py_round x 1 <= x + 0.05.
Proof.
  pose proof (py_round_1_eq x) as E.
  pose proof (round_half_even_near (x * 10)) as [H1 H2].
  set (r := inject_Z (round_half_even (x * 10))) in *.
  assert (E' : py_round x 1 * 10 == r) by (rewrite E; field).
  split; lra.
Qed.

Lemma py_round_1_lower (n : Z) (x : Q) :
  inject_Z n / 10 <= x -> inject_Z n / 10 <= py_round x 1.
Proof.
  intros H. pose proof (py_round_1_eq x) as E.
  assert (Hn : inject_Z n <= x * 10).
  { assert (inject_Z n / 10 * 10 == inject_Z n) by field. lra. }
  apply round_half_even_lower in Hn. rewrite Zle_Qle in Hn.
  set (r := inject_Z (round_half_even (x * 10))) in *.
  assert (E' : py_round x 1 * 10 == r) by (rewrite E; field).
  assert (inject_Z n / 10 * 10 == inject_Z n) by field. lra.
Qed.

Lemma py_round_1_upper (n : Z) (x : Q) :
  x <= inject_Z n / 10 -> py_round x 1 <= inject_Z n / 10.
Proof.
  intros H. pose proof (py_round_1_eq x) as E.
  assert (Hn : x * 10 <= inject_Z n).
  { assert (inject_Z n / 10 * 10 == inject_Z n) by field. lra. }
  apply round_half_even_upper in Hn. rewrite Zle_Qle in Hn.
  set (r := inject_Z (round_half_even (x * 10))) in *.
  assert (E' : py_round x 1 * 10 == r) by (rewrite E; field).
  assert (inject_Z n / 10 * 10 == inject_Z n) by field. lra.
Qed.

Lemma clamped_magnitude_bounds (a : PatternAnalysis) (z : Q) :
  magnitude_floor a <= magnitude_ceiling a ->
  magnitude_floor a <= clamped_magnitude a z <= magnitude_ceiling a.
Proof.
  unfold clamped_magnitude. fold (magnitude_floor a) (magnitude_ceiling a).
  set (p := _ + random_normal z 0 _). intros H.
  destruct (py_min_spec p (magnitude_ceiling a)) as [[H1 ->] | [H1 ->]].
  - destruct (py_max_spec (magnitude_floor a) (magnitude_ceiling a))
      as [[H2 ->] | [H2 ->]]; split; lra.
  - destruct (py_max_spec (magnitude_floor a) p) as [[H2 ->] | [H2 ->]];
      split; lra.
Qed.

Lemma analyze_returned_clamp_ordered data now a :
  analyze_earthquake_patterns data now = Returned a ->
  min_magnitude a <= 9.5 ->
  magnitude_floor a <= magnitude_ceiling a.
Proof.
  intros H Hmin. apply analyze_returned_magnitude_range in H as [H4 Hle].
  unfold magnitude_floor, magnitude_ceiling.
  destruct (py_max_spec 4.0 (min_magnitude a)) as [[_ ->] | [_ ->]];
    destruct (py_min_spec (max_magnitude a + 0.5) 9.5) as [[_ ->] | [_ ->]];
    lra.
Qed.

End Magnitude.

(** C3, as stated, fails: on the monthly catalog the smallest observed
    magnitude is 4.53, a strongly negative draw is clamped to 4.53, and
    rounding to one decimal returns 4.5, below the lower end. *)
Lemma predicted_magnitude_below_floor :
  exists a f,
    analyze_earthquake_patterns catalog_monthly sample_now = Returned a
    /\ predict_next_earthquake "India" (Some a) sample_now (sample_rng (-10))
       = Returned f
    /\ (magnitude_floor a == 4.53)%Q
    /\ (clamped_magnitude a (-10) == 4.53)%Q
    /\ (predicted_magnitude f == 4.5)%Q
    /\ ~ magnitude_within_clamp_as_stated.
Proof.
  destruct (analyze_earthquake_patterns catalog_monthly sample_now)
    as [a | | e] eqn:Ea; [ | vm_compute in Ea; discriminate Ea
                           | vm_compute in Ea; discriminate Ea ].
  destruct (predict_next_earthquake "India" (Some a) sample_now (sample_rng (-10)))
    as [f | | e] eqn:Ef;
    [ | vm_compute in Ea; injection Ea as <-; vm_compute in Ef; discriminate Ef
      | vm_compute in Ea; injection Ea as <-; vm_compute in Ef; discriminate Ef ].
  exists a, f.
  assert (Hfloor : (magnitude_floor a == 4.53)%Q).
  { vm_compute in Ea. injection Ea as <-. reflexivity. }
  assert (Hpred : (predicted_magnitude f == 4.5)%Q).
  { vm_compute in Ea. injection Ea as <-. vm_compute in Ef.
    injection Ef as <-. reflexivity. }
  repeat split; auto.
  - vm_compute in Ea. injection Ea as <-. reflexivity.
  - intros Hclaim. destruct (Hclaim _ _ _ _ _ _ _ Ea Ef) as [Hlo _]. lra.
Qed.

(** C3, amended.  When no significant event of the region exceeds 9.5, the
    magnitude before rounding lies within the clamp interval, so the
    returned magnitude lies within 0.05 of it; it lies within the interval
    itself at an end that is a whole number of tenths. *)
Theorem predicted_magnitude_near_clamp data t0 a country now rng f :
  analyze_earthquake_patterns data t0 = Returned a ->
  predict_next_earthquake country (Some a) now rng = Returned f ->
  (min_magnitude a <= 9.5)%Q ->
  (magnitude_floor a - 0.05 <= predicted_magnitude f
     <= magnitude_ceiling a + 0.05)%Q
  /\ (forall n, (magnitude_floor a == inject_Z n / 10)%Q ->
      (magnitude_floor a <= predicted_magnitude f)%Q)
  /\ (forall n, (magnitude_ceiling a == inject_Z n / 10)%Q ->
      (predicted_magnitude f <= magnitude_ceiling a)%Q).
Proof.
  intros Ha Hf Hmin.
  pose proof (analyze_returned_clamp_ordered _ _ _ Ha Hmin) as Hord.
  apply predict_returned in Hf as (a' & last & e1 & [= <-] & _ & _ & _ & _ & ->).
  pose proof (clamped_magnitude_bounds a (normal_z rng) Hord) as [Hlo Hhi].
  pose proof (py_round_1_near (clamped_magnitude a (normal_z rng))) as [Hn1 Hn2].
  split; [ split; lra | split ].
  - intros n Hn. rewrite Hn in Hlo |- *. now apply py_round_1_lower.
  - intros n Hn. rewrite Hn in Hhi |- *. now apply py_round_1_upper.
Qed.

Lemma predicted_magnitude_near_clamp_witness :
  match analyze_earthquake_patterns catalog_monthly sample_now with
  | Returned a =>
      match predict_next_earthquake "India" (Some a) sample_now (sample_rng 0) with
      | Returned f =>
          (min_magnitude a <= 9.5)%Q
          /\ (magnitude_floor a - 0.05 <= predicted_magnitude f
              <= magnitude_ceiling a + 0.05)%Q
      | _ => False
      end
  | _ => False
  end.
Proof.
  destruct (analyze_earthquake_patterns catalog_monthly sample_now)
    as [a | | e] eqn:Ea; [ | vm_compute in Ea; discriminate Ea
                           | vm_compute in Ea; discriminate Ea ].
  destruct (predict_next_earthquake "India" (Some a) sample_now (sample_rng 0))
    as [f | | e] eqn:Ef.
  - assert (Hmin : (min_magnitude a <= 9.5)%Q).
    { pose proof Ea as Ea'. vm_compute in Ea'. injection Ea' as <-.
      vm_compute. discriminate. }
    split; [ exact Hmin | ].
    exact (proj1 (predicted_magnitude_near_clamp catalog_monthly sample_now a
                    "India" sample_now (sample_rng 0) f Ea Ef Hmin)).
  - vm_compute in Ea. injection Ea as <-. vm_compute in Ef. discriminate Ef.
  - vm_compute in Ea. injection Ea as <-. vm_compute in Ef. discriminate Ef.
Defined.

(** ** The outlier filter (C6) *)

Lemma lenQ_lt_3 (k : nat) : (inject_Z (Z.of_nat k) < 3)%Q <-> (k < 3)%nat.
Proof. unfold Qlt. simpl. lia. Qed.

Lemma lenQ_lt_half (k n : nat) :
  (inject_Z (Z.of_nat k) < inject_Z (Z.of_nat n) * 0.5)%Q <-> (2 * k < n)%nat.
Proof. unfold Qlt. simpl. lia. Qed.

Lemma fallback_condition (k n : nat) :
  (k <= n)%nat ->
  Qltb (inject_Z (Z.of_nat k)) (py_max 3 (inject_Z (Z.of_nat n) * 0.5)) = true
  <-> (n < 2 * (n - k) \/ k < 3)%nat.
Proof.
  intros Hkn. rewrite Qltb_true.
  destruct (py_max_spec 3 (inject_Z (Z.of_nat n) * 0.5)) as [[H ->] | [H ->]].
  - rewrite lenQ_lt_half. split; [ lia | ].
    intros [H1 | H1]; [ lia | ].
    apply lenQ_lt_half. apply lenQ_lt_3 in H1. lra.
  - rewrite lenQ_lt_3. split; [ lia | ].
    intros [H1 | H1]; [ | lia ].
    apply lenQ_lt_3. assert (H2 : (2 * k < n)%nat) by lia.
    apply lenQ_lt_half in H2. lra.
Qed.

(** C6, as stated, fails: of the four intervals 10, 100, 100, 3000 the
    interquartile filter keeps 100 and 100, removing exactly half and not
    more, and the analyzer nevertheless falls back to the fixed bounds. *)
Lemma fallback_when_exactly_half_removed :
  let time_diffs := [10; 100; 100; 3000] in
  (4 <= length time_diffs)%nat
  /\ iqr_filter time_diffs = [100; 100]
  /\ ~ removes_more_than_half time_diffs
  /\ filter_time_diffs time_diffs = fixed_filter time_diffs
  /\ filter_time_diffs time_diffs = [100; 100; 3000]
  /\ filter_time_diffs time_diffs <> filter_time_diffs_as_stated time_diffs.
Proof.
  cbv zeta. assert (E : iqr_filter [10; 100; 100; 3000] = [100; 100])
    by (vm_compute; reflexivity).
  split; [ simpl; lia | ]. split; [ exact E | ].
  split; [ unfold removes_more_than_half; rewrite E; simpl; lia | ].
  split; [ reflexivity | ]. split; [ reflexivity | ].
  vm_compute. discriminate.
Qed.

(** C6, amended.  With at least four intervals the analyzer keeps those
    within the interquartile bounds clamped to at least 30 and at most 7300
    days, and it falls back to the fixed bounds [30, 3650] exactly when
    that filter removes more than half of the intervals or leaves fewer
    than three; otherwise it keeps the filtered intervals. *)
Theorem filter_time_diffs_fallback (time_diffs : list Z) :
  (4 <= length time_diffs)%nat ->
  filter_time_diffs time_diffs = filter_time_diffs_amended time_diffs
  /\ (forall d,
        d ∈ iqr_filter time_diffs <->
        d ∈ time_diffs
        /\ let Q1 := pd_quantile 0.25 time_diffs in
           let Q3 := pd_quantile 0.75 time_diffs in
           (py_max 30 (Q1 - 1.5 * (Q3 - Q1)) <= inject_Z d)%Q
           /\ (inject_Z d <= py_min 7300 (Q3 + 1.5 * (Q3 - Q1)))%Q)
  /\ (forall d,
        d ∈ fixed_filter time_diffs <->
        d ∈ time_diffs /\ 30 <= d <= 3650).
Proof.
  intros Hn. split; [ | split ].
  - unfold filter_time_diffs, filter_time_diffs_amended, removes_more_than_half.
    assert (Hlen : (3 <? length time_diffs)%nat = true) by (apply Nat.ltb_lt; lia).
    rewrite Hlen. unfold lenQ.
    pose proof (length_filter (within (iqr_lower time_diffs) (iqr_upper time_diffs))
                  time_diffs) as Hk.
    fold (iqr_filter time_diffs) in Hk.
    pose proof (fallback_condition _ _ Hk) as Hc.
    destruct (Qltb _ _); destruct (decide _) as [Hd | Hd]; try reflexivity.
    + exfalso. apply Hd. now apply Hc.
    + apply Hc in Hd. discriminate Hd.
  - intros d. unfold iqr_filter. rewrite list_elem_of_filter.
    unfold within, iqr_lower, iqr_upper. cbv zeta. tauto.
  - intros d. unfold fixed_filter. rewrite list_elem_of_filter.
    unfold within. change 30%Q with (inject_Z 30).
    change 3650%Q with (inject_Z 3650). rewrite <- !Zle_Qle. tauto.
Qed.

Lemma filter_time_diffs_fallback_witness :
  let time_diffs := [10; 100; 100; 3000] in
  (4 <= length time_diffs)%nat
  /\ filter_time_diffs time_diffs = filter_time_diffs_amended time_diffs.
Proof.
  cbv zeta.
  assert (H : (4 <= length [10; 100; 100; 3000])%nat) by (simpl; lia).
  split; [ exact H | ].
  exact (proj1 (filter_time_diffs_fallback [10; 100; 100; 3000] H)).
Defined.

(** ** Rows in time order *)

#[global] Instance time_le_total : Total time_le.
Proof. intros a b. unfold time_le. lia. Qed.

#[global] Instance time_le_trans : Transitive time_le.
Proof. intros a b c. unfold time_le. lia. Qed.

Lemma sort_values_time_sorted (l : list Event) :
  StronglySorted time_le (sort_values_time l).
Proof. apply StronglySorted_merge_sort; apply _. Qed.

Lemma sort_values_time_perm (l : list Event) : sort_values_time l ≡ₚ l.
Proof. apply merge_sort_Permutation. Qed.

Lemma StronglySorted_filter_keep {A} (R : relation A) (P : A -> Prop)
    `{forall x, Decision (P x)} (l : list A) :
  StronglySorted R l -> StronglySorted R (filter P l).
Proof.
  induction 1 as [ | x l Hs IH Hall]; [ constructor | ].
  rewrite filter_cons. destruct (decide (P x)); [ | exact IH ].
  constructor; [ exact IH | ].
  apply Forall_forall. intros y Hy. apply list_elem_of_filter in Hy as [_ Hy].
  rewrite Forall_forall in Hall. now apply Hall.
Qed.

Lemma StronglySorted_last_greatest (l : list Event) (x : Event) :
  StronglySorted time_le l -> last l = Some x ->
  forall y, y ∈ l -> time y <= time x.
Proof.
  induction 1 as [ | z l Hs IH Hall]; [ discriminate | ].
  intros Hlast y Hy. destruct l as [ | z' l'].
  - injection Hlast as <-. apply list_elem_of_singleton in Hy as ->. lia.
  - change (last (z :: z' :: l')) with (last (z' :: l')) in Hlast.
    apply elem_of_cons in Hy as [-> | Hy].
    + rewrite Forall_forall in Hall. apply Hall.
      apply last_Some_elem_of. exact Hlast.
    + now apply IH.
Qed.

Lemma filter_country_data_sorted data country :
  StronglySorted time_le (filter_country_data data country).
Proof.
  unfold filter_country_data. destruct (lookup_country _ _); [ | constructor ].
  apply sort_values_time_sorted.
Qed.

(** ** The recent-activity summary (C7) *)

(** C7, as stated, fails: a region whose only event is a magnitude 5.0
    event two years old has no event at all in the trailing window, and
    the summary then reports no latest significant event. *)
Lemma summary_of_stale_region :
  let country_data := filter_country_data catalog_stale "India" in
  country_data = catalog_stale
  /\ trailing_window country_data sample_now = []
  /\ iloc_last (filter is_significant country_data)
     = Some (india_row (datetime 2020 1 1 0 0 0) 5.0)
  /\ get_recent_earthquake_summary catalog_stale "India" sample_now
     = Some empty_summary
  /\ ~ summary_reports_history_as_stated.
Proof.
  cbv zeta.
  assert (E1 : filter_country_data catalog_stale "India" = catalog_stale)
    by (vm_compute; reflexivity).
  assert (E2 : trailing_window (filter_country_data catalog_stale "India") sample_now = [])
    by (vm_compute; reflexivity).
  assert (E3 : iloc_last (filter is_significant (filter_country_data catalog_stale "India"))
               = Some (india_row (datetime 2020 1 1 0 0 0) 5.0))
    by (vm_compute; reflexivity).
  assert (E4 : get_recent_earthquake_summary catalog_stale "India" sample_now
               = Some empty_summary)
    by (vm_compute; reflexivity).
  split; [ exact E1 | ]. split; [ exact E2 | ]. split; [ exact E3 | ].
  split; [ exact E4 | ].
  intros Hclaim.
  destruct (Hclaim catalog_stale "India"%string sample_now _
              ltac:(rewrite E1; discriminate)
              ltac:(rewrite E2; reflexivity) E3) as (s & Hs & Hsig & _).
  rewrite E4 in Hs. injection Hs as <-. discriminate Hsig.
Qed.

(** C7, amended.  When the trailing 365 days hold at least one event of the
    region but no significant one, and the full history holds a significant
    event, the summary reports the most recent significant event of the
    history with its age in days.  When the trailing window holds no event
    at all, the summary is the empty-state record, without a latest
    significant event. *)
Theorem summary_falls_back_to_history data country now :
  let country_data := filter_country_data data country in
  (trailing_window country_data now <> [] ->
   filter is_significant (trailing_window country_data now) = [] ->
   forall e,
     iloc_last (filter is_significant country_data) = Some e ->
     exists s,
       get_recent_earthquake_summary data country now = Some s
       /\ latest_significant s = Some e
       /\ days_since_significant s = Some (days_between now (time e))
       /\ is_significant e
       /\ e ∈ country_data
       /\ forall e', e' ∈ country_data -> is_significant e' -> time e' <= time e)
  /\ (country_data <> [] ->
      trailing_window country_data now = [] ->
      get_recent_earthquake_summary data country now = Some empty_summary).
Proof.
  cbv zeta. unfold get_recent_earthquake_summary.
  fold (trailing_window (filter_country_data data country) now).
  set (cd := filter_country_data data country).
  pose proof (filter_country_data_sorted data country) as Hsorted.
  fold cd in Hsorted.
  split.
  - intros Hwin Hnosig e He.
    destruct cd as [ | c0 cd'] eqn:Ecd; [ now destruct Hwin | ].
    rewrite <- Ecd in *. rewrite Hnosig.
    destruct (iloc_last (trailing_window cd now)) as [latest | ] eqn:El.
    + eexists. split; [ reflexivity | ]. simpl. unfold iloc_last in *.
      rewrite He. simpl. repeat split; try reflexivity.
      * apply last_Some_elem_of in He.
        apply list_elem_of_filter in He as [He _]. exact He.
      * apply last_Some_elem_of in He.
        apply list_elem_of_filter in He as [_ He]. exact He.
      * intros e' He' Hsig'.
        apply (StronglySorted_last_greatest (filter is_significant cd) e).
        -- now apply StronglySorted_filter_keep.
        -- exact He.
        -- apply list_elem_of_filter. auto.
    + unfold iloc_last in El. apply last_None in El. contradiction.
  - intros Hne Hwin. destruct cd as [ | c0 cd'] eqn:Ecd; [ now destruct Hne | ].
    rewrite <- Ecd in *. rewrite Hwin. reflexivity.
Qed.

Lemma summary_falls_back_to_history_witness :
  let country_data := filter_country_data catalog_quiet "India" in
  trailing_window country_data sample_now <> []
  /\ filter is_significant (trailing_window country_data sample_now) = []
  /\ exists s,
       get_recent_earthquake_summary catalog_quiet "India" sample_now = Some s
       /\ latest_significant s = Some (india_row (datetime 2020 1 1 0 0 0) 5.0)
       /\ days_since_significant s = Some 790.
Proof.
  cbv zeta.
  assert (H1 : trailing_window (filter_country_data catalog_quiet "India") sample_now <> [])
    by (vm_compute; discriminate).
  assert (H2 : filter is_significant
                 (trailing_window (filter_country_data catalog_quiet "India") sample_now) = [])
    by (vm_compute; reflexivity).
  assert (H3 : iloc_last (filter is_significant (filter_country_data catalog_quiet "India"))
               = Some (india_row (datetime 2020 1 1 0 0 0) 5.0))
    by (vm_compute; reflexivity).
  split; [ exact H1 | ]. split; [ exact H2 | ].
  destruct (proj1 (summary_falls_back_to_history catalog_quiet "India" sample_now)
              H1 H2 _ H3) as (s & Hs & Hsig & Hage & _).
  exists s. split; [ exact Hs | ]. split; [ exact Hsig | ].
  rewrite Hage. vm_compute. reflexivity.
Defined.

(** ** Merging the live feed (C8) *)

Lemma same_row_refl (a : Event) : same_row a a.
Proof. unfold same_row. repeat split; reflexivity. Qed.

Lemma same_row_trans (a b c : Event) : same_row a b -> same_row b c -> same_row a c.
Proof.
  unfold same_row.
  intros (? & ? & ? & ? & ? & ? & ? & ? & ?) (? & ? & ? & ? & ? & ? & ? & ? & ?).
  repeat split; try congruence; etransitivity; eassumption.
Qed.

Lemma drop_duplicates_subset (l : list Event) (e : Event) :
  e ∈ drop_duplicates l -> e ∈ l.
Proof.
  revert e. induction l as [ | x l IH]; intros e; simpl; [ auto | ].
  rewrite !elem_of_cons, list_elem_of_filter. intros [-> | [_ H]]; auto.
Qed.

Lemma drop_duplicates_represents (l : list Event) (e : Event) :
  e ∈ l -> exists e', e' ∈ drop_duplicates l /\ same_row e' e.
Proof.
  induction l as [ | x l IH]; [ intros H; inversion H | ].
  rewrite elem_of_cons. intros [-> | H].
  - exists x. split; [ left | apply same_row_refl ].
  - destruct (IH H) as (e' & He' & Hsame). simpl.
    destruct (decide (same_row x e')) as [Hx | Hx].
    + exists x. split; [ left | eauto using same_row_trans ].
    + exists e'. split; [ | exact Hsame ].
      right. apply list_elem_of_filter. auto.
Qed.









(** ** Ranges of the statistics of a returned analysis *)

Section Ranges.

Local Open Scope Q_scope.

Lemma lenQ_cons {A} (x : A) (l : list A) : lenQ (x :: l) == 1 + lenQ l.
Proof.
  unfold lenQ. simpl length. rewrite Nat2Z.inj_succ, <- Z.add_1_l.
  rewrite inject_Z_plus. reflexivity.
Qed.

Lemma sumQ_bounds (lo hi : Q) (l : list Q) :
  Forall (fun x => lo <= x <= hi) l ->
  lo * lenQ l <= sumQ l <= hi * lenQ l.
Proof.
  induction 1 as [ | x l [Hx1 Hx2] _ [IH1 IH2]].
  - change (lenQ (@nil Q)) with 0. change (sumQ []) with 0. split; lra.
  - assert (E1 : lo * lenQ (x :: l) == lo + lo * lenQ l)
      by (rewrite (lenQ_cons x l); ring).
    assert (E2 : hi * lenQ (x :: l) == hi + hi * lenQ l)
      by (rewrite (lenQ_cons x l); ring).
    change (sumQ (x :: l)) with (x + sumQ l). split; lra.
Qed.

Lemma lenQ_pos {A} (l : list A) : l <> [] -> 0 < lenQ l.
Proof.
  intros H. destruct l as [ | x l]; [ congruence | ].
  pose proof (lenQ_cons x l). pose proof (lenQ_nonneg l). lra.
Qed.

Lemma pd_mean_bounds (lo hi : Q) (l : list Q) :
  l <> [] -> Forall (fun x => lo <= x <= hi) l -> lo <= pd_mean l <= hi.
Proof.
  intros Hne Hall. unfold pd_mean. rewrite fl_eq.
  pose proof (lenQ_pos l Hne) as Hn. pose proof (sumQ_bounds lo hi l Hall) as [H1 H2].
  split.
  - apply Qle_shift_div_l; [ exact Hn | exact H1 ].
  - apply Qle_shift_div_r; [ exact Hn | exact H2 ].
Qed.

Lemma nth_bounds (lo hi : Z) (l : list Z) (i : nat) :
  Forall (fun d => (lo <= d <= hi)%Z) l -> (i < length l)%nat ->
  (lo <= nth i l 0%Z <= hi)%Z.
Proof.
  intros H. revert i. induction H as [ | x l Hx _ IH]; intros i Hi; simpl in *;
    [ lia | ].
  destruct i as [ | i]; [ exact Hx | apply IH; lia ].
Qed.

Lemma pd_median_bounds (lo hi : Z) (l : list Z) :
  l <> [] -> Forall (fun d => (lo <= d <= hi)%Z) l ->
  inject_Z lo <= pd_median l <= inject_Z hi.
Proof.
  intros Hne Hall. unfold pd_median.
  assert (Hs : Forall (fun d => (lo <= d <= hi)%Z) (merge_sort Z.le l))
    by now rewrite merge_sort_Permutation.
  assert (Hlen : length (merge_sort Z.le l) = length l)
    by (apply Permutation_length, merge_sort_Permutation).
  assert (Hpos : (0 < length l)%nat)
    by (destruct l; [ congruence | simpl; lia ]).
  assert (Hn : forall i, (i < length l)%nat ->
               inject_Z lo <= inject_Z (nth i (merge_sort Z.le l) 0%Z) <= inject_Z hi).
  { intros i Hi. rewrite <- !Zle_Qle. apply nth_bounds; [ exact Hs | lia ]. }
  assert (Hhalf : (length l / 2 < length l)%nat)
    by (apply Nat.div_lt; lia).
  destruct (Nat.even (length l)); rewrite fl_eq.
  - pose proof (Hn (length l / 2 - 1)%nat ltac:(lia)) as [? ?].
    pose proof (Hn (length l / 2)%nat Hhalf) as [? ?].
    split.
    + apply Qle_shift_div_l; lra.
    + apply Qle_shift_div_r; lra.
  - now apply Hn.
Qed.

Lemma filter_within_bounds lo hi (l : list Z) :
  30 <= lo -> hi <= 7300 ->
  Forall (fun d => (30 <= d <= 7300)%Z) (filter (within lo hi) l).
Proof.
  intros Hlo Hhi. apply Forall_forall. intros d Hd.
  apply list_elem_of_filter in Hd as [[Hd1 Hd2] _].
  apply (Qle_trans _ _ _ Hlo) in Hd1. apply Qle_trans with (z := 7300) in Hd2;
    [ | exact Hhi ].
  change 30 with (inject_Z 30) in Hd1. change 7300 with (inject_Z 7300) in Hd2.
  rewrite <- Zle_Qle in Hd1, Hd2. lia.
Qed.

Lemma iqr_upper_le7300 (l : list Z) : iqr_upper l <= 7300.
Proof.
  unfold iqr_upper.
  destruct (py_min_spec 7300
              (pd_quantile 0.75 l + 1.5 * (pd_quantile 0.75 l - pd_quantile 0.25 l)))
    as [[H ->] | [H ->]]; lra.
Qed.

Lemma filter_time_diffs_bounds (l : list Z) :
  Forall (fun d => (30 <= d <= 7300)%Z) (filter_time_diffs l).
Proof.
  unfold filter_time_diffs, iqr_filter, fixed_filter.
  destruct (3 <? length l)%nat; [ destruct (Qltb _ _) | ];
    apply filter_within_bounds;
    auto using iqr_lower_ge30, iqr_upper_le7300; lra.
Qed.

End Ranges.

Section Shares.

Local Open Scope Q_scope.

Lemma pd_max_upper (c : Q) (l : list Q) :
  l <> [] -> Forall (fun x => x <= c) l -> pd_max l <= c.
Proof.
  intros Hne Hall. destruct (foldr_omax_spec l Hne) as (m & Hm & _ & Hex).
  unfold pd_max. rewrite Hm. simpl.
  apply Exists_exists in Hex as (x & Hx & Hmx).
  rewrite Forall_forall in Hall. specialize (Hall x Hx). lra.
Qed.

Lemma pd_min_max_enclose (l : list Q) :
  l <> [] -> Forall (fun x => pd_min l <= x <= pd_max l) l.
Proof.
  intros Hne.
  destruct (foldr_omin_spec l Hne) as (m & Hm & Hall & _).
  destruct (foldr_omax_spec l Hne) as (M & HM & Hall' & _).
  unfold pd_min, pd_max. rewrite Hm, HM. simpl.
  rewrite Forall_forall in *. intros x Hx. split; auto.
Qed.

End Shares.

(** ** The consistency metrics (C9) *)

Lemma value_counts_sorted_nonneg (l : list Z) :
  Forall (fun x => 0 <= snd x) (value_counts_sorted l).
Proof.
  unfold value_counts_sorted. apply List.Forall_map.
  apply Forall_forall. intros k _. simpl. lia.
Qed.

Lemma getitem_labels_nonneg (s : list (Z * Z)) (labels r : list Z) :
  Forall (fun x => 0 <= snd x) s ->
  getitem_labels s labels = Returned r -> 0 <= sumZ r.
Proof.
  intros Hs. revert r. induction labels as [ | k ks IH]; intros r; simpl.
  - intros [= <-]. simpl. lia.
  - destruct (list_find (fun x => fst x = k) s) as [[i x] | ] eqn:Hfind;
      [ | discriminate ].
    unfold mbind, outcome_bind.
    destruct (getitem_labels s ks) as [r' | | ]; [ | discriminate | discriminate ].
    intros [= <-]. specialize (IH r' eq_refl).
    apply list_find_Some in Hfind as (Hx & _ & _).
    apply list_elem_of_lookup_2 in Hx. rewrite Forall_forall in Hs.
    specialize (Hs x Hx). simpl. lia.
Qed.

Lemma Qdiv_unit (a b : Z) :
  0 <= a <= b -> 0 < b -> (0 <= inject_Z a / inject_Z b <= 1)%Q.
Proof.
  intros [Ha Hab] Hb.
  assert (Hb' : (0 < inject_Z b)%Q) by (change 0%Q with (inject_Z 0); now rewrite <- Zlt_Qlt).
  assert (Ha' : (0 <= inject_Z a)%Q) by (change 0%Q with (inject_Z 0); now rewrite <- Zle_Qle).
  assert (Hab' : (inject_Z a <= inject_Z b)%Q) by now rewrite <- Zle_Qle.
  split.
  - apply Qle_shift_div_l; [ exact Hb' | lra ].
  - apply Qle_shift_div_r; [ exact Hb' | lra ].
Qed.

Lemma seasonal_share (w sp su au : Z) :
  0 <= w -> 0 <= sp -> 0 <= su -> 0 <= au ->
  let d := [(winter, w); (spring, sp); (summer, su); (autumn, au)] in
  0 <= dict_get d (max_by_value d) <= sumZ (map snd d).
Proof.
  intros Hw Hsp Hsu Hau d.
  assert (Hsum : sumZ (map snd d) = w + sp + su + au) by (simpl; lia).
  rewrite Hsum.
  destruct (max_by_value d); vm_compute dict_get; lia.
Qed.

Lemma ratio_at_most_one (s m : Q) :
  (0 < s)%Q -> (0 <= m)%Q -> (fl (1 - s / m) <= 1)%Q.
Proof.
  intros Hs Hm. rewrite fl_eq.
  pose proof (Qdiv_nonneg s m ltac:(lra) Hm). lra.
Qed.

(** C9, as stated, fails: on the irregular catalog the surviving intervals
    have a standard deviation (about 1367 days) above their mean (about 829
    days), and the temporal consistency is negative. *)
Lemma temporal_consistency_negative :
  exists a,
    analyze_earthquake_patterns catalog_irregular (datetime 2025 3 1 12 0 0)
    = Returned a
    /\ time_intervals a = [31; 31; 31; 30; 31; 30; 31; 31; 2964; 2953; 2952]
    /\ (avg_interval_days a < std_interval_days a)%Q
    /\ (temporal_consistency (consistency_metrics a) < - (6 # 10))%Q
    /\ ~ consistency_in_unit_interval_as_stated.
Proof.
  destruct (analyze_earthquake_patterns catalog_irregular (datetime 2025 3 1 12 0 0))
    as [a | | e] eqn:Ea; [ | vm_compute in Ea; discriminate Ea
                           | vm_compute in Ea; discriminate Ea ].
  exists a.
  assert (H : time_intervals a = [31; 31; 31; 30; 31; 30; 31; 31; 2964; 2953; 2952]
              /\ (avg_interval_days a < std_interval_days a)%Q
              /\ (temporal_consistency (consistency_metrics a) < - (6 # 10))%Q).
  { pose proof Ea as Ea'. vm_compute in Ea'. injection Ea' as <-.
    split; [ reflexivity | ]. split; reflexivity. }
  destruct H as (H1 & H2 & H3).
  repeat split; auto.
  intros Hclaim. destruct (Hclaim _ _ _ Ea) as ([Hlo _] & _). lra.
Qed.

Section Dispersion.

Local Open Scope Q_scope.

Lemma sumQ_cons (x : Q) (l : list Q) : sumQ (x :: l) = x + sumQ l.
Proof. reflexivity. Qed.

Lemma Qsquare_nonneg (a : Q) : 0 <= a * a.
Proof.
  destruct (Qlt_le_dec a 0) as [H | H].
  - assert (E : a * a == (- a) * (- a)) by ring.
    rewrite E. apply Qmult_le_0_compat; lra.
  - apply Qmult_le_0_compat; lra.
Qed.

Lemma Qsquare_le (a b : Q) : 0 <= a -> a <= b -> a * a <= b * b.
Proof.
  intros Ha Hab.
  pose proof (Qmult_le_0_compat (b - a) (b + a) ltac:(lra) ltac:(lra)) as Hp.
  assert (E : (b - a) * (b + a) == b * b - a * a) by ring.
  rewrite E in Hp. lra.
Qed.

Lemma sum_squares_shift (m c : Q) (l : list Q) :
  sumQ (map (fun x => (x - c) * (x - c)) l)
  == sumQ (map (fun x => (x - m) * (x - m)) l)
     + (m - c) * (2 * sumQ l - lenQ l * (m + c)).
Proof.
  induction l as [ | x l IH].
  - change (lenQ (@nil Q)) with 0. simpl. ring.
  - simpl map. rewrite !sumQ_cons, IH.
    pose proof (lenQ_cons x l) as E.
    set (n' := lenQ (x :: l)) in *. set (n := lenQ l) in *.
    rewrite E. ring.
Qed.

Lemma sum_squares_upper (c r : Q) (l : list Q) :
  Forall (fun x => c - r <= x <= c + r) l ->
  sumQ (map (fun x => (x - c) * (x - c)) l) <= r * r * lenQ l.
Proof.
  induction 1 as [ | x l [H1 H2] _ IH].
  - change (lenQ (@nil Q)) with 0. simpl. lra.
  - simpl map. rewrite sumQ_cons.
    assert (E : r * r * lenQ (x :: l) == r * r + r * r * lenQ l)
      by (rewrite (lenQ_cons x l); ring).
    assert (Hx : (x - c) * (x - c) <= r * r).
    { pose proof (Qmult_le_0_compat (r - (x - c)) (r + (x - c))
                    ltac:(lra) ltac:(lra)) as Hp.
      assert (E' : (r - (x - c)) * (r + (x - c)) == r * r - (x - c) * (x - c))
        by ring.
      rewrite E' in Hp. lra. }
    lra.
Qed.

Lemma sum_squares_nonneg (m : Q) (l : list Q) :
  0 <= sumQ (map (fun x => (x - m) * (x - m)) l).
Proof.
  induction l as [ | x l IH]; [ discriminate | ].
  simpl map. rewrite sumQ_cons.
  pose proof (Qsquare_nonneg (x - m)). lra.
Qed.

(** The sample variance of values within [r] of [c] is at most
    [r * r * n / (n - 1)]. *)
Lemma pd_var_upper (c r : Q) (l : list Q) :
  (2 <= length l)%nat ->
  Forall (fun x => c - r <= x <= c + r) l ->
  0 <= pd_var l /\ pd_var l * (lenQ l - 1) <= r * r * lenQ l.
Proof.
  intros Hlen Hall. unfold pd_var. cbv zeta. rewrite fl_eq.
  set (m := pd_mean l).
  assert (Hn : 2 <= lenQ l).
  { unfold lenQ. change 2 with (inject_Z 2). rewrite <- Zle_Qle. lia. }
  assert (Hm : m * lenQ l == sumQ l).
  { unfold m, pd_mean. rewrite fl_eq. field. lra. }
  assert (Ed : inject_Z (Z.of_nat (length l) - 1) == lenQ l - 1).
  { unfold lenQ, Z.sub. rewrite inject_Z_plus. reflexivity. }
  rewrite Ed.
  pose proof (sum_squares_shift m c l) as Hshift.
  pose proof (sum_squares_upper c r l Hall) as Hup.
  pose proof (sum_squares_nonneg m l) as H0.
  set (S2 := sumQ (map (fun x => (x - m) * (x - m)) l)) in *.
  set (Sc := sumQ (map (fun x => (x - c) * (x - c)) l)) in *.
  assert (Hextra : 0 <= (m - c) * (2 * sumQ l - lenQ l * (m + c))).
  { assert (E : (m - c) * (2 * sumQ l - lenQ l * (m + c))
                == lenQ l * ((m - c) * (m - c))).
    { rewrite <- Hm. ring. }
    rewrite E. pose proof (Qsquare_nonneg (m - c)).
    apply Qmult_le_0_compat; lra. }
  split.
  - apply Qle_shift_div_l; lra.
  - assert (E : S2 / (lenQ l - 1) * (lenQ l - 1) == S2) by (field; lra).
    rewrite E. lra.
Qed.

Lemma np_sqrt_square (x : Q) :
  0 <= np_sqrt x /\ (0 <= x -> np_sqrt x * np_sqrt x <= x).
Proof.
  unfold np_sqrt. rewrite fl_eq.
  assert (HS : 0 < inject_Z sqrt_scale) by reflexivity.
  set (F := Qfloor (x * inject_Z (sqrt_scale * sqrt_scale))).
  pose proof (Z.sqrt_nonneg F) as Hk.
  assert (HK : 0 <= inject_Z (Z.sqrt F))
    by (change 0 with (inject_Z 0); now rewrite <- Zle_Qle).
  split.
  - apply Qle_shift_div_l; [ exact HS | lra ].
  - intros Hx.
    assert (HF : (0 <= F)%Z).
    { unfold F. rewrite <- (Qfloor_Z 0). apply Qfloor_resp_le.
      change (inject_Z 0) with 0. apply Qmult_le_0_compat; [ exact Hx | discriminate ]. }
    pose proof (Z.sqrt_spec F HF) as [Hsq _].
    pose proof (Qfloor_le (x * inject_Z (sqrt_scale * sqrt_scale))) as HFx.
    fold F in HFx. rewrite inject_Z_mult in HFx.
    rewrite Zle_Qle, inject_Z_mult in Hsq.
    set (K := inject_Z (Z.sqrt F)) in *. set (S := inject_Z sqrt_scale) in *.
    assert (E : K / S * (K / S) == K * K / (S * S)) by (field; lra).
    rewrite E. apply Qle_shift_div_r; [ now apply Qmult_lt_0_compat | lra ].
Qed.

(** Values between 4 and 10, at least three of them: the sample standard
    deviation is below 4, hence below the mean. *)
Lemma pd_std_below_4 (l : list Q) :
  (3 <= length l)%nat -> Forall (fun x => 4 <= x <= 10) l -> pd_std l < 4.
Proof.
  intros Hlen Hall.
  assert (Hall' : Forall (fun x => 7 - 3 <= x <= 7 + 3) l).
  { eapply Forall_impl; [ exact Hall | ]. simpl. intros x [H1 H2]. split; lra. }
  destruct (pd_var_upper 7 3 l ltac:(lia) Hall') as [Hv0 Hv].
  assert (Hn : 3 <= lenQ l).
  { unfold lenQ. change 3 with (inject_Z 3). rewrite <- Zle_Qle. lia. }
  unfold pd_std. destruct (np_sqrt_square (pd_var l)) as [Hs0 Hs].
  specialize (Hs Hv0).
  set (s := np_sqrt (pd_var l)) in *. set (v := pd_var l) in *.
  assert (Hv16 : v < 16).
  { destruct (Qlt_le_dec v 16) as [H | H]; [ exact H | exfalso ].
    pose proof (Qmult_le_compat_r 16 v (lenQ l - 1) H ltac:(lra)) as Hp. lra. }
  destruct (Qlt_le_dec s 4) as [H | H]; [ exact H | ].
  exfalso. pose proof (Qsquare_le 4 s ltac:(lra) H) as Hp. lra.
Qed.

Lemma consistency_negative_iff (s m : Q) :
  0 < m -> ((if Qltb 0 s then fl (1 - s / m) else 0.8) < 0 <-> m < s).
Proof.
  intros Hm. destruct (Qltb 0 s) eqn:E.
  - rewrite fl_eq.
    assert (Eq : s / m * m == s) by (field; lra).
    set (q := s / m) in *. split; intros H.
    + pose proof (Qmult_lt_0_compat (q - 1) m ltac:(lra) Hm) as Hp.
      assert (E' : (q - 1) * m == q * m - m) by ring.
      rewrite E' in Hp. lra.
    + destruct (Qlt_le_dec 1 q) as [Hq | Hq]; [ lra | exfalso ].
      pose proof (Qmult_le_0_compat (1 - q) m ltac:(lra) ltac:(lra)) as Hp.
      assert (E' : (1 - q) * m == m - q * m) by ring.
      rewrite E' in Hp. lra.
  - apply Qltb_false in E. split; intros H; [ discriminate H | lra ].
Qed.

Lemma consistency_positive (s m : Q) :
  s < m -> 0 < (if Qltb 0 s then fl (1 - s / m) else 0.8).
Proof.
  intros Hsm. destruct (Qltb 0 s) eqn:E; [ | reflexivity ].
  apply Qltb_true in E. rewrite fl_eq.
  assert (Hm : 0 < m) by lra.
  assert (Eq : s / m * m == s) by (field; lra).
  set (q := s / m) in *.
  destruct (Qlt_le_dec q 1) as [Hq | Hq]; [ lra | exfalso ].
  pose proof (Qmult_le_0_compat (q - 1) m ltac:(lra) ltac:(lra)) as Hp.
  assert (E' : (q - 1) * m == q * m - m) by ring.
  rewrite E' in Hp. lra.
Qed.

End Dispersion.

Lemma analyze_returned_means data now a :
  analyze_earthquake_patterns data now = Returned a ->
  (30 <= avg_interval_days a)%Q /\ (4 <= avg_magnitude a)%Q
  /\ ((max_magnitude a <= 10)%Q -> (magnitude_std a < 4)%Q).
Proof.
  intros H.
  pose proof (analyze_returned_gates _ _ _ H) as (_ & G2 & G3).
  pose proof (analyze_returned_intervals _ _ _ H) as (-> & _ & _ & _).
  pose proof (analyze_returned_magnitudes _ _ _ H) as (-> & -> & _ & ->).
  pose proof (filter_time_diffs_bounds
                (diff_days (map time (significant_events data)))) as Hb.
  fold (surviving_intervals data) in Hb.
  assert (Hlen : length (map magnitude (significant_events data))
                 = length (filter is_significant data))
    by now rewrite length_map, significant_events_length.
  assert (Hne : map magnitude (significant_events data) <> [])
    by (intros E; rewrite E in Hlen; simpl in Hlen; lia).
  split; [ | split ].
  - assert (Hiv : (30 <= pd_mean (map qz (surviving_intervals data)) <= 7300)%Q);
      [ | apply Hiv ].
    apply pd_mean_bounds.
    + intros E. apply (f_equal length) in E. rewrite length_map in E.
      simpl in E. lia.
    + apply List.Forall_map. eapply Forall_impl; [ exact Hb | ].
      simpl. intros d Hd. unfold qz. change 30%Q with (inject_Z 30).
      change 7300%Q with (inject_Z 7300). rewrite <- !Zle_Qle. exact Hd.
  - pose proof (pd_min_max_enclose _ Hne) as Henc.
    pose proof (pd_min_lower 4 _ Hne) as Hmin.
    assert (H4 : Forall (fun x => 4 <= x)%Q (map magnitude (significant_events data))).
    { eapply Forall_impl; [ apply significant_events_magnitude | ].
      simpl. intros x Hx. lra. }
    assert (Hm : (4 <= pd_mean (map magnitude (significant_events data))
                  <= pd_max (map magnitude (significant_events data)))%Q);
      [ | apply Hm ].
    apply pd_mean_bounds; [ exact Hne | ].
    rewrite Forall_forall in *. intros x Hx. specialize (Henc x Hx).
    specialize (H4 x Hx). split; [ exact H4 | apply Henc ].
  - intros Hmax. apply pd_std_below_4; [ rewrite Hlen; lia | ].
    pose proof (pd_min_max_enclose _ Hne) as Henc.
    pose proof (significant_events_magnitude data) as H4.
    rewrite Forall_forall in *. intros x Hx. specialize (Henc x Hx).
    specialize (H4 x Hx). simpl in H4. split; lra.
Qed.

(** C9, amended.  In every returned analysis the temporal and magnitude
    consistency are at most 1 and equal 0.8 when the corresponding standard
    deviation is zero; each of them is negative exactly when the standard
    deviation exceeds the mean.  The magnitude consistency is positive
    whenever the largest magnitude is at most 10; the depth and seasonal
    consistency lie within [0, 1]. *)
Theorem consistency_metrics_bounds data now a :
  analyze_earthquake_patterns data now = Returned a ->
  let cm := consistency_metrics a in
  (temporal_consistency cm <= 1)%Q
  /\ (magnitude_consistency cm <= 1)%Q
  /\ (0 <= depth_consistency cm <= 1)%Q
  /\ (0 <= seasonal_consistency cm <= 1)%Q
  /\ ((std_interval_days a == 0)%Q -> temporal_consistency cm = 0.8%Q)
  /\ ((magnitude_std a == 0)%Q -> magnitude_consistency cm = 0.8%Q)
  /\ ((temporal_consistency cm < 0)%Q
      <-> (avg_interval_days a < std_interval_days a)%Q)
  /\ ((magnitude_consistency cm < 0)%Q
      <-> (avg_magnitude a < magnitude_std a)%Q)
  /\ ((max_magnitude a <= 10)%Q -> (0 < magnitude_consistency cm)%Q).
Proof.
  intros H.
  pose proof (analyze_returned_means _ _ _ H) as (Hiv30 & Hm4 & Hstd4).
  pose proof (analyze_returned_gates _ _ _ H) as (_ & G2 & _).
  pose proof (analyze_returned_intervals _ _ _ H) as (Eavg & _ & Estd & _).
  pose proof (analyze_returned_magnitudes _ _ _ H) as (Emavg & Emax & _ & Emstd).
  cbv zeta in Emavg, Emax, Emstd.
  rewrite Eavg in Hiv30. rewrite Emavg in Hm4. rewrite Emax, Emstd in Hstd4.
  rewrite Eavg, Estd, Emavg, Emstd, Emax. clear Eavg Estd Emavg Emstd Emax.
  analyze_inv H.
  fold (significant_events data) in *. fold (surviving_intervals data) in *.
  set (ivs := map qz (surviving_intervals data)) in *.
  set (mags := map magnitude (significant_events data)) in *.
  split; [ | split; [ | split; [ | split; [ | split; [ | split;
    [ | split; [ | split ] ] ] ] ] ] ].
  - destruct (Qltb 0 (pd_std ivs)) eqn:E; [ | discriminate ].
    apply Qltb_true in E. apply ratio_at_most_one; [ exact E | lra ].
  - destruct (Qltb 0 (pd_std mags)) eqn:E; [ | discriminate ].
    apply Qltb_true in E. apply ratio_at_most_one; [ exact E | lra ].
  - rewrite fl_eq. unfold qn. apply Qdiv_unit.
    + pose proof (length_filter (fun e => (depth e < 70)%Q) (significant_events data)).
      pose proof (length_filter (fun e => (70 <= depth e)%Q) (significant_events data)).
      lia.
    + rewrite significant_events_length. lia.
  - pose proof (value_counts_sorted_nonneg (map month (significant_events data))) as Hvc.
    pose proof (getitem_labels_nonneg _ _ _ Hvc Hw) as Hw0.
    pose proof (getitem_labels_nonneg _ _ _ Hvc Hsp) as Hsp0.
    pose proof (getitem_labels_nonneg _ _ _ Hvc Hsu) as Hsu0.
    pose proof (getitem_labels_nonneg _ _ _ Hvc Hau) as Hau0.
    pose proof (seasonal_share _ _ _ _ Hw0 Hsp0 Hsu0 Hau0) as Hshare.
    cbv zeta in Hshare.
    match goal with
    | |- context [0 <? ?t] => destruct (0 <? t) eqn:E
    end; [ | split; discriminate ].
    apply Z.ltb_lt in E. rewrite fl_eq. unfold qz. now apply Qdiv_unit.
  - intros E0. destruct (Qltb 0 (pd_std ivs)) eqn:E; [ | reflexivity ].
    apply Qltb_true in E. lra.
  - intros E0. destruct (Qltb 0 (pd_std mags)) eqn:E; [ | reflexivity ].
    apply Qltb_true in E. lra.
  - apply consistency_negative_iff. lra.
  - apply consistency_negative_iff. lra.
  - intros Hmax. apply consistency_positive. specialize (Hstd4 Hmax). lra.
Qed.

Lemma consistency_metrics_bounds_witness :
  match analyze_earthquake_patterns catalog_monthly sample_now with
  | Returned a =>
      (temporal_consistency (consistency_metrics a) <= 1)%Q
      /\ (0 <= depth_consistency (consistency_metrics a) <= 1)%Q
      /\ (max_magnitude a <= 10)%Q
      /\ (0 < magnitude_consistency (consistency_metrics a))%Q
  | _ => False
  end
  /\ match analyze_earthquake_patterns catalog_steady sample_now with
     | Returned a =>
         (magnitude_std a == 0)%Q
         /\ magnitude_consistency (consistency_metrics a) = 0.8%Q
     | _ => False
     end.
Proof.
  split.
  - destruct (analyze_earthquake_patterns catalog_monthly sample_now)
      as [a | | e] eqn:Ea; [ | vm_compute in Ea; discriminate Ea
                             | vm_compute in Ea; discriminate Ea ].
    assert (Hmax : (max_magnitude a <= 10)%Q).
    { pose proof Ea as E. vm_compute in E. injection E as <-. discriminate. }
    pose proof (consistency_metrics_bounds catalog_monthly sample_now a Ea)
      as (H1 & _ & H3 & _ & _ & _ & _ & _ & H9).
    split; [ exact H1 | ]. split; [ exact H3 | ].
    split; [ exact Hmax | exact (H9 Hmax) ].
  - destruct (analyze_earthquake_patterns catalog_steady sample_now)
      as [a | | e] eqn:Ea; [ | vm_compute in Ea; discriminate Ea
                             | vm_compute in Ea; discriminate Ea ].
    assert (Hstd : (magnitude_std a == 0)%Q).
    { pose proof Ea as E. vm_compute in E. injection E as <-. reflexivity. }
    pose proof (consistency_metrics_bounds catalog_steady sample_now a Ea)
      as (_ & _ & _ & _ & _ & H6 & _).
    split; [ exact Hstd | exact (H6 Hstd) ].
Defined.

(** ** Independence of the order of the rows (C10) *)

Section Permutations.

Local Open Scope Q_scope.

Ltac py_cases :=
  repeat match goal with
  | |- context [py_max ?a ?b] =>
      let E := fresh "E" in
      destruct (py_max_spec a b) as [[? E] | [? E]]; rewrite E in *; clear E
  | H : context [py_max ?a ?b] |- _ =>
      let E := fresh "E" in
      destruct (py_max_spec a b) as [[? E] | [? E]]; rewrite E in *; clear E
  | |- context [py_min ?a ?b] =>
      let E := fresh "E" in
      destruct (py_min_spec a b) as [[? E] | [? E]]; rewrite E in *; clear E
  | H : context [py_min ?a ?b] |- _ =>
      let E := fresh "E" in
      destruct (py_min_spec a b) as [[? E] | [? E]]; rewrite E in *; clear E
  end.

Lemma omax_swap (a1 a2 : Q) (b : option Q) :
  omax a1 (omax a2 b) = omax a2 (omax a1 b).
Proof.
  unfold omax. f_equal. apply fl_complete.
  pose proof (fl_eq a1). pose proof (fl_eq a2).
  destruct b as [m | ]; [ pose proof (fl_eq m) | ]; py_cases; lra.
Qed.

Lemma omin_swap (a1 a2 : Q) (b : option Q) :
  omin a1 (omin a2 b) = omin a2 (omin a1 b).
Proof.
  unfold omin. f_equal. apply fl_complete.
  pose proof (fl_eq a1). pose proof (fl_eq a2).
  destruct b as [m | ]; [ pose proof (fl_eq m) | ]; py_cases; lra.
Qed.

Lemma pd_max_perm (l l' : list Q) : l ≡ₚ l' -> pd_max l = pd_max l'.
Proof.
  intros H. unfold pd_max. f_equal.
  apply (foldr_permutation_proper eq omax None); auto using omax_swap;
    try apply _; try (intros x ? ? ->; reflexivity).
Qed.

Lemma pd_min_perm (l l' : list Q) : l ≡ₚ l' -> pd_min l = pd_min l'.
Proof.
  intros H. unfold pd_min. f_equal.
  apply (foldr_permutation_proper eq omin None); auto using omin_swap;
    try apply _; try (intros x ? ? ->; reflexivity).
Qed.

End Permutations.

Lemma time_max_perm (l l' : list Event) : l ≡ₚ l' -> time_max l = time_max l'.
Proof.
  intros H. unfold time_max.
  eapply (foldr_permutation_proper eq); try apply _; try exact H.
  intros a1 a2 [m | ]; f_equal; lia.
Qed.

Lemma time_min_perm (l l' : list Event) : l ≡ₚ l' -> time_min l = time_min l'.
Proof.
  intros H. unfold time_min.
  eapply (foldr_permutation_proper eq); try apply _; try exact H.
  intros a1 a2 [m | ]; f_equal; lia.
Qed.

Lemma length_filter_perm {A} (P : A -> Prop) `{forall x, Decision (P x)}
    (l l' : list A) :
  l ≡ₚ l' -> length (filter P l) = length (filter P l').
Proof. intros Hp. apply Permutation_length. now apply filter_Permutation. Qed.

Lemma assess_data_quality_perm (l l' : list Event) (now : Z) :
  l ≡ₚ l' -> _assess_data_quality l now = _assess_data_quality l' now.
Proof.
  intros H. unfold _assess_data_quality.
  rewrite (time_max_perm _ _ H), (time_min_perm _ _ H), (Permutation_length H).
  rewrite (pd_max_perm _ _ (Permutation_map magnitude H)).
  rewrite (pd_min_perm _ _ (Permutation_map magnitude H)).
  destruct l as [ | x l]; destruct l' as [ | x' l']; try reflexivity.
  - apply Permutation_nil_l in H. discriminate H.
  - apply Permutation_nil_r in H. discriminate H.
Qed.

Lemma NoDup_map_eq {A B} (f : A -> B) (l : list A) (x y : A) :
  NoDup (map f l) -> x ∈ l -> y ∈ l -> f x = f y -> x = y.
Proof.
  induction l as [ | a l IH]; [ inversion 2 | ].
  simpl. rewrite NoDup_cons. intros [Ha Hl] Hx Hy E.
  assert (Hin : forall z, z ∈ l -> f z ∈ map f l).
  { intros z Hz. apply list_elem_of_In, in_map, list_elem_of_In, Hz. }
  apply elem_of_cons in Hx as [-> | Hx]; apply elem_of_cons in Hy as [-> | Hy].
  - reflexivity.
  - exfalso. apply Ha. rewrite E. auto.
  - exfalso. apply Ha. rewrite <- E. auto.
  - auto.
Qed.

(** Rows with pairwise distinct times have only one arrangement in
    ascending order of time. *)
Lemma sorted_distinct_times_unique (l l' : list Event) :
  l ≡ₚ l' -> NoDup (map time l) ->
  StronglySorted time_le l -> StronglySorted time_le l' -> l = l'.
Proof.
  revert l'. induction l as [ | x l IH]; intros l' Hp Hnd Hs Hs'.
  - apply Permutation_nil_l in Hp. now subst.
  - destruct l' as [ | y l']; [ apply Permutation_nil_r in Hp; discriminate | ].
    assert (Hxy : x = y).
    { apply (NoDup_map_eq time (x :: l)); [ exact Hnd | left | | ].
      - rewrite Hp. left.
      - apply StronglySorted_inv in Hs as [_ Hx].
        apply StronglySorted_inv in Hs' as [_ Hy].
        rewrite Forall_forall in Hx, Hy.
        assert (Hx' : x ∈ y :: l') by (rewrite <- Hp; left).
        assert (Hy' : y ∈ x :: l) by (rewrite Hp; left).
        apply elem_of_cons in Hx' as [-> | Hx']; [ reflexivity | ].
        apply elem_of_cons in Hy' as [-> | Hy']; [ reflexivity | ].
        specialize (Hx y Hy'). specialize (Hy x Hx'). unfold time_le in *. lia. }
    subst y. f_equal.
    apply Permutation_cons_inv in Hp.
    simpl in Hnd. apply NoDup_cons in Hnd as [_ Hnd].
    apply StronglySorted_inv in Hs as [Hs _].
    apply StronglySorted_inv in Hs' as [Hs' _].
    now apply IH.
Qed.

Lemma significant_events_unique (data data' : list Event) :
  data ≡ₚ data' ->
  NoDup (map time (filter is_significant data)) ->
  significant_events data = significant_events data'.
Proof.
  intros Hp Hnd. unfold significant_events.
  apply sorted_distinct_times_unique.
  - rewrite !sort_values_time_perm. now apply filter_Permutation.
  - assert (E : map time (sort_values_time (filter is_significant data))
                ≡ₚ map time (filter is_significant data))
      by apply Permutation_map, sort_values_time_perm.
    rewrite E. exact Hnd.
  - apply sort_values_time_sorted.
  - apply sort_values_time_sorted.
Qed.

(** Without that condition the arrangement is not determined by the set of
    rows: two rows tied in time come out in an order that depends on the
    order they were given in. *)
Lemma tied_rows_follow_input_order :
  catalog_tied ≡ₚ reverse catalog_tied
  /\ significant_events catalog_tied <> significant_events (reverse catalog_tied).
Proof.
  split; [ symmetry; apply reverse_Permutation | ].
  intros E. apply (f_equal (map magnitude)) in E. vm_compute in E.
  discriminate E.
Qed.

(** C10, as stated, fails: the analyzer reads the clock.  The same catalog
    analyzed in 2022 and in 2060 gives different recent frequencies (twelve
    events in the last twenty years against none), hence different
    analyses. *)
Lemma analysis_depends_on_clock :
  exists a a',
    analyze_earthquake_patterns catalog_monthly sample_now = Returned a
    /\ analyze_earthquake_patterns catalog_monthly sample_later = Returned a'
    /\ (recent_frequency a == 3 # 5)%Q
    /\ (recent_frequency a' == 0)%Q
    /\ a <> a'
    /\ ~ analyzer_pure_as_stated.
Proof.
  destruct (analyze_earthquake_patterns catalog_monthly sample_now)
    as [a | | e] eqn:Ea; [ | vm_compute in Ea; discriminate Ea
                           | vm_compute in Ea; discriminate Ea ].
  destruct (analyze_earthquake_patterns catalog_monthly sample_later)
    as [a' | | e] eqn:Ea'; [ | vm_compute in Ea'; discriminate Ea'
                             | vm_compute in Ea'; discriminate Ea' ].
  exists a, a'.
  assert (H1 : (recent_frequency a == 3 # 5)%Q).
  { pose proof Ea as E. vm_compute in E. injection E as <-. reflexivity. }
  assert (H2 : (recent_frequency a' == 0)%Q).
  { pose proof Ea' as E. vm_compute in E. injection E as <-. reflexivity. }
  assert (Hne : a <> a').
  { intros ->. rewrite H2 in H1. discriminate H1. }
  repeat split; auto.
  intros Hclaim.
  specialize (Hclaim catalog_monthly catalog_monthly sample_now sample_later
                (Permutation_refl _)).
  rewrite Ea, Ea' in Hclaim. injection Hclaim as ->. now apply Hne.
Qed.

(** C10, amended.  For a fixed reading of the clock, and when no two
    significant events of the collection share a time, two collections
    holding the same events in any order give the same outcome: the
    significant rows, once sorted by time, are the same sequence, so every
    statistic is computed over the same values in the same order. *)
Theorem analysis_independent_of_row_order data data' now :
  data ≡ₚ data' ->
  NoDup (map time (filter is_significant data)) ->
  significant_events data = significant_events data'
  /\ analyze_earthquake_patterns data now = analyze_earthquake_patterns data' now.
Proof.
  intros H Hnd.
  assert (HS : filter is_significant data ≡ₚ filter is_significant data')
    by now apply filter_Permutation.
  pose proof (significant_events_unique data data' H Hnd) as Hsorted.
  split; [ exact Hsorted | ].
  unfold significant_events in Hsorted.
  unfold analyze_earthquake_patterns. cbv zeta.
  rewrite (Permutation_length H), (Permutation_length HS).
  rewrite (length_filter_perm is_major _ _ H).
  rewrite (assess_data_quality_perm _ _ now HS).
  rewrite Hsorted. reflexivity.
Qed.

Lemma analysis_independent_of_row_order_witness :
  catalog_monthly ≡ₚ reverse catalog_monthly
  /\ NoDup (map time (filter is_significant catalog_monthly))
  /\ analyze_earthquake_patterns catalog_monthly sample_now
     = analyze_earthquake_patterns (reverse catalog_monthly) sample_now.
Proof.
  assert (H : catalog_monthly ≡ₚ reverse catalog_monthly)
    by (symmetry; apply reverse_Permutation).
  assert (Hnd : NoDup (map time (filter is_significant catalog_monthly)))
    by (apply (bool_decide_unpack _); vm_compute; exact I).
  split; [ exact H | ]. split; [ exact Hnd | ].
  exact (proj2 (analysis_independent_of_row_order catalog_monthly
                  (reverse catalog_monthly) sample_now H Hnd)).
Defined.

(** * Further properties of the code *)

(** ** The calendar columns *)

Lemma civil_month_range (z : Z) : 1 <= snd (fst (civil_from_days z)) <= 12.
Proof.
  unfold civil_from_days. cbv zeta. simpl fst. simpl snd.
  set (z' := z + 719468).
  set (era := z' / 146097).
  set (doe := z' - era * 146097).
  assert (Hdoe : 0 <= doe < 146097).
  { unfold doe, era. pose proof (Z.mod_pos_bound z' 146097 eq_refl).
    pose proof (Z.div_mod z' 146097). lia. }
  clearbody doe. clear z' era.
  set (yoe := (doe - doe / 1460 + doe / 36524 - doe / 146096) / 365).
  set (doy := doe - (365 * yoe + yoe / 4 - yoe / 100)).
  assert (Hdoy : 0 <= doy <= 365).
  { unfold doy, yoe. Z.div_mod_to_equations. lia. }
  clearbody doy.
  destruct ((5 * doy + 2) / 153 <? 10) eqn:E.
  - apply Z.ltb_lt in E. Z.div_mod_to_equations. lia.
  - apply Z.ltb_ge in E. Z.div_mod_to_equations. lia.
Qed.

Lemma dt_month_range (t : Z) : 1 <= dt_month t <= 12.
Proof. unfold dt_month. apply civil_month_range. Qed.

(** ** Selection of labels from the monthly histogram *)

Lemma list_find_key (s : list (Z * Z)) (k : Z) :
  (k ∈ map fst s -> exists i x, list_find (fun x => fst x = k) s = Some (i, x))
  /\ (k ∉ map fst s -> list_find (fun x => fst x = k) s = None).
Proof.
  split.
  - intros Hk. apply list_elem_of_In, in_map_iff in Hk as (x & Hx & Hin).
    apply list_elem_of_In in Hin.
    destruct (list_find (fun x => fst x = k) s) as [[i y] | ] eqn:E; [ eauto | ].
    apply list_find_None in E. rewrite Forall_forall in E. now destruct (E x Hin).
  - intros Hk. apply list_find_None. apply Forall_forall. intros x Hx Hfst.
    apply Hk. apply list_elem_of_In, in_map_iff. exists x.
    split; [ exact Hfst | now apply list_elem_of_In ].
Qed.

Lemma getitem_labels_cases (s : list (Z * Z)) (labels : list Z) :
  (Forall (fun k => k ∈ map fst s) labels
   /\ exists r, getitem_labels s labels = Returned r)
  \/ (~ Forall (fun k => k ∈ map fst s) labels
      /\ getitem_labels s labels = Raised KeyError).
Proof.
  induction labels as [ | k ks IH]; simpl.
  - left. split; [ constructor | eauto ].
  - destruct (decide (k ∈ map fst s)) as [Hk | Hk].
    + destruct (proj1 (list_find_key s k) Hk) as (i & x & ->).
      unfold mbind, outcome_bind.
      destruct IH as [[Hall [r ->]] | [Hnot ->]].
      * left. split; [ now constructor | eauto ].
      * right. split; [ | reflexivity ]. intros H. inversion H; subst. auto.
    + rewrite (proj2 (list_find_key s k) Hk). right. split; [ | reflexivity ].
      intros H. inversion H; subst. auto.
Qed.

Lemma value_counts_sorted_keys (l : list Z) (k : Z) :
  k ∈ map fst (value_counts_sorted l) <-> k ∈ l.
Proof.
  unfold value_counts_sorted. rewrite map_map. simpl. rewrite map_id.
  rewrite elem_of_remove_dups. now rewrite merge_sort_Permutation.
Qed.

Lemma all_months_labels (P : Z -> Prop) :
  Forall P [12; 1; 2] -> Forall P [3; 4; 5] -> Forall P [6; 7; 8] ->
  Forall P [9; 10; 11] -> forall m, 1 <= m <= 12 -> P m.
Proof.
  intros H1 H2 H3 H4 m Hm.
  repeat match goal with
         | H : Forall _ (_ :: _) |- _ => inversion H; subst; clear H
         end.
  assert (m = 1 \/ m = 2 \/ m = 3 \/ m = 4 \/ m = 5 \/ m = 6 \/ m = 7
          \/ m = 8 \/ m = 9 \/ m = 10 \/ m = 11 \/ m = 12) as Hcases by lia.
  repeat (destruct Hcases as [-> | Hcases]; [ assumption | ]). now subst.
Qed.

Lemma labels_all_months (P : Z -> Prop) :
  (forall m, 1 <= m <= 12 -> P m) ->
  Forall P [12; 1; 2] /\ Forall P [3; 4; 5] /\ Forall P [6; 7; 8]
  /\ Forall P [9; 10; 11].
Proof. intros H. repeat split; repeat constructor; apply H; lia. Qed.

(** ** Outcome of the analyzer once the gates are passed *)

Lemma passes_gates_ltb data :
  passes_gates data ->
  (length data <? 10)%nat = false
  /\ (length (filter is_significant data) <? 5)%nat = false
  /\ (length (surviving_intervals data) <? 3)%nat = false.
Proof. intros (G1 & G2 & G3). rewrite !Nat.ltb_ge. auto. Qed.

Lemma analyze_after_gates_cases data now :
  passes_gates data ->
  ((forall m, 1 <= m <= 12 -> m ∈ map month (significant_events data)) ->
   exists a, analyze_earthquake_patterns data now = Returned a)
  /\ ((exists m, 1 <= m <= 12 /\ m ∉ map month (significant_events data)) ->
      analyze_earthquake_patterns data now = Raised KeyError).
Proof.
  intros Hg. apply passes_gates_ltb in Hg as (G1 & G2 & G3).
  unfold surviving_intervals, significant_events in *.
  unfold analyze_earthquake_patterns. cbv zeta. rewrite G1, G2, G3.
  set (mc := value_counts_sorted
               (map month (sort_values_time (filter is_significant data)))).
  unfold mbind, outcome_bind.
  destruct (getitem_labels_cases mc [12; 1; 2]) as [[F1 [w ->]] | [F1 ->]];
    [ destruct (getitem_labels_cases mc [3; 4; 5]) as [[F2 [sp ->]] | [F2 ->]];
      [ destruct (getitem_labels_cases mc [6; 7; 8]) as [[F3 [su ->]] | [F3 ->]];
        [ destruct (getitem_labels_cases mc [9; 10; 11]) as [[F4 [au ->]] | [F4 ->]]
        | ]
      | ]
    | ].
  - split; [ eauto | ]. intros (m & Hm & Hnot). exfalso. apply Hnot.
    apply value_counts_sorted_keys. fold mc.
    now apply (all_months_labels (fun k => k ∈ map fst mc) F1 F2 F3 F4).
  - split; [ | reflexivity ]. intros Hall. exfalso. apply F4.
    apply (labels_all_months (fun k => k ∈ map fst mc)). intros m Hm.
    apply value_counts_sorted_keys. auto.
  - split; [ | reflexivity ]. intros Hall. exfalso. apply F3.
    apply (labels_all_months (fun k => k ∈ map fst mc)). intros m Hm.
    apply value_counts_sorted_keys. auto.
  - split; [ | reflexivity ]. intros Hall. exfalso. apply F2.
    apply (labels_all_months (fun k => k ∈ map fst mc)). intros m Hm.
    apply value_counts_sorted_keys. auto.
  - split; [ | reflexivity ]. intros Hall. exfalso. apply F1.
    apply (labels_all_months (fun k => k ∈ map fst mc)). intros m Hm.
    apply value_counts_sorted_keys. auto.
Qed.

(** A region that passes the three gates is analyzed exactly when every
    calendar month from 1 to 12 holds at least one of its significant
    events; when some month holds none, the analyzer raises [KeyError]. *)
Theorem analyzer_outcome_after_gates data now :
  passes_gates data ->
  ((forall m, 1 <= m <= 12 -> m ∈ map month (significant_events data)) ->
   exists a, analyze_earthquake_patterns data now = Returned a)
  /\ ((exists m, 1 <= m <= 12 /\ m ∉ map month (significant_events data)) ->
      analyze_earthquake_patterns data now = Raised KeyError).
Proof.
  intros Hg. destruct (analyze_after_gates_cases data now Hg) as [Hall Hmissing].
  split.
  - intros Hmonths. now apply Hall.
  - intros Hm. now apply Hmissing.
Qed.

Lemma analyzer_outcome_after_gates_witness :
  passes_gates catalog_june
  /\ (exists m, 1 <= m <= 12 /\ m ∉ map month (significant_events catalog_june))
  /\ analyze_earthquake_patterns catalog_june sample_now = Raised KeyError.
Proof.
  assert (Hg : passes_gates catalog_june) by (vm_compute; repeat split; lia).
  assert (Hm : exists m, 1 <= m <= 12
                         /\ m ∉ map month (significant_events catalog_june)).
  { exists 1. split; [ lia | ]. vm_compute.
    intros H. repeat (apply elem_of_cons in H as [H | H]; [ discriminate H | ]).
    inversion H. }
  split; [ exact Hg | ]. split; [ exact Hm | ].
  exact (proj2 (analyzer_outcome_after_gates catalog_june sample_now Hg) Hm).
Defined.

(** Conversely, an analysis is returned only for a region that passes the
    gates and has a significant event in every calendar month; it then
    counts at least twelve significant events. *)
Theorem returned_analysis_covers_all_months data now a :
  analyze_earthquake_patterns data now = Returned a ->
  passes_gates data
  /\ (forall m, 1 <= m <= 12 -> m ∈ map month (significant_events data))
  /\ (forall m, 1 <= m <= 12 -> m ∈ map fst (monthly_distribution a))
  /\ (12 <= total_earthquakes a)%nat.
Proof.
  intros H. pose proof (analyze_returned_gates _ _ _ H) as Hg.
  assert (Hall : forall m, 1 <= m <= 12 -> m ∈ map month (significant_events data)).
  { intros m Hm.
    destruct (decide (m ∈ map month (significant_events data))) as [Hin | Hnot];
      [ exact Hin | ].
    rewrite (proj2 (analyze_after_gates_cases data now Hg)) in H;
      [ discriminate H | eauto ]. }
  split; [ exact Hg | ]. split; [ exact Hall | ].
  analyze_inv H. fold (significant_events data) in *. split.
  - intros m Hm. apply value_counts_sorted_keys. auto.
  - assert (Hsub : [1; 2; 3; 4; 5; 6; 7; 8; 9; 10; 11; 12]
                   ⊆+ map month (significant_events data)).
    { apply NoDup_submseteq.
      - repeat (constructor; [ rewrite ?elem_of_cons, ?elem_of_nil; lia | ]).
        constructor.
      - intros m Hm. apply Hall.
        repeat (apply elem_of_cons in Hm as [-> | Hm]; [ lia | ]).
        inversion Hm. }
    apply submseteq_length in Hsub. rewrite length_map in Hsub.
    simpl in Hsub. exact Hsub.
Qed.

Lemma returned_analysis_covers_all_months_witness :
  match analyze_earthquake_patterns catalog_monthly sample_now with
  | Returned a => passes_gates catalog_monthly /\ (12 <= total_earthquakes a)%nat
  | _ => False
  end.
Proof.
  destruct (analyze_earthquake_patterns catalog_monthly sample_now)
    as [a | | e] eqn:Ea; [ | vm_compute in Ea; discriminate Ea
                           | vm_compute in Ea; discriminate Ea ].
  pose proof (returned_analysis_covers_all_months catalog_monthly sample_now a Ea)
    as (H1 & _ & _ & H4).
  split; [ exact H1 | exact H4 ].
Defined.


(** Every returned analysis reports at least three intervals, each between
    30 and 7300 days, and so are their mean and their median. *)
Theorem reported_intervals_bounds data now a :
  analyze_earthquake_patterns data now = Returned a ->
  (3 <= length (time_intervals a))%nat
  /\ Forall (fun d => 30 <= d <= 7300) (time_intervals a)
  /\ (30 <= avg_interval_days a <= 7300)%Q
  /\ (30 <= median_interval_days a <= 7300)%Q.
Proof.
  intros H. pose proof (analyze_returned_gates _ _ _ H) as (_ & _ & G3).
  apply analyze_returned_intervals in H as (-> & -> & _ & ->).
  pose proof (filter_time_diffs_bounds
                (diff_days (map time (significant_events data)))) as Hb.
  fold (surviving_intervals data) in Hb.
  assert (Hne : surviving_intervals data <> [])
    by (intros E; rewrite E in G3; simpl in G3; lia).
  split; [ exact G3 | ]. split; [ exact Hb | ]. split.
  - apply pd_mean_bounds.
    + intros E. apply Hne. now destruct (surviving_intervals data).
    + apply List.Forall_map. eapply Forall_impl; [ exact Hb | ].
      simpl. intros d Hd. unfold qz. change 30%Q with (inject_Z 30).
      change 7300%Q with (inject_Z 7300). rewrite <- !Zle_Qle. exact Hd.
  - change 30%Q with (inject_Z 30). change 7300%Q with (inject_Z 7300).
    now apply pd_median_bounds.
Qed.

Lemma reported_intervals_bounds_witness :
  match analyze_earthquake_patterns catalog_monthly sample_now with
  | Returned a => (30 <= avg_interval_days a <= 7300)%Q
  | _ => False
  end.
Proof.
  destruct (analyze_earthquake_patterns catalog_monthly sample_now)
    as [a | | e] eqn:Ea; [ | vm_compute in Ea; discriminate Ea
                           | vm_compute in Ea; discriminate Ea ].
  exact (proj1 (proj2 (proj2 (reported_intervals_bounds catalog_monthly
                                sample_now a Ea)))).
Defined.

(** ** The data-quality score *)

Lemma time_max_some (l : list Event) : l <> [] -> exists m, time_max l = Some m.
Proof.
  destruct l as [ | x l]; [ congruence | intros _ ].
  unfold time_max. simpl. eauto.
Qed.

Lemma time_min_some (l : list Event) : l <> [] -> exists m, time_min l = Some m.
Proof.
  destruct l as [ | x l]; [ congruence | intros _ ].
  unfold time_min. simpl. eauto.
Qed.

(** On a non-empty set of events the data-quality score is a multiple of
    five between 35 and 100, whatever the clock; on the empty set it is
    10. *)
Theorem data_quality_score_bounds (earthquake_data : list Event) (now : Z) :
  (earthquake_data <> [] ->
   35 <= _assess_data_quality earthquake_data now <= 100
   /\ (_assess_data_quality earthquake_data now) mod 5 = 0)
  /\ _assess_data_quality [] now = 10.
Proof.
  split; [ | reflexivity ]. intros Hne. unfold _assess_data_quality.
  destruct (time_max_some _ Hne) as (mx & ->).
  destruct (time_min_some _ Hne) as (mn & ->).
  destruct earthquake_data as [ | x l]; [ congruence | ].
  repeat match goal with
         | |- context [if ?b then _ else _] => destruct b
         end; (split; [ lia | vm_compute; reflexivity ]).
Qed.

Lemma data_quality_score_bounds_witness :
  catalog_monthly <> []
  /\ 35 <= _assess_data_quality catalog_monthly sample_now <= 100.
Proof.
  assert (H : catalog_monthly <> []) by (vm_compute; discriminate).
  split; [ exact H | ].
  exact (proj1 (proj1 (data_quality_score_bounds catalog_monthly sample_now) H)).
Defined.

(** ** Magnitude, depth and season statistics *)


Lemma significant_magnitude_origin data (x : Q) :
  x ∈ map magnitude (significant_events data) ->
  exists e, e ∈ data /\ is_significant e /\ magnitude e = x.
Proof.
  intros Hx. apply list_elem_of_In, in_map_iff in Hx as (e & <- & He).
  apply list_elem_of_In in He. rewrite significant_events_perm in He.
  apply list_elem_of_filter in He as [Hsig He]. eauto.
Qed.

(** In every returned analysis the minimum and the maximum magnitude are
    magnitudes of significant events of the region, every significant
    event of the region lies between them, and 4.0 <= minimum <=
    maximum. *)
Theorem magnitude_extremes_attained data now a :
  analyze_earthquake_patterns data now = Returned a ->
  (4.0 <= min_magnitude a)%Q
  /\ (min_magnitude a <= max_magnitude a)%Q
  /\ (forall e, e ∈ data -> is_significant e ->
        (min_magnitude a <= magnitude e <= max_magnitude a)%Q)
  /\ (exists e, e ∈ data /\ is_significant e
                /\ (magnitude e == min_magnitude a)%Q)
  /\ (exists e, e ∈ data /\ is_significant e
                /\ (magnitude e == max_magnitude a)%Q).
Proof.
  intros H. pose proof (analyze_returned_magnitude_range _ _ _ H) as (H4 & Hle).
  pose proof (analyze_returned_gates _ _ _ H) as (_ & G2 & _).
  apply analyze_returned_magnitudes in H as (_ & Emax & Emin & _).
  cbv zeta in *.
  assert (Hne : map magnitude (significant_events data) <> []).
  { intros E. apply (f_equal length) in E.
    rewrite length_map, significant_events_length in E. simpl in E. lia. }
  split; [ exact H4 | ]. split; [ exact Hle | ].
  rewrite Emax, Emin. split; [ | split ].
  - intros e He Hsig.
    pose proof (pd_min_max_enclose _ Hne) as Henc.
    rewrite Forall_forall in Henc. apply Henc.
    apply list_elem_of_In, in_map, list_elem_of_In.
    rewrite significant_events_perm. apply list_elem_of_filter. auto.
  - destruct (foldr_omin_spec _ Hne) as (m & Hm & _ & Hex).
    unfold pd_min. rewrite Hm. simpl.
    apply Exists_exists in Hex as (x & Hx & Hmx).
    destruct (significant_magnitude_origin data x Hx) as (e & He & Hsig & <-).
    exists e. split; [ exact He | ]. split; [ exact Hsig | ].
    symmetry. exact Hmx.
  - destruct (foldr_omax_spec _ Hne) as (m & Hm & _ & Hex).
    unfold pd_max. rewrite Hm. simpl.
    apply Exists_exists in Hex as (x & Hx & Hmx).
    destruct (significant_magnitude_origin data x Hx) as (e & He & Hsig & <-).
    exists e. split; [ exact He | ]. split; [ exact Hsig | ].
    symmetry. exact Hmx.
Qed.

Lemma magnitude_extremes_attained_witness :
  match analyze_earthquake_patterns catalog_monthly sample_now with
  | Returned a => (4.0 <= min_magnitude a)%Q /\ (min_magnitude a <= max_magnitude a)%Q
  | _ => False
  end.
Proof.
  destruct (analyze_earthquake_patterns catalog_monthly sample_now)
    as [a | | e] eqn:Ea; [ | vm_compute in Ea; discriminate Ea
                           | vm_compute in Ea; discriminate Ea ].
  pose proof (magnitude_extremes_attained catalog_monthly sample_now a Ea)
    as (H1 & H2 & _).
  split; [ exact H1 | exact H2 ].
Defined.

Lemma length_filter_split_depth (l : list Event) :
  (length (filter (fun e => (depth e < 70)%Q) l)
   + length (filter (fun e => (70 <= depth e)%Q) l) = length l)%nat.
Proof.
  induction l as [ | e l IH]; [ reflexivity | ].
  rewrite !filter_cons.
  destruct (decide (depth e < 70)%Q) as [H1 | H1];
    destruct (decide (70 <= depth e)%Q) as [H2 | H2]; simpl; try lia.
  - exfalso. apply (Qlt_not_le _ _ H1 H2).
  - exfalso. apply H2. now apply Qnot_lt_le.
Qed.

Lemma seasonal_peak_largest (w sp su au : Z) :
  let d := [(winter, w); (spring, sp); (summer, su); (autumn, au)] in
  w <= dict_get d (max_by_value d) /\ sp <= dict_get d (max_by_value d)
  /\ su <= dict_get d (max_by_value d) /\ au <= dict_get d (max_by_value d).
Proof.
  cbv zeta. unfold max_by_value. simpl fold_left.
  destruct (w <? sp) eqn:E1; simpl snd;
    [ destruct (sp <? su) eqn:E2 | destruct (w <? su) eqn:E2 ]; simpl snd;
    [ destruct (su <? au) eqn:E3 | destruct (sp <? au) eqn:E3
    | destruct (su <? au) eqn:E3 | destruct (w <? au) eqn:E3 ];
    vm_compute dict_get;
    rewrite ?Z.ltb_lt, ?Z.ltb_ge in *; lia.
Qed.

Lemma Qdiv_at_least (a b c : Z) :
  0 < b -> 0 < c -> b <= c * a -> (1 # Z.to_pos c <= inject_Z a / inject_Z b)%Q.
Proof.
  intros Hb Hc H.
  assert (Hb' : (0 < inject_Z b)%Q)
    by (change 0%Q with (inject_Z 0); now rewrite <- Zlt_Qlt).
  apply Qle_shift_div_l; [ exact Hb' | ].
  destruct c as [ | c | c]; try lia.
  unfold Qle, Qmult, inject_Z. cbn [Qnum Qden Z.to_pos]. lia.
Qed.

(** In every returned analysis each significant event is counted as
    shallow or as deep, the depth consistency is at least one half and the
    seasonal consistency at least one quarter. *)
Theorem depth_and_season_shares data now a :
  analyze_earthquake_patterns data now = Returned a ->
  (shallow_count a + deep_count a = total_earthquakes a)%nat
  /\ (1 # 2 <= depth_consistency (consistency_metrics a))%Q
  /\ (1 # 4 <= seasonal_consistency (consistency_metrics a))%Q
  /\ seasonal_consistency (consistency_metrics a) = seasonal_confidence a.
Proof.
  intros H. pose proof (analyze_returned_gates _ _ _ H) as (_ & G2 & _).
  analyze_inv H. fold (significant_events data) in *.
  pose proof (length_filter_split_depth (significant_events data)) as Hsplit.
  pose proof (significant_events_length data) as Hlen.
  split; [ exact Hsplit | ]. split; [ | split; [ | reflexivity ] ].
  - rewrite fl_eq. unfold qn. apply (Qdiv_at_least _ _ 2); lia.
  - pose proof (value_counts_sorted_nonneg (map month (significant_events data))) as Hvc.
    pose proof (getitem_labels_nonneg _ _ _ Hvc Hw) as Hw0.
    pose proof (getitem_labels_nonneg _ _ _ Hvc Hsp) as Hsp0.
    pose proof (getitem_labels_nonneg _ _ _ Hvc Hsu) as Hsu0.
    pose proof (getitem_labels_nonneg _ _ _ Hvc Hau) as Hau0.
    pose proof (seasonal_peak_largest (sumZ w) (sumZ sp) (sumZ su) (sumZ au))
      as (P1 & P2 & P3 & P4).
    cbv zeta in P1, P2, P3, P4.
    set (pk := dict_get _ _) in *. clearbody pk.
    match goal with
    | |- context [0 <? ?t] => destruct (0 <? t) eqn:E
    end; [ | discriminate ].
    apply Z.ltb_lt in E. rewrite fl_eq. unfold qz.
    apply (Qdiv_at_least _ _ 4); [ exact E | lia | ].
    simpl sumZ. simpl sumZ in E. lia.
Qed.

Lemma depth_and_season_shares_witness :
  match analyze_earthquake_patterns catalog_monthly sample_now with
  | Returned a => (shallow_count a + deep_count a = total_earthquakes a)%nat
  | _ => False
  end.
Proof.
  destruct (analyze_earthquake_patterns catalog_monthly sample_now)
    as [a | | e] eqn:Ea; [ | vm_compute in Ea; discriminate Ea
                           | vm_compute in Ea; discriminate Ea ].
  exact (proj1 (depth_and_season_shares catalog_monthly sample_now a Ea)).
Defined.

(** The reference instant of a returned analysis is the time of the latest
    significant event of the region. *)
Theorem last_major_is_latest_significant data now a :
  analyze_earthquake_patterns data now = Returned a ->
  exists e,
    last_major_earthquake a = Some (time e)
    /\ e ∈ data /\ is_significant e
    /\ forall e', e' ∈ data -> is_significant e' -> time e' <= time e.
Proof.
  intros H. pose proof (analyze_returned_gates _ _ _ H) as (_ & G2 & _).
  analyze_inv H. fold (significant_events data) in *.
  destruct (iloc_last (significant_events data)) as [e | ] eqn:El.
  - exists e. simpl. split; [ reflexivity | ].
    unfold iloc_last in El. pose proof (last_Some_elem_of _ _ El) as Hin.
    rewrite significant_events_perm in Hin.
    apply list_elem_of_filter in Hin as [Hsig Hin].
    split; [ exact Hin | ]. split; [ exact Hsig | ].
    intros e' Hin' Hsig'.
    apply (StronglySorted_last_greatest (significant_events data) e).
    + apply sort_values_time_sorted.
    + exact El.
    + rewrite significant_events_perm. apply list_elem_of_filter. auto.
  - unfold iloc_last in El. apply last_None in El.
    apply (f_equal length) in El. rewrite significant_events_length in El.
    simpl in El. lia.
Qed.

Lemma last_major_is_latest_significant_witness :
  match analyze_earthquake_patterns catalog_monthly sample_now with
  | Returned a => exists e, last_major_earthquake a = Some (time e) /\ e ∈ catalog_monthly
  | _ => False
  end.
Proof.
  destruct (analyze_earthquake_patterns catalog_monthly sample_now)
    as [a | | e] eqn:Ea; [ | vm_compute in Ea; discriminate Ea
                           | vm_compute in Ea; discriminate Ea ].
  destruct (last_major_is_latest_significant catalog_monthly sample_now a Ea)
    as (e & H1 & H2 & _).
  exists e. split; [ exact H1 | exact H2 ].
Defined.

(** ** Loading the catalog *)

Lemma drop_duplicates_length (l : list Event) :
  (length (drop_duplicates l) <= length l)%nat.
Proof.
  induction l as [ | x l IH]; simpl; [ lia | ].
  pose proof (length_filter (fun y => ~ same_row x y) (drop_duplicates l)). lia.
Qed.

Lemma fetch_recent_members last response recent e :
  _fetch_recent_earthquakes last response = Some recent -> e ∈ recent ->
  exists latest fs f,
    last = Some latest /\ response = Some fs /\ f ∈ fs
    /\ e = record_of_feature f /\ latest < time e.
Proof.
  unfold _fetch_recent_earthquakes.
  destruct last as [latest | ]; [ | discriminate ].
  destruct response as [fs | ]; [ | discriminate ].
  assert (Hcases : fs = [] \/ exists f0 fs', fs = f0 :: fs')
    by (destruct fs; eauto).
  destruct Hcases as [-> | (f0 & fs' & Efs)]; [ discriminate | ].
  replace (match fs with [] => None | _ :: _ => Some (filter (fun r => latest < time r) (map record_of_feature fs)) end)
    with (Some (filter (fun r => latest < time r) (map record_of_feature fs)))
    by (now rewrite Efs).
  intros [= <-] He. apply list_elem_of_filter in He as [Hlate He].
  apply list_elem_of_In, in_map_iff in He as (f & <- & Hf).
  exists latest, fs, f. rewrite list_elem_of_In. auto.
Qed.

Lemma load_data_members csv response data e :
  load_data csv response = Some data -> e ∈ data ->
  (exists rows r, csv = Some rows /\ r ∈ rows /\ e = set_year_month r)
  \/ (exists fs f, response = Some fs /\ f ∈ fs /\ e = record_of_feature f).
Proof.
  unfold load_data. destruct csv as [rows | ]; [ | discriminate ].
  assert (Hfile : e ∈ map set_year_month rows ->
                  exists rows' r, Some rows = Some rows' /\ r ∈ rows'
                                  /\ e = set_year_month r).
  { intros He. apply list_elem_of_In, in_map_iff in He as (r & <- & Hr).
    exists rows, r. rewrite list_elem_of_In. auto. }
  destruct (_fetch_recent_earthquakes _ response) as [recent | ] eqn:Hf.
  - destruct (0 <? length recent)%nat.
    + intros [= <-] He. apply drop_duplicates_subset in He.
      rewrite sort_values_time_perm in He.
      apply elem_of_app in He as [He | He]; [ left; auto | right ].
      destruct (fetch_recent_members _ _ _ _ Hf He)
        as (latest & fs & f & _ & -> & Hin & -> & _).
      eauto.
    + intros [= <-] He. left; auto.
  - intros [= <-] He. left; auto.
Qed.

(** Every row of a loaded catalog, whether it comes from the file or from
    the live feed, carries the year and the month of its own time, and its
    month is one of 1..12. *)
Theorem load_data_derived_columns csv response data :
  load_data csv response = Some data ->
  Forall (fun e => derived_columns e /\ 1 <= month e <= 12) data.
Proof.
  intros H. apply Forall_forall. intros e He.
  assert (Hd : derived_columns e).
  { destruct (load_data_members _ _ _ _ H He)
      as [(rows & r & _ & _ & ->) | (fs & f & _ & _ & ->)]; split; reflexivity. }
  split; [ exact Hd | ]. destruct Hd as [_ ->]. apply dt_month_range.
Qed.

Lemma load_data_derived_columns_witness :
  Forall (fun e => derived_columns e /\ 1 <= month e <= 12)
         (map set_year_month rows_latest_first).
Proof.
  apply (load_data_derived_columns (Some rows_latest_first) None).
  reflexivity.
Defined.

(** Loading fails only when the catalog file is missing.  Whatever the feed
    answers, every row of the file is represented in the loaded catalog;
    when the request fails or the feed lists no event, the loaded catalog
    is exactly the file's rows, in the file's order. *)
Theorem load_data_survives_feed (csv : option (list Event))
    (response : option (list Feature)) :
  (load_data csv response = None <-> csv = None)
  /\ forall rows, csv = Some rows ->
       exists data,
         load_data csv response = Some data
         /\ (forall r, r ∈ rows ->
               exists e, e ∈ data /\ same_row e (set_year_month r))
         /\ (length data <= length rows + length (default [] response))%nat
         /\ (response = None \/ response = Some [] ->
             data = map set_year_month rows).
Proof.
  split.
  - unfold load_data. destruct csv as [rows | ]; [ | tauto ].
    destruct (_fetch_recent_earthquakes _ response) as [recent | ];
      [ destruct (0 <? length recent)%nat | ]; split; discriminate.
  - intros rows ->. unfold load_data.
    assert (Hself : forall r, r ∈ rows ->
              exists e, e ∈ map set_year_month rows /\ same_row e (set_year_month r)).
    { intros r Hr. exists (set_year_month r). split; [ | apply same_row_refl ].
      apply list_elem_of_In, in_map, list_elem_of_In, Hr. }
    destruct (_fetch_recent_earthquakes _ response) as [recent | ] eqn:Hf.
    + assert (Hrecent : (length recent <= length (default [] response))%nat
                        /\ response <> None /\ response <> Some []).
      { unfold _fetch_recent_earthquakes in Hf.
        destruct (time_max _); [ | discriminate ].
        destruct response as [fs | ]; [ | discriminate ].
        destruct fs as [ | f0 fs']; [ discriminate | ].
        injection Hf as <-. split; [ | split; discriminate ].
        etransitivity; [ apply length_filter | ].
        change (length (map record_of_feature (f0 :: fs')) <= length (f0 :: fs'))%nat.
        now rewrite length_map. }
      destruct Hrecent as (Hlen & Hn1 & Hn2).
      destruct (0 <? length recent)%nat.
      * eexists. split; [ reflexivity | ]. split; [ | split ].
        -- intros r Hr. apply drop_duplicates_represents.
           rewrite sort_values_time_perm. apply elem_of_app. left.
           apply list_elem_of_In, in_map, list_elem_of_In, Hr.
        -- etransitivity; [ apply drop_duplicates_length | ].
           rewrite sort_values_time_perm, length_app, length_map. lia.
        -- intros [E | E]; contradiction.
      * eexists. split; [ reflexivity | ]. split; [ exact Hself | ].
        split; [ rewrite length_map; lia | reflexivity ].
    + eexists. split; [ reflexivity | ]. split; [ exact Hself | ].
      split; [ rewrite length_map; lia | reflexivity ].
Qed.

Lemma load_data_survives_feed_witness :
  exists data,
    load_data (Some rows_latest_first) None = Some data
    /\ data = map set_year_month rows_latest_first.
Proof.
  destruct (proj2 (load_data_survives_feed (Some rows_latest_first) None)
              rows_latest_first eq_refl) as (data & Hd & _ & _ & Hsame).
  exists data. split; [ exact Hd | ]. apply Hsame. now left.
Defined.

(** ** Selecting a region *)

(** For a registered region, the selection holds exactly the catalog rows
    inside the region's box (borders included), each as often as in the
    catalog, in ascending order of time. *)
Theorem filter_country_data_selects data country coords :
  lookup_country country COUNTRY_COORDS = Some coords ->
  filter_country_data data country ≡ₚ filter (in_box coords) data
  /\ (forall e, e ∈ filter_country_data data country <-> in_box coords e /\ e ∈ data)
  /\ StronglySorted time_le (filter_country_data data country)
  /\ (length (filter_country_data data country) <= length data)%nat.
Proof.
  intros Hc.
  assert (Hp : filter_country_data data country ≡ₚ filter (in_box coords) data).
  { unfold filter_country_data. rewrite Hc. apply sort_values_time_perm. }
  split; [ exact Hp | ]. split; [ | split ].
  - intros e. rewrite Hp. apply list_elem_of_filter.
  - apply filter_country_data_sorted.
  - rewrite Hp. apply length_filter.
Qed.

Lemma filter_country_data_selects_witness :
  lookup_country "India" COUNTRY_COORDS = Some (region 8 37 68 97 "India")
  /\ filter_country_data catalog_quiet "India"
     ≡ₚ filter (in_box (region 8 37 68 97 "India")) catalog_quiet.
Proof.
  split; [ reflexivity | ].
  exact (proj1 (filter_country_data_selects catalog_quiet "India"
                  (region 8 37 68 97 "India") eq_refl)).
Defined.

(** A name that is not in the registry selects no row: the summary and the
    analysis of such a region are both [None], whatever the catalog holds,
    and no forecast is ever returned for it, whatever analysis is passed. *)
Theorem unregistered_region_yields_nothing data country now :
  lookup_country country COUNTRY_COORDS = None ->
  filter_country_data data country = []
  /\ get_recent_earthquake_summary data country now = None
  /\ analyze_earthquake_patterns (filter_country_data data country) now
     = ReturnedNone
  /\ forall a rng f,
       predict_next_earthquake country (Some a) now rng <> Returned f.
Proof.
  intros Hc.
  assert (Hf : filter_country_data data country = [])
    by (unfold filter_country_data; now rewrite Hc).
  split; [ exact Hf | ]. split; [ | split ].
  - unfold get_recent_earthquake_summary. now rewrite Hf.
  - rewrite Hf. reflexivity.
  - intros a rng f H. unfold predict_next_earthquake in H.
    destruct (last_major_earthquake a); [ | discriminate ].
    unfold mbind, outcome_bind in H.
    destruct (snap_to_peak _ _ _ _); [ | discriminate | discriminate ].
    destruct (uncertainty_window _ _ _ _) as [e [s en]].
    rewrite Hc in H. discriminate.
Qed.

Lemma unregistered_region_yields_nothing_witness :
  filter_country_data catalog_monthly "Atlantis" = [].
Proof.
  exact (proj1 (unregistered_region_yields_nothing catalog_monthly "Atlantis"
                  sample_now eq_refl)).
Defined.

(** ** The recent-activity summary *)

Lemma StronglySorted_last_filter (P : Event -> Prop)
    `{forall x, Decision (P x)} (l : list Event) (x : Event) :
  StronglySorted time_le l -> last (filter P l) = Some x ->
  x ∈ l /\ P x /\ forall y, y ∈ l -> P y -> time y <= time x.
Proof.
  intros Hs Hl. pose proof (last_Some_elem_of _ _ Hl) as Hin.
  apply list_elem_of_filter in Hin as [HP Hin].
  split; [ exact Hin | ]. split; [ exact HP | ].
  intros y Hy HPy.
  apply (StronglySorted_last_greatest (filter P l) x);
    [ now apply StronglySorted_filter_keep | exact Hl | ].
  apply list_elem_of_filter. auto.
Qed.

(** In a returned summary the count of significant recent events is at most
    the count of recent events, which is at most the size of the region's
    selection.  The latest event reported, when there is one, is the most
    recent row of the whole region; it is at most 365 days old, and the
    summary reports no latest event exactly when it counts no recent
    event. *)
Theorem summary_counts_and_latest data country now s :
  get_recent_earthquake_summary data country now = Some s ->
  let country_data := filter_country_data data country in
  (significant_recent s <= total_recent s <= length country_data)%nat
  /\ (latest_earthquake s = None <-> total_recent s = 0%nat)
  /\ forall latest,
       latest_earthquake s = Some latest ->
       latest ∈ country_data
       /\ (forall e, e ∈ country_data -> time e <= time latest)
       /\ days_since_latest s = Some (days_between now (time latest))
       /\ days_between now (time latest) <= 365.
Proof.
  cbv zeta. unfold get_recent_earthquake_summary.
  pose proof (filter_country_data_sorted data country) as Hsorted.
  set (cd := filter_country_data data country) in *.
  destruct cd as [ | c0 cd'] eqn:Ecd; [ discriminate | ].
  rewrite <- Ecd in *. clear Ecd.
  set (recent := filter (fun e => now - 365 * us_per_day <= time e) cd).
  destruct (iloc_last recent) as [latest | ] eqn:El.
  - intros [= <-]. simpl.
    pose proof (length_filter is_significant recent).
    pose proof (length_filter (fun e => now - 365 * us_per_day <= time e) cd)
      as Hlen. fold recent in Hlen.
    split; [ lia | ]. split.
    + split; [ discriminate | ]. intros H0. unfold iloc_last in El.
      apply last_Some_elem_of in El. destruct recent; [ inversion El | discriminate ].
    + intros l [= <-]. unfold iloc_last, recent in El.
      destruct (StronglySorted_last_filter _ _ _ Hsorted El)
        as (Hin & Hwin & Hmax).
      split; [ exact Hin | ]. split; [ | split; [ reflexivity | ] ].
      * intros e He.
        destruct (decide (now - 365 * us_per_day <= time e)) as [Hw | Hw];
          [ now apply Hmax | lia ].
      * unfold days_between, us_per_day in *. Z.div_mod_to_equations. lia.
  - intros [= <-]. simpl. split; [ lia | ]. split; [ tauto | discriminate ].
Qed.

Lemma summary_counts_and_latest_witness :
  match get_recent_earthquake_summary catalog_quiet "India" sample_now with
  | Some s => (significant_recent s <= total_recent s)%nat
  | None => False
  end.
Proof.
  destruct (get_recent_earthquake_summary catalog_quiet "India" sample_now)
    as [s | ] eqn:Es; [ | vm_compute in Es; discriminate Es ].
  exact (proj1 (proj1 (summary_counts_and_latest catalog_quiet "India" sample_now s Es))).
Defined.

(** ** Peak months, and the forecast of a returned analysis *)

Lemma first_largest_cases (l : list (Z * Z)) :
  (l = [] /\ first_largest l = None)
  \/ (exists m, first_largest l = Some m /\ m ∈ l).
Proof.
  induction l as [ | x l IH]; [ now left | right ].
  simpl. destruct IH as [[-> ->] | (m & -> & Hm)].
  - exists x. split; [ reflexivity | left ].
  - destruct (snd m <=? snd x).
    + exists x. split; [ reflexivity | left ].
    + exists m. split; [ reflexivity | now right ].
Qed.

Lemma nlargest_subset (n : nat) (l : list (Z * Z)) (x : Z * Z) :
  x ∈ nlargest n l -> x ∈ l.
Proof.
  revert l. induction n as [ | n IH]; intros l; simpl; [ inversion 1 | ].
  destruct (first_largest_cases l) as [[_ ->] | (m & -> & Hm)]; [ inversion 1 | ].
  rewrite elem_of_cons. intros [-> | H]; [ exact Hm | ].
  apply IH in H. now apply list_elem_of_filter in H as [_ H].
Qed.

Lemma nlargest_nonempty (n : nat) (l : list (Z * Z)) :
  l <> [] -> nlargest (S n) l <> [].
Proof.
  intros Hl. simpl.
  destruct (first_largest_cases l) as [[-> _] | (m & -> & _)];
    [ contradiction | discriminate ].
Qed.

Lemma analyze_returned_peak_months data now a :
  analyze_earthquake_patterns data now = Returned a ->
  peak_months a <> []
  /\ forall m, m ∈ peak_months a -> m ∈ map month (significant_events data).
Proof.
  intros H.
  pose proof (analyze_returned_gates _ _ _ H) as (_ & G2 & _).
  analyze_inv H. fold (significant_events data) in *.
  set (mc := value_counts_sorted (map month (significant_events data))) in *.
  assert (Hmc : mc <> []).
  { intros E. rewrite E in Hw. discriminate Hw. }
  assert (Hkeys : forall x, x ∈ mc -> fst x ∈ map month (significant_events data)).
  { intros x Hx. apply value_counts_sorted_keys. fold mc.
    apply list_elem_of_In, in_map, list_elem_of_In, Hx. }
  match goal with
  | |- context [if ?b then [] else ?l] => set (pm := if b then [] else l)
  end.
  assert (Hpm : forall m, m ∈ pm -> m ∈ map month (significant_events data)).
  { intros m Hm. unfold pm in Hm. destruct (length mc <? 2)%nat; [ inversion Hm | ].
    apply list_elem_of_In, in_map_iff in Hm as (x & <- & Hx).
    apply list_elem_of_In, list_elem_of_filter in Hx as [_ Hx]. auto. }
  destruct pm as [ | p0 pm'] eqn:Epm.
  - split.
    + intros E. apply map_eq_nil in E. now apply (nlargest_nonempty 2 mc).
    + intros m Hm. apply list_elem_of_In, in_map_iff in Hm as (x & <- & Hx).
      apply list_elem_of_In in Hx. apply (nlargest_subset 3 mc x) in Hx. auto.
  - split; [ discriminate | exact Hpm ].
Qed.

Lemma significant_events_months data (P : Z -> Prop) :
  Forall (fun e => P (month e)) data ->
  forall m, m ∈ map month (significant_events data) -> P m.
Proof.
  intros Hall m Hm. apply list_elem_of_In, in_map_iff in Hm as (e & <- & He).
  apply list_elem_of_In in He. rewrite significant_events_perm in He.
  apply list_elem_of_filter in He as [_ He].
  rewrite Forall_forall in Hall. now apply Hall.
Qed.

Lemma snap_to_peak_returns expected_date peak_months wi now :
  (forall m, m ∈ peak_months -> 1 <= m <= 12) ->
  exists e, snap_to_peak expected_date peak_months wi now = Returned e.
Proof.
  intros Hpm. unfold snap_to_peak.
  destruct (negb _ && _) eqn:Hcond; [ | eauto ].
  apply andb_prop in Hcond as [_ Hlen].
  destruct peak_months as [ | p0 pm']; [ discriminate Hlen | ].
  assert (Hp0 : 1 <= p0 <= 12) by (apply Hpm; left).
  unfold replace_ym15. simpl hd.
  replace ((1 <=? p0) && (p0 <=? 12)) with true
    by (symmetry; apply andb_true_intro; split; lia).
  unfold mbind, outcome_bind.
  destruct (_ && _); [ eauto | ]. destruct (Qltb _ _); eauto.
Qed.

Lemma predict_returns_when_snap_returns country coords a last now rng :
  last_major_earthquake a = Some last ->
  lookup_country country COUNTRY_COORDS = Some coords ->
  (forall m, m ∈ peak_months a -> 1 <= m <= 12) ->
  exists f, predict_next_earthquake country (Some a) now rng = Returned f.
Proof.
  intros Hlast Hc Hpm. unfold predict_next_earthquake. rewrite Hlast.
  destruct (snap_to_peak_returns
              (project_forward last (weighted_interval_of a) now)
              (peak_months a) (weighted_interval_of a) now Hpm) as (e1 & ->).
  unfold mbind, outcome_bind.
  destruct (uncertainty_window _ _ _ _) as [e [s en]]. rewrite Hc. eauto.
Qed.

Lemma analyze_returned_last data now a :
  analyze_earthquake_patterns data now = Returned a ->
  exists last, last_major_earthquake a = Some last.
Proof.
  intros H. pose proof (analyze_returned_gates _ _ _ H) as (_ & G2 & _).
  analyze_inv H. fold (significant_events data) in *.
  destruct (iloc_last (significant_events data)) as [e | ] eqn:El; [ simpl; eauto | ].
  unfold iloc_last in El. apply last_None in El.
  apply (f_equal length) in El. rewrite significant_events_length in El.
  simpl in El. lia.
Qed.

(** The peak months of a returned analysis are never empty, and each of
    them is the month of a significant event of the region.  When the rows
    carry months of 1..12, a forecast asked for a registered region from
    that analysis is always returned: it is neither [None] nor an
    exception, at any clock reading and for any random draws. *)
Theorem forecast_returned_for_analysis data t0 a country coords now rng :
  analyze_earthquake_patterns data t0 = Returned a ->
  Forall (fun e => 1 <= month e <= 12) data ->
  lookup_country country COUNTRY_COORDS = Some coords ->
  peak_months a <> []
  /\ (forall m, m ∈ peak_months a ->
        exists e, e ∈ data /\ is_significant e /\ month e = m)
  /\ exists f, predict_next_earthquake country (Some a) now rng = Returned f.
Proof.
  intros H Hmonths Hc.
  destruct (analyze_returned_peak_months _ _ _ H) as [Hne Hsub].
  destruct (analyze_returned_last _ _ _ H) as (last & Hlast).
  split; [ exact Hne | ]. split.
  - intros m Hm. apply Hsub in Hm.
    apply list_elem_of_In, in_map_iff in Hm as (e & <- & He).
    apply list_elem_of_In in He. rewrite significant_events_perm in He.
    apply list_elem_of_filter in He as [Hsig He]. eauto.
  - apply (predict_returns_when_snap_returns country coords a last); auto.
    intros m Hm. apply Hsub in Hm.
    now apply (significant_events_months data (fun m => 1 <= m <= 12)).
Qed.

Lemma forecast_returned_for_analysis_witness :
  exists a f,
    analyze_earthquake_patterns catalog_monthly sample_now = Returned a
    /\ predict_next_earthquake "India" (Some a) sample_now (sample_rng 0) = Returned f.
Proof.
  destruct (analyze_earthquake_patterns catalog_monthly sample_now)
    as [a | | e] eqn:Ea; [ | vm_compute in Ea; discriminate Ea
                           | vm_compute in Ea; discriminate Ea ].
  assert (Hm : Forall (fun e => 1 <= month e <= 12) catalog_monthly)
    by (repeat constructor; vm_compute; discriminate).
  destruct (forecast_returned_for_analysis catalog_monthly sample_now a "India"
              (region 8 37 68 97 "India") sample_now (sample_rng 0) Ea Hm eq_refl)
    as (_ & _ & f & Hf).
  exists a, f. split; [ reflexivity | exact Hf ].
Defined.

(** End to end: for a catalog produced by [load_data], once the analysis of
    a region's selection is returned, the forecast for that region is
    returned as well; the only exception the chain
    [filter_country_data], [analyze_earthquake_patterns],
    [predict_next_earthquake] can raise is the analyzer's. *)
Theorem loaded_catalog_forecast_returned csv response data country t0 a now rng :
  load_data csv response = Some data ->
  analyze_earthquake_patterns (filter_country_data data country) t0 = Returned a ->
  exists coords f,
    lookup_country country COUNTRY_COORDS = Some coords
    /\ predict_next_earthquake country (Some a) now rng = Returned f.
Proof.
  intros Hload H.
  destruct (lookup_country country COUNTRY_COORDS) as [coords | ] eqn:Hc.
  - exists coords.
    destruct (analyze_returned_peak_months _ _ _ H) as [_ Hsub].
    destruct (analyze_returned_last _ _ _ H) as (last & Hlast).
    destruct (predict_returns_when_snap_returns country coords a last now rng
                Hlast Hc) as (f & Hf); [ | eauto ].
    intros m Hm. apply Hsub in Hm.
    apply (significant_events_months (filter_country_data data country)
             (fun m => 1 <= m <= 12)); [ | exact Hm ].
    apply Forall_forall. intros e He.
    unfold filter_country_data in He. rewrite Hc in He.
    rewrite sort_values_time_perm in He.
    apply list_elem_of_filter in He as [_ He].
    pose proof (load_data_members _ _ _ _ Hload He)
      as [(rows & r & _ & _ & ->) | (fs & f & _ & _ & ->)];
      apply dt_month_range.
  - unfold filter_country_data in H. rewrite Hc in H. discriminate H.
Qed.

Lemma loaded_catalog_forecast_returned_witness :
  exists a coords f,
    analyze_earthquake_patterns
      (filter_country_data (map set_year_month catalog_monthly) "India") sample_now
    = Returned a
    /\ lookup_country "India" COUNTRY_COORDS = Some coords
    /\ predict_next_earthquake "India" (Some a) sample_now (sample_rng 0) = Returned f.
Proof.
  destruct (analyze_earthquake_patterns
              (filter_country_data (map set_year_month catalog_monthly) "India")
              sample_now)
    as [a | | e] eqn:Ea; [ | vm_compute in Ea; discriminate Ea
                           | vm_compute in Ea; discriminate Ea ].
  destruct (loaded_catalog_forecast_returned (Some catalog_monthly) None
              (map set_year_month catalog_monthly) "India" sample_now a
              sample_now (sample_rng 0) eq_refl Ea) as (coords & f & Hc & Hf).
  exists a, coords, f. auto.
Defined.

(** ** The remaining fields of a forecast *)

Lemma predict_returned_fields country analysis now rng f :
  predict_next_earthquake country analysis now rng = Returned f ->
  exists a last coords,
    analysis = Some a
    /\ last_major_earthquake a = Some last
    /\ lookup_country country COUNTRY_COORDS = Some coords
    /\ estimated_coordinates f
       = (py_round (random_uniform (uniform_lat rng) (fst (lat_range coords))
                      (snd (lat_range coords))) 2,
          py_round (random_uniform (uniform_lon rng) (fst (lon_range coords))
                      (snd (lon_range coords))) 2)
    /\ estimated_depth f
       = py_round (if (deep_count a <? shallow_count a)%nat
                   then random_uniform (uniform_depth rng) 5 70
                   else random_uniform (uniform_depth rng) 70 200) 1
    /\ confidence_breakdown f = confidence_factors_of a (days_between now last)
    /\ confidence_penalties f = penalties_of a (days_between now last)
    /\ days_since_last f = days_between now last
    /\ peak_risk_months f = peak_months a
    /\ risk_level f = _calculate_risk_level (predicted_magnitude f).
Proof.
  unfold predict_next_earthquake. intros H.
  destruct analysis as [a | ]; [ | discriminate ].
  destruct (last_major_earthquake a) as [last | ] eqn:Hlast; [ | discriminate ].
  unfold mbind, outcome_bind in H.
  destruct (snap_to_peak _ _ _ _) as [e1 | | ] eqn:Hsnap;
    [ | discriminate | discriminate ].
  destruct (uncertainty_window e1 a (weighted_interval_of a) now)
    as [e [s en]] eqn:Hwin.
  destruct (lookup_country country COUNTRY_COORDS) as [coords | ];
    [ | discriminate ].
  injection H as <-. exists a, last, coords. simpl. auto 12.
Qed.

Section Location.

Local Open Scope Q_scope.

Lemma pow10_pos (nd : nat) : 0 < inject_Z (10 ^ Z.of_nat nd).
Proof.
  change 0 with (inject_Z 0). rewrite <- Zlt_Qlt.
  apply Z.pow_pos_nonneg; lia.
Qed.

Lemma py_round_between (lo hi : Z) (x : Q) (nd : nat) :
  inject_Z lo <= x <= inject_Z hi ->
  inject_Z lo <= py_round x nd <= inject_Z hi.
Proof.
  intros [Hlo Hhi]. unfold py_round. rewrite fl_eq.
  pose proof (pow10_pos nd) as Hp. set (p := (10 ^ Z.of_nat nd)%Z) in *.
  assert (H1 : inject_Z (lo * p) <= x * inject_Z p).
  { rewrite inject_Z_mult. apply Qmult_le_compat_r; lra. }
  assert (H2 : x * inject_Z p <= inject_Z (hi * p)).
  { rewrite inject_Z_mult. apply Qmult_le_compat_r; lra. }
  apply round_half_even_lower in H1. apply round_half_even_upper in H2.
  rewrite Zle_Qle, inject_Z_mult in H1. rewrite Zle_Qle, inject_Z_mult in H2.
  split.
  - apply Qle_shift_div_l; [ exact Hp | exact H1 ].
  - apply Qle_shift_div_r; [ exact Hp | exact H2 ].
Qed.

Lemma random_uniform_between (u a b : Q) :
  0 <= u <= 1 -> a <= b -> a <= random_uniform u a b <= b.
Proof. intros [H0 H1] Hab. unfold random_uniform. split; nra. Qed.

Lemma registry_boxes :
  Forall (fun kr =>
            exists la0 la1 lo0 lo1,
              lat_range (snd kr) = (inject_Z la0, inject_Z la1)
              /\ lon_range (snd kr) = (inject_Z lo0, inject_Z lo1)
              /\ (la0 < la1)%Z /\ (lo0 < lo1)%Z
              /\ (-90 <= la0)%Z /\ (la1 <= 90)%Z
              /\ (-180 <= lo0)%Z /\ (lo1 <= 180)%Z)
         COUNTRY_COORDS.
Proof.
  unfold COUNTRY_COORDS.
  repeat (constructor;
          [ unfold region; simpl; do 4 eexists;
            repeat split; try reflexivity; lia | ]).
  constructor.
Qed.

Lemma lookup_country_elem c l r :
  lookup_country c l = Some r -> (c, r) ∈ l.
Proof.
  induction l as [ | [k r'] l IH]; simpl; [ discriminate | ].
  destruct (decide (c = k)) as [-> | _].
  - intros [= ->]. left.
  - intros H. right. auto.
Qed.

End Location.

(** When the three uniform draws lie in [[0, 1]], the estimated
    coordinates of a returned forecast, after rounding to two decimals,
    lie inside the box of the region asked for, and so inside the ranges
    of latitude and longitude; the estimated depth lies in 5..70 km when
    shallow events outnumber deep ones and in 70..200 km otherwise. *)
Theorem estimated_location_in_region country analysis now rng f :
  predict_next_earthquake country analysis now rng = Returned f ->
  (0 <= uniform_lat rng <= 1)%Q -> (0 <= uniform_lon rng <= 1)%Q ->
  (0 <= uniform_depth rng <= 1)%Q ->
  exists a coords,
    analysis = Some a
    /\ lookup_country country COUNTRY_COORDS = Some coords
    /\ (fst (lat_range coords) <= fst (estimated_coordinates f)
        <= snd (lat_range coords))%Q
    /\ (fst (lon_range coords) <= snd (estimated_coordinates f)
        <= snd (lon_range coords))%Q
    /\ (-90 <= fst (estimated_coordinates f) <= 90)%Q
    /\ (-180 <= snd (estimated_coordinates f) <= 180)%Q
    /\ ((deep_count a < shallow_count a)%nat ->
        (5 <= estimated_depth f <= 70)%Q)
    /\ ((shallow_count a <= deep_count a)%nat ->
        (70 <= estimated_depth f <= 200)%Q).
Proof.
  intros H Hlat Hlon Hdep.
  apply predict_returned_fields in H
    as (a & last & coords & -> & _ & Hc & Hxy & Hd & _).
  exists a, coords. split; [ reflexivity | ]. split; [ exact Hc | ].
  pose proof registry_boxes as Hboxes. rewrite Forall_forall in Hboxes.
  destruct (Hboxes _ (lookup_country_elem _ _ _ Hc))
    as (la0 & la1 & lo0 & lo1 & Ela & Elo & Hla & Hlo & B1 & B2 & B3 & B4).
  simpl in Ela, Elo. rewrite Hxy, Hd, Ela, Elo. simpl fst. simpl snd.
  assert (Hqla : (inject_Z la0 <= inject_Z la1)%Q) by (rewrite <- Zle_Qle; lia).
  assert (Hqlo : (inject_Z lo0 <= inject_Z lo1)%Q) by (rewrite <- Zle_Qle; lia).
  pose proof (py_round_between la0 la1 _ 2
                (random_uniform_between _ _ _ Hlat Hqla)) as Rla.
  pose proof (py_round_between lo0 lo1 _ 2
                (random_uniform_between _ _ _ Hlon Hqlo)) as Rlo.
  rewrite Zle_Qle in B1, B2, B3, B4.
  split; [ exact Rla | ]. split; [ exact Rlo | ].
  split; [ change (-90)%Q with (inject_Z (-90)); change 90%Q with (inject_Z 90);
           split; lra | ].
  split; [ change (-180)%Q with (inject_Z (-180)); change 180%Q with (inject_Z 180);
           split; lra | ].
  split.
  - intros Hs. apply Nat.ltb_lt in Hs. rewrite Hs.
    apply (py_round_between 5 70).
    apply (random_uniform_between _ 5 70 Hdep). reflexivity || discriminate.
  - intros Hs. apply Nat.ltb_ge in Hs. rewrite Hs.
    apply (py_round_between 70 200).
    apply (random_uniform_between _ 70 200 Hdep). discriminate.
Qed.

Lemma estimated_location_in_region_witness :
  match analyze_earthquake_patterns catalog_monthly sample_now with
  | Returned a =>
      match predict_next_earthquake "India" (Some a) sample_now (sample_rng 0) with
      | Returned f => (8 <= fst (estimated_coordinates f) <= 37)%Q
      | _ => False
      end
  | _ => False
  end.
Proof.
  destruct (analyze_earthquake_patterns catalog_monthly sample_now)
    as [a | | e] eqn:Ea; [ | vm_compute in Ea; discriminate Ea
                           | vm_compute in Ea; discriminate Ea ].
  destruct (predict_next_earthquake "India" (Some a) sample_now (sample_rng 0))
    as [f | | e] eqn:Ef.
  - assert (Hu : (0 <= 0.5 <= 1)%Q) by (split; discriminate).
    destruct (estimated_location_in_region "India" (Some a) sample_now
                (sample_rng 0) f Ef Hu Hu Hu)
      as (a' & coords & _ & Hc & Hla & _).
    injection Hc as <-. exact Hla.
  - vm_compute in Ea. injection Ea as <-. vm_compute in Ef. discriminate Ef.
  - vm_compute in Ea. injection Ea as <-. vm_compute in Ef. discriminate Ef.
Defined.

(** ** The window, the magnitude and the confidence of a forecast *)

Lemma uncertainty_window_centred e a wi now p s en :
  (0 <= avg_interval_days a)%Q -> (0 <= wi)%Q ->
  uncertainty_window e a wi now = (p, (s, en)) ->
  s <= p <= en /\ p - s = en - p
  /\ (inject_Z (p - s) <= wi * 0.3 * inject_Z us_per_day + (1 # 2))%Q.
Proof.
  intros Havg Hwi. unfold uncertainty_window.
  pose proof (timedelta_days_nonneg _ (uncertainty_days_nonneg a wi Havg Hwi)) as Htd.
  assert (Hw : (inject_Z (timedelta_days
                   (wi * (if Qltb 0 (std_interval_days a)
                          then py_min 0.3 (std_interval_days a / avg_interval_days a)
                          else 0.2)))
                <= wi * 0.3 * inject_Z us_per_day + (1 # 2))%Q).
  { unfold timedelta_days.
    match goal with
    | |- (inject_Z (round_half_even ?x) <= _)%Q =>
        pose proof (round_half_even_near x) as [_ Hn]
    end.
    assert (Hu : ((if Qltb 0 (std_interval_days a)
                   then py_min 0.3 (std_interval_days a / avg_interval_days a)
                   else 0.2) <= 0.3)%Q).
    { destruct (Qltb 0 (std_interval_days a)); [ | discriminate ].
      destruct (py_min_spec 0.3 (std_interval_days a / avg_interval_days a))
        as [[Hlt ->] | [_ ->]]; lra. }
    set (u := if Qltb 0 (std_interval_days a) then _ else _) in *.
    assert (Hus : (0 <= inject_Z us_per_day)%Q) by discriminate.
    assert (Hm : (wi * u <= wi * 0.3)%Q) by nra.
    assert (Hm' : (wi * u * inject_Z us_per_day <= wi * 0.3 * inject_Z us_per_day)%Q)
      by (apply Qmult_le_compat_r; assumption).
    lra. }
  set (td := timedelta_days _) in *.
  destruct (e - td <=? now); intros [= <- <- <-].
  - split; [ lia | ]. split; [ lia | ].
    replace (e + (days_between now (e - td) + 1) * us_per_day
             - (e - td + (days_between now (e - td) + 1) * us_per_day))
      with td by lia.
    exact Hw.
  - split; [ lia | ]. split; [ lia | ].
    replace (e - (e - td)) with td by lia. exact Hw.
Qed.

(** The date range of a forecast made from a returned analysis is centred
    on the predicted date: its two ends are at the same distance from it,
    and that distance is at most thirty per cent of the weighted interval
    (up to the rounding of a duration to the microsecond). *)
Theorem date_range_centred_on_prediction data t0 a country now rng f :
  analyze_earthquake_patterns data t0 = Returned a ->
  predict_next_earthquake country (Some a) now rng = Returned f ->
  fst (date_range f) <= predicted_date f <= snd (date_range f)
  /\ predicted_date f - fst (date_range f) = snd (date_range f) - predicted_date f
  /\ (inject_Z (predicted_date f - fst (date_range f))
      <= weighted_interval_of a * 0.3 * inject_Z us_per_day + (1 # 2))%Q.
Proof.
  intros Ha Hf.
  apply analyze_returned_nonneg in Ha as (Havg & Hmed & Hfreq).
  apply predict_returned in Hf as (a' & last & e1 & [= <-] & _ & _ & Hwin & _).
  destruct (date_range f) as [s en]. simpl. symmetry in Hwin.
  apply (uncertainty_window_centred e1 a (weighted_interval_of a) now
           (predicted_date f) s en Havg);
    [ now apply weighted_interval_nonneg | exact Hwin ].
Qed.

Lemma date_range_centred_on_prediction_witness :
  match analyze_earthquake_patterns catalog_monthly sample_now with
  | Returned a =>
      match predict_next_earthquake "India" (Some a) sample_now (sample_rng 0) with
      | Returned f => fst (date_range f) <= predicted_date f <= snd (date_range f)
      | _ => False
      end
  | _ => False
  end.
Proof.
  destruct (analyze_earthquake_patterns catalog_monthly sample_now)
    as [a | | e] eqn:Ea; [ | vm_compute in Ea; discriminate Ea
                           | vm_compute in Ea; discriminate Ea ].
  destruct (predict_next_earthquake "India" (Some a) sample_now (sample_rng 0))
    as [f | | e] eqn:Ef.
  - exact (proj1 (date_range_centred_on_prediction catalog_monthly sample_now a
                    "India" sample_now (sample_rng 0) f Ea Ef)).
  - vm_compute in Ea. injection Ea as <-. vm_compute in Ef. discriminate Ef.
  - vm_compute in Ea. injection Ea as <-. vm_compute in Ef. discriminate Ef.
Defined.

Section Risk.

Local Open Scope Q_scope.

Lemma clamped_magnitude_at_least_4 (a : PatternAnalysis) (z : Q) :
  4.0 <= clamped_magnitude a z.
Proof.
  unfold clamped_magnitude.
  set (p := py_min _ _).
  destruct (py_max_spec 4.0 (min_magnitude a)) as [[H1 E1] | [H1 E1]];
    rewrite E1;
    [ destruct (py_max_spec (min_magnitude a) p) as [[H2 ->] | [H2 ->]]
    | destruct (py_max_spec 4.0 p) as [[H2 ->] | [H2 ->]] ]; lra.
Qed.

Lemma risk_rank_cases (m : Q) :
  (m < 4.5 /\ risk_rank (_calculate_risk_level m) = 0%nat)
  \/ (4.5 <= m < 5.5 /\ risk_rank (_calculate_risk_level m) = 1%nat)
  \/ (5.5 <= m < 6.5 /\ risk_rank (_calculate_risk_level m) = 2%nat)
  \/ (6.5 <= m < 7.5 /\ risk_rank (_calculate_risk_level m) = 3%nat)
  \/ (7.5 <= m /\ risk_rank (_calculate_risk_level m) = 4%nat).
Proof.
  unfold _calculate_risk_level.
  destruct (Qltb m 4.5) eqn:E1;
    [ apply Qltb_true in E1; left; split; [ exact E1 | reflexivity ] | ].
  apply Qltb_false in E1. right.
  destruct (Qltb m 5.5) eqn:E2;
    [ apply Qltb_true in E2; left; split; [ split; assumption | reflexivity ] | ].
  apply Qltb_false in E2. right.
  destruct (Qltb m 6.5) eqn:E3;
    [ apply Qltb_true in E3; left; split; [ split; assumption | reflexivity ] | ].
  apply Qltb_false in E3. right.
  destruct (Qltb m 7.5) eqn:E4;
    [ apply Qltb_true in E4; left; split; [ split; assumption | reflexivity ] | ].
  apply Qltb_false in E4. right. split; [ exact E4 | reflexivity ].
Qed.

End Risk.

(** The risk scale is monotone in the magnitude: a larger magnitude never
    gets a lower level, and each threshold 4.5, 5.5, 6.5, 7.5 belongs to
    the level above it. *)
Theorem risk_level_monotone (m1 m2 : Q) :
  (m1 <= m2)%Q ->
  (risk_rank (_calculate_risk_level m1) <= risk_rank (_calculate_risk_level m2))%nat
  /\ (level (_calculate_risk_level m1) = "Low"%string <-> (m1 < 4.5)%Q)
  /\ (level (_calculate_risk_level m1) = "Extreme"%string <-> (7.5 <= m1)%Q).
Proof.
  intros Hle. split; [ | split ].
  - destruct (risk_rank_cases m1) as [[H1 ->] | [[H1 ->] | [[H1 ->] | [[H1 ->] | [H1 ->]]]]];
      destruct (risk_rank_cases m2) as [[H2 ->] | [[H2 ->] | [[H2 ->] | [[H2 ->] | [H2 ->]]]]];
      try lia; exfalso; lra.
  - unfold _calculate_risk_level.
    destruct (Qltb m1 4.5) eqn:E1.
    + apply Qltb_true in E1. simpl. tauto.
    + apply Qltb_false in E1.
      destruct (Qltb m1 5.5); [ | destruct (Qltb m1 6.5); [ | destruct (Qltb m1 7.5) ] ];
        simpl; (split; [ discriminate | intros H; exfalso; lra ]).
  - unfold _calculate_risk_level.
    destruct (Qltb m1 4.5) eqn:E1;
      [ apply Qltb_true in E1; simpl;
        split; [ discriminate | intros H; exfalso; lra ] | ].
    destruct (Qltb m1 5.5) eqn:E2;
      [ apply Qltb_true in E2; simpl;
        split; [ discriminate | intros H; exfalso; lra ] | ].
    destruct (Qltb m1 6.5) eqn:E3;
      [ apply Qltb_true in E3; simpl;
        split; [ discriminate | intros H; exfalso; lra ] | ].
    destruct (Qltb m1 7.5) eqn:E4;
      [ apply Qltb_true in E4; simpl;
        split; [ discriminate | intros H; exfalso; lra ] | ].
    apply Qltb_false in E4. simpl. tauto.
Qed.

Lemma risk_level_monotone_witness :
  (5.0 <= 7.0)%Q
  /\ (risk_rank (_calculate_risk_level 5.0)
      <= risk_rank (_calculate_risk_level 7.0))%nat.
Proof.
  assert (H : (5.0 <= 7.0)%Q) by discriminate.
  split; [ exact H | exact (proj1 (risk_level_monotone 5.0 7.0 H)) ].
Defined.

(** Whatever the analysis and the normal draw, the predicted magnitude of a
    returned forecast is at least 4.0 after rounding, and the risk level
    reported is the level of that rounded magnitude. *)
Theorem forecast_magnitude_floor_and_risk country analysis now rng f :
  predict_next_earthquake country analysis now rng = Returned f ->
  (4.0 <= predicted_magnitude f)%Q
  /\ risk_level f = _calculate_risk_level (predicted_magnitude f)
  /\ ((predicted_magnitude f < 4.5)%Q <-> level (risk_level f) = "Low"%string).
Proof.
  intros H. pose proof H as H'.
  apply predict_returned in H as (a & last & e1 & _ & _ & _ & _ & _ & Hm).
  apply predict_returned_fields in H'
    as (a' & last' & coords & _ & _ & _ & _ & _ & _ & _ & _ & _ & Hr).
  split; [ | split; [ exact Hr | ] ].
  - rewrite Hm.
    pose proof (clamped_magnitude_at_least_4 a (normal_z rng)) as H4.
    pose proof (py_round_1_lower 40 (clamped_magnitude a (normal_z rng))) as Hl.
    assert (E : (inject_Z 40 / 10 == 4.0)%Q) by reflexivity.
    rewrite E in Hl. apply Hl. exact H4.
  - rewrite Hr. unfold _calculate_risk_level.
    destruct (Qltb (predicted_magnitude f) 4.5) eqn:E1.
    + apply Qltb_true in E1. simpl. tauto.
    + apply Qltb_false in E1.
      destruct (Qltb _ 5.5); [ | destruct (Qltb _ 6.5); [ | destruct (Qltb _ 7.5) ] ];
        simpl; (split; [ intros Hlt; exfalso; lra | discriminate ]).
Qed.

Lemma forecast_magnitude_floor_and_risk_witness :
  match analyze_earthquake_patterns catalog_monthly sample_now with
  | Returned a =>
      match predict_next_earthquake "India" (Some a) sample_now (sample_rng 0) with
      | Returned f => (4.0 <= predicted_magnitude f)%Q
      | _ => False
      end
  | _ => False
  end.
Proof.
  destruct (analyze_earthquake_patterns catalog_monthly sample_now)
    as [a | | e] eqn:Ea; [ | vm_compute in Ea; discriminate Ea
                           | vm_compute in Ea; discriminate Ea ].
  destruct (predict_next_earthquake "India" (Some a) sample_now (sample_rng 0))
    as [f | | e] eqn:Ef.
  - exact (proj1 (forecast_magnitude_floor_and_risk "India" (Some a) sample_now
                    (sample_rng 0) f Ef)).
  - vm_compute in Ea. injection Ea as <-. vm_compute in Ef. discriminate Ef.
  - vm_compute in Ea. injection Ea as <-. vm_compute in Ef. discriminate Ef.
Defined.

Section Confidence.

Local Open Scope Q_scope.

Lemma confidence_factors_sum (a : PatternAnalysis) (t : Z) :
  28 <= sumQ (map snd (confidence_factors_of a t)) <= 100
  /\ map fst (confidence_factors_of a t)
     = [ "data_volume"; "pattern_regularity"; "data_recency";
         "seasonal_pattern"; "geographic_consistency" ]%string.
Proof.
  unfold confidence_factors_of. cbv zeta.
  set (ds := py_min 25 _).
  assert (Hds : 0 <= ds <= 25).
  { unfold ds.
    assert (H0 : 0 <= qn (total_earthquakes a) / 50 * 25).
    { apply Qmult_le_0_compat; [ | discriminate ].
      apply Qdiv_nonneg; [ | discriminate ].
      unfold qn. change 0 with (inject_Z 0). rewrite <- Zle_Qle. lia. }
    destruct (py_min_spec 25 (qn (total_earthquakes a) / 50 * 25))
      as [[H1 ->] | [H1 ->]]; lra. }
  clearbody ds.
  set (reg := if Qltb 0 (std_interval_days a) then _ else 15%Z).
  assert (Hreg : (10 <= reg <= 25)%Z).
  { unfold reg. repeat match goal with
                       | |- context [if ?b then _ else _] => destruct b
                       end; lia. }
  clearbody reg.
  set (rec := if (t <? 365)%Z then _ else _).
  assert (Hrec : (5 <= rec <= 20)%Z).
  { unfold rec. repeat match goal with
                       | |- context [if ?b then _ else _] => destruct b
                       end; lia. }
  clearbody rec.
  set (sea := if (_ && _)%bool then _ else 5%Z).
  assert (Hsea : (5 <= sea <= 15)%Z).
  { unfold sea. repeat match goal with
                       | |- context [if ?b then _ else _] => destruct b
                       end; lia. }
  clearbody sea.
  set (geo := if (0 <? _)%nat then _ else 8%Z).
  assert (Hgeo : (8 <= geo <= 15)%Z).
  { unfold geo. repeat match goal with
                       | |- context [if ?b then _ else _] => destruct b
                       end; lia. }
  clearbody geo.
  split; [ | reflexivity ].
  simpl. unfold qz.
  destruct Hreg as [R1 R2], Hrec as [C1 C2], Hsea as [S1 S2], Hgeo as [G1 G2].
  rewrite Zle_Qle in R1, R2, C1, C2, S1, S2, G1, G2.
  change (inject_Z 10) with 10 in *. change (inject_Z 25) with 25 in *.
  change (inject_Z 5) with 5 in *. change (inject_Z 20) with 20 in *.
  change (inject_Z 15) with 15 in *. change (inject_Z 8) with 8 in *.
  split; lra.
Qed.

Lemma penalties_sum (a : PatternAnalysis) (t : Z) :
  -40 <= sumQ (map snd (penalties_of a t)) <= 0
  /\ Forall (fun p => snd p <= 0) (penalties_of a t).
Proof.
  unfold penalties_of. cbv zeta.
  set (sp := if (total_earthquakes a <? 10)%nat then _ else _).
  assert (Hsp : (-15 <= sp <= 0)%Z).
  { unfold sp. repeat match goal with
                      | |- context [if ?b then _ else _] => destruct b
                      end; lia. }
  clearbody sp.
  set (hv := if (_ && _)%bool then (-10)%Z else 0%Z).
  assert (Hhv : (-10 <= hv <= 0)%Z).
  { unfold hv. destruct (_ && _)%bool; lia. }
  clearbody hv.
  set (od := if (7300 <? t)%Z then _ else _).
  assert (Hod : (-15 <= od <= 0)%Z).
  { unfold od. repeat match goal with
                      | |- context [if ?b then _ else _] => destruct b
                      end; lia. }
  clearbody od.
  destruct Hsp as [S1 S2], Hhv as [V1 V2], Hod as [O1 O2].
  rewrite Zle_Qle in S1, S2, V1, V2, O1, O2.
  change (inject_Z (-15)) with (-15) in *. change (inject_Z (-10)) with (-10) in *.
  change (inject_Z 0) with 0 in *.
  split.
  - simpl. unfold qz. split; lra.
  - repeat constructor; simpl; unfold qz; assumption.
Qed.

End Confidence.

(** The confidence percentage of a returned forecast can be recomputed
    from the breakdown and the penalties reported beside it: it is their
    total, clamped to 35..85 and rounded.  The breakdown has the five named
    factors, totalling between 28 and 100; no penalty is positive, and
    the penalties total between -40 and 0. *)
Theorem confidence_recomputable_from_breakdown country analysis now rng f :
  predict_next_earthquake country analysis now rng = Returned f ->
  confidence_percentage f
  = round_half_even
      (py_max 35 (py_min 85 (sumQ (map snd (confidence_breakdown f))
                             + sumQ (map snd (confidence_penalties f)))))
  /\ map fst (confidence_breakdown f)
     = [ "data_volume"; "pattern_regularity"; "data_recency";
         "seasonal_pattern"; "geographic_consistency" ]%string
  /\ (28 <= sumQ (map snd (confidence_breakdown f)) <= 100)%Q
  /\ (-40 <= sumQ (map snd (confidence_penalties f)) <= 0)%Q
  /\ Forall (fun p => (snd p <= 0)%Q) (confidence_penalties f).
Proof.
  intros H. pose proof H as H'.
  apply predict_returned in H as (a & last & e1 & Ea & Hl & _ & _ & Hc & _).
  apply predict_returned_fields in H'
    as (a' & last' & coords & Ea' & Hl' & _ & _ & _ & Hb & Hp & _).
  rewrite Ea in Ea'. injection Ea' as <-.
  rewrite Hl in Hl'. injection Hl' as <-.
  rewrite Hb, Hp, Hc.
  destruct (confidence_factors_sum a (days_between now last)) as [Hs Hn].
  destruct (penalties_sum a (days_between now last)) as [Hps Hpa].
  split; [ reflexivity | ]. auto.
Qed.

Lemma confidence_recomputable_from_breakdown_witness :
  match analyze_earthquake_patterns catalog_monthly sample_now with
  | Returned a =>
      match predict_next_earthquake "India" (Some a) sample_now (sample_rng 0) with
      | Returned f => (28 <= sumQ (map snd (confidence_breakdown f)) <= 100)%Q
      | _ => False
      end
  | _ => False
  end.
Proof.
  destruct (analyze_earthquake_patterns catalog_monthly sample_now)
    as [a | | e] eqn:Ea; [ | vm_compute in Ea; discriminate Ea
                           | vm_compute in Ea; discriminate Ea ].
  destruct (predict_next_earthquake "India" (Some a) sample_now (sample_rng 0))
    as [f | | e] eqn:Ef.
  - exact (proj1 (proj2 (proj2 (confidence_recomputable_from_breakdown "India"
                    (Some a) sample_now (sample_rng 0) f Ef)))).
  - vm_compute in Ea. injection Ea as <-. vm_compute in Ef. discriminate Ef.
  - vm_compute in Ea. injection Ea as <-. vm_compute in Ef. discriminate Ef.
Defined.

(** ** Projecting the estimate forward *)

Lemma timedelta_days_at_least (n : Z) (x : Q) :
  (inject_Z n <= x)%Q -> n * us_per_day <= timedelta_days x.
Proof.
  intros H. unfold timedelta_days. apply round_half_even_lower.
  rewrite inject_Z_mult. apply Qmult_le_compat_r; [ exact H | discriminate ].
Qed.

(** For a positive weighted interval the projected date is strictly after
    the clock reading; when the first estimate, the last event plus the
    interval, is not after the clock reading, the projected date is at
    least thirty whole days ahead. *)
Theorem project_forward_future (last_earthquake : Z) (wi : Q) (now : Z) :
  (0 < wi)%Q ->
  now < project_forward last_earthquake wi now
  /\ (last_earthquake + timedelta_days wi <= now ->
      30 <= days_between (project_forward last_earthquake wi now) now)
  /\ (now < last_earthquake + timedelta_days wi ->
      project_forward last_earthquake wi now = last_earthquake + timedelta_days wi).
Proof.
  intros Hwi. unfold project_forward. cbv zeta.
  set (e0 := last_earthquake + timedelta_days wi).
  assert (H30 : 30 * us_per_day <= timedelta_days (30 + wi)).
  { apply timedelta_days_at_least. change (inject_Z 30) with 30%Q. lra. }
  destruct (e0 <=? now) eqn:E.
  - apply Z.leb_le in E.
    set (e1 := e0 + timedelta_days _).
    destruct (days_between e1 now <? 30) eqn:E30.
    + split; [ unfold us_per_day in *; lia | ].
      split; [ | lia ]. intros _.
      unfold days_between, us_per_day in *. Z.div_mod_to_equations. lia.
    + apply Z.ltb_ge in E30. split; [ | split; [ auto | lia ] ].
      unfold days_between, us_per_day in *. Z.div_mod_to_equations. lia.
  - apply Z.leb_gt in E. split; [ exact E | ]. split; [ lia | reflexivity ].
Qed.

Lemma project_forward_future_witness :
  (0 < 100)%Q
  /\ datetime 2022 1 1 0 0 0
     < project_forward (datetime 2020 1 1 0 0 0) 100 (datetime 2022 1 1 0 0 0).
Proof.
  assert (H : (0 < 100)%Q) by reflexivity.
  split; [ exact H | ].
  exact (proj1 (project_forward_future (datetime 2020 1 1 0 0 0) 100
                  (datetime 2022 1 1 0 0 0) H)).
Defined.
